(** * Question generation and student test: a shallow embedding

    The development follows three source files of the learning system:

    - [pages/api/auto-generate-question.ts], the [handler] that asks the
      language model for a question in the "options + answer" format;
    - the route file with the [POST] function, the same pipeline for the
      "choices with correctness flags" format;
    - the student test page ([StudentTest]): [fetchQuestions],
      [handleAnswerSelect], [handleNextQuestion], [handlePreviousQuestion]
      and the scoring of [handleSubmit].

    JavaScript values are embedded as a tree type, exceptions as an error
    monad, the component state as a record with a step function. *)

From Stdlib Require Import ZArith List Bool Ascii String Lia Permutation.
From Stdlib Require Import SpecFloat.
Import ListNotations.

Local Open Scope string_scope.
Local Open Scope Z_scope.

(* ================================================================== *)
(** * JavaScript values *)
(* ================================================================== *)

Module Js.

(** A JavaScript string is kept as a Rocq [string]: one character per
    code unit below 128, and the code units above encoded on two or three
    bytes in the UTF-8 pattern (see [Json.encode_unit]).  Searching for an
    ASCII pattern and comparing two strings give the same answers on this
    encoding as on the code units. *)

(** Numbers are IEEE-754 binary64 values. *)
Definition prec : Z := 53.
Definition emax : Z := 1024.
Definition number : Type := spec_float.

(** An object is its list of own properties in creation order. *)
Definition Obj (A : Type) : Type := list (string * A).

(** [JInherited k] is the built-in function or object that every ordinary
    object inherits from [Object.prototype] under the name [k]. *)
#[warnings="-register-all"]
Inductive JsValue : Type :=
| JUndefined
| JNull
| JBool (b : bool)
| JNum (n : number)
| JStr (s : string)
| JArr (items : list JsValue)
| JObj (props : Obj JsValue)
| JInherited (k : string).

(** Exceptions that the modelled code can raise. *)
Inductive Exn : Type :=
| Error (message : string)
| TypeError (message : string)
| SyntaxError.

(** [error.message].  The text of a [SyntaxError] depends on the engine and
    on the position of the offending character; no handler that can receive
    one reads it. *)
Definition message (e : Exn) : string :=
  match e with
  | Error m => m
  | TypeError m => m
  | SyntaxError => "Unexpected token in JSON"
  end.

(** An evaluation either completes with a value or throws. *)
Inductive Completion (A : Type) : Type :=
| Normal (a : A)
| Throw (e : Exn).
Arguments Normal {A} a.
Arguments Throw {A} e.

Definition bind {A B} (c : Completion A) (k : A -> Completion B) : Completion B :=
  match c with
  | Normal a => k a
  | Throw e => Throw e
  end.

Declare Scope js_scope.
Delimit Scope js_scope with js.
Notation "x <- c ;; k" := (bind c (fun x => k))
  (at level 61, c at next level, right associativity) : js_scope.

(** [try { body } catch (error) { handler }] *)
Definition try_catch {A} (body : Completion A) (handler : Exn -> A) : A :=
  match body with
  | Normal a => a
  | Throw e => handler e
  end.

(** ** Own and inherited properties *)

Fixpoint own {A} (props : Obj A) (k : string) : option A :=
  match props with
  | [] => None
  | (k', v) :: rest => if String.eqb k' k then Some v else own rest k
  end.

(** [{...props, [k]: v}]: an existing property keeps its place. *)
Fixpoint set {A} (props : Obj A) (k : string) (v : A) : Obj A :=
  match props with
  | [] => [(k, v)]
  | (k', v') :: rest =>
      if String.eqb k' k then (k', v) :: rest else (k', v') :: set rest k v
  end.

(** The property names of [Object.prototype]. *)
Definition Object_prototype : list string :=
  [ "constructor"; "__proto__"; "hasOwnProperty"; "isPrototypeOf";
    "propertyIsEnumerable"; "toLocaleString"; "toString"; "valueOf";
    "__defineGetter__"; "__defineSetter__"; "__lookupGetter__";
    "__lookupSetter__" ].

Definition inherited (k : string) : bool :=
  existsb (String.eqb k) Object_prototype.

(** [o[k]] on an ordinary object [o] with own properties [props]. *)
Definition get (props : Obj JsValue) (k : string) : JsValue :=
  match own props k with
  | Some v => v
  | None => if inherited k then JInherited k else JUndefined
  end.

(** [v.k] for one of the field names the endpoints read ([question],
    [options], [choices], [answer], [difficulty], [explanation],
    [is_correct]).  None of them is defined on the prototype of strings,
    numbers, booleans or arrays, so reading one from such a value gives
    [undefined]; reading from [null] or [undefined] throws. *)
Definition field (v : JsValue) (k : string) : Completion JsValue :=
  match v with
  | JUndefined =>
      Throw (TypeError ("Cannot read properties of undefined (reading '" ++ k ++ "')"))
  | JNull =>
      Throw (TypeError ("Cannot read properties of null (reading '" ++ k ++ "')"))
  | JObj props => Normal (get props k)
  | _ => Normal JUndefined
  end.

(** The values whose fields can be read without an exception. *)
Definition readable (v : JsValue) : Prop := v <> JNull /\ v <> JUndefined.

(** [{...v}]: the own enumerable properties of an object; a primitive has
    none.  (The endpoints spread [data] only after the validation, which
    lets nothing but an object through, see [valid_is_object] below.) *)
Definition spread (v : JsValue) : Obj JsValue :=
  match v with
  | JObj props => props
  | _ => []
  end.

(** ** Truthiness and equality *)

Definition truthy (v : JsValue) : bool :=
  match v with
  | JUndefined | JNull => false
  | JBool b => b
  | JNum (S754_zero _) | JNum S754_nan => false
  | JNum _ => true
  | JStr s => negb (String.eqb s "")
  | JArr _ | JObj _ | JInherited _ => true
  end.

(** [a || b] *)
Definition or_else (a b : JsValue) : JsValue := if truthy a then a else b.

Definition number_eq (x y : number) : bool :=
  match SFcompare x y with
  | Some Eq => true
  | _ => false
  end.

(** [a === b].  Values come out of [JSON.parse], which allocates every
    array and object afresh, so two arrays or two objects are never the same
    reference; the built-ins of [Object.prototype] are compared by name. *)
Definition strict_eq (a b : JsValue) : bool :=
  match a, b with
  | JUndefined, JUndefined => true
  | JNull, JNull => true
  | JBool x, JBool y => Bool.eqb x y
  | JNum x, JNum y => number_eq x y
  | JStr x, JStr y => String.eqb x y
  | JInherited x, JInherited y => String.eqb x y
  | _, _ => false
  end.

(** SameValueZero, the comparison of [Array.prototype.includes]: as [===]
    except that NaN equals itself. *)
Definition same_value_zero (a b : JsValue) : bool :=
  match a, b with
  | JNum S754_nan, JNum S754_nan => true
  | _, _ => strict_eq a b
  end.

(** ** Arrays *)

Definition isArray (v : JsValue) : bool :=
  match v with
  | JArr _ => true
  | _ => false
  end.

(** [items.includes(x)] *)
Definition array_includes (items : list JsValue) (x : JsValue) : bool :=
  existsb (fun y => same_value_zero y x) items.

(** [items.some(f)]: stops at the first truthy result. *)
Fixpoint some (f : JsValue -> Completion JsValue) (items : list JsValue)
  : Completion bool :=
  match items with
  | [] => Normal false
  | c :: rest =>
      bind (f c) (fun r => if truthy r then Normal true else some f rest)
  end.

(** [items.filter(f)]: calls [f] on every element. *)
Fixpoint filter (f : JsValue -> Completion JsValue) (items : list JsValue)
  : Completion (list JsValue) :=
  match items with
  | [] => Normal []
  | c :: rest =>
      bind (f c) (fun r =>
      bind (filter f rest) (fun kept =>
      Normal (if truthy r then c :: kept else kept)))
  end.

(** ** Strings *)

(** [s.startsWith(p)] *)
Fixpoint starts_with (p s : string) : bool :=
  match p, s with
  | EmptyString, _ => true
  | String a p', String b s' => Ascii.eqb a b && starts_with p' s'
  | String _ _, EmptyString => false
  end.

(** [s.includes(p)] *)
Fixpoint includes (s p : string) : bool :=
  starts_with p s ||
  match s with
  | EmptyString => false
  | String _ s' => includes s' p
  end.

Definition lower_char (c : ascii) : ascii :=
  let n := nat_of_ascii c in
  if ((65 <=? n) && (n <=? 90))%nat then ascii_of_nat (n + 32) else c.

(** [s.toLowerCase()].  The letters A to Z are folded; a character outside
    ASCII is left as it is.  (No character outside ASCII lower-cases to one
    of the letters of the keys that [difficultyMap] can answer for, so the
    look-up below is not affected.) *)
Fixpoint toLowerCase (s : string) : string :=
  match s with
  | EmptyString => EmptyString
  | String c s' => String (lower_char c) (toLowerCase s')
  end.

(** [v.toLowerCase()] on an arbitrary value. *)
Definition call_toLowerCase (path : string) (v : JsValue) : Completion string :=
  match v with
  | JStr s => Normal (toLowerCase s)
  | JUndefined =>
      Throw (TypeError "Cannot read properties of undefined (reading 'toLowerCase')")
  | JNull =>
      Throw (TypeError "Cannot read properties of null (reading 'toLowerCase')")
  | _ => Throw (TypeError (path ++ ".toLowerCase is not a function"))
  end.

(** ** The pattern [/\{[\s\S]*?\}/] *)

(** [upto_close s] is the shortest prefix of [s] that ends with a closing
    brace. *)
Fixpoint upto_close (s : string) : option string :=
  match s with
  | EmptyString => None
  | String c s' =>
      if Ascii.eqb c "}" then Some (String c EmptyString)
      else option_map (String c) (upto_close s')
  end.

(** [s.match(/\{[\s\S]*?\}/)]: the match starts at the first opening brace
    that has a closing brace somewhere after it, and the lazy star stops at
    the first such closing brace.  The result is [jsonMatch[0]]. *)
Fixpoint match_braces (s : string) : option string :=
  match s with
  | EmptyString => None
  | String c s' =>
      if Ascii.eqb c "{" then
        match upto_close s' with
        | Some m => Some (String c m)
        | None => match_braces s'
        end
      else match_braces s'
  end.

End Js.

(* ================================================================== *)
(** * [JSON.parse] *)
(* ================================================================== *)

Module Json.
Import Js.

(** ** Number literals *)

(** The binary64 value nearest to [m * 10 ^ e10] (ties to even), for
    [0 <= m].  A negative power of ten is divided out with enough extra bits
    for the quotient to carry the rounding position. *)
Definition number_of_decimal (neg : bool) (m e10 : Z) : number :=
  match m with
  | Z0 => S754_zero neg
  | Zpos p =>
      if 0 <=? e10 then
        match m * 10 ^ e10 with
        | Zpos q => binary_round prec emax neg q 0
        | _ => S754_nan
        end
      else
        let d := 10 ^ (- e10) in
        let s := Z.max 0 (Zdigits2 d + 55 - Zdigits2 m) in
        let n := m * 2 ^ s in
        let q := n / d in
        let r := n mod d in
        let l := if r =? 0 then loc_Exact else loc_Inexact (2 * r ?= d) in
        binary_round_aux prec emax neg q (- s) l
  | Zneg _ => S754_nan
  end.

Definition is_digit (c : ascii) : bool :=
  let n := nat_of_ascii c in ((48 <=? n) && (n <=? 57))%nat.

Definition digit_value (c : ascii) : Z := Z.of_nat (nat_of_ascii c) - 48.

(** Reads a possibly empty run of digits: the value with the digits
    appended to [acc], how many were read, and the rest. *)
Fixpoint digits (acc : Z) (count : Z) (s : string) : Z * Z * string :=
  match s with
  | String c s' =>
      if is_digit c then digits (10 * acc + digit_value c) (count + 1) s'
      else (acc, count, s)
  | EmptyString => (acc, count, s)
  end.

(** [int]: a single [0], or a non-empty run of digits that does not start
    with [0]. *)
Definition int_part (s : string) : option (Z * string) :=
  match s with
  | String c s' =>
      if Ascii.eqb c "0" then Some (0, s')
      else if is_digit c then
        let '(v, _, rest) := digits 0 0 s in Some (v, rest)
      else None
  | EmptyString => None
  end.

(** [frac]: nothing, or a dot and at least one digit.  The digits extend
    the mantissa and lower the exponent. *)
Definition frac_part (m : Z) (s : string) : option (Z * Z * string) :=
  match s with
  | String c s' =>
      if Ascii.eqb c "." then
        let '(v, count, rest) := digits m 0 s' in
        if count =? 0 then None else Some (v, - count, rest)
      else Some (m, 0, s)
  | EmptyString => Some (m, 0, s)
  end.

(** An optional sign: whether it is a minus, and the rest. *)
Definition sign (s : string) : bool * string :=
  match s with
  | String c s' =>
      if Ascii.eqb c "-" then (true, s')
      else if Ascii.eqb c "+" then (false, s')
      else (false, s)
  | EmptyString => (false, s)
  end.

(** [exp]: nothing, or [e] or [E], an optional sign and at least one
    digit. *)
Definition exp_part (s : string) : option (Z * string) :=
  match s with
  | String c s' =>
      if Ascii.eqb c "e" || Ascii.eqb c "E" then
        let '(neg, s'') := sign s' in
        let '(v, count, rest) := digits 0 0 s'' in
        if count =? 0 then None else Some (if neg then - v else v, rest)
      else Some (0, s)
  | EmptyString => Some (0, s)
  end.

Definition parse_number (s : string) : option (number * string) :=
  let '(neg, s1) :=
    match s with
    | String c s' => if Ascii.eqb c "-" then (true, s') else (false, s)
    | EmptyString => (false, s)
    end in
  match int_part s1 with
  | None => None
  | Some (i, s2) =>
      match frac_part i s2 with
      | None => None
      | Some (m, e1, s3) =>
          match exp_part s3 with
          | None => None
          | Some (e2, s4) => Some (number_of_decimal neg m (e1 + e2), s4)
          end
      end
  end.

(** ** String literals *)

Definition quote : ascii := "034".
Definition backslash : ascii := "092".

Definition hex_value (c : ascii) : option Z :=
  let n := nat_of_ascii c in
  if ((48 <=? n) && (n <=? 57))%nat then Some (Z.of_nat n - 48)
  else if ((65 <=? n) && (n <=? 70))%nat then Some (Z.of_nat n - 55)
  else if ((97 <=? n) && (n <=? 102))%nat then Some (Z.of_nat n - 87)
  else None.

Definition hex4 (a b c d : ascii) : option Z :=
  match hex_value a, hex_value b, hex_value c, hex_value d with
  | Some x, Some y, Some z, Some w => Some (((x * 16 + y) * 16 + z) * 16 + w)
  | _, _, _, _ => None
  end.

Definition byte (n : Z) : ascii := ascii_of_nat (Z.to_nat n).

(** The bytes that stand for the code unit [u] of a [\uXXXX] escape. *)
Definition encode_unit (u : Z) : string :=
  if u <? 128 then String (byte u) ""
  else if u <? 2048 then
    String (byte (192 + u / 64)) (String (byte (128 + u mod 64)) "")
  else
    String (byte (224 + u / 4096))
      (String (byte (128 + (u / 64) mod 64)) (String (byte (128 + u mod 64)) "")).

(** The character that a one-letter escape stands for. *)
Definition escape (e : ascii) : option ascii :=
  if Ascii.eqb e quote then Some quote
  else if Ascii.eqb e backslash then Some backslash
  else if Ascii.eqb e "/" then Some "/"%char
  else if Ascii.eqb e "b" then Some "008"%char
  else if Ascii.eqb e "t" then Some "009"%char
  else if Ascii.eqb e "n" then Some "010"%char
  else if Ascii.eqb e "f" then Some "012"%char
  else if Ascii.eqb e "r" then Some "013"%char
  else None.

(** The characters of a string literal after its opening quote: the decoded
    string and what follows the closing quote.  A control character has to
    be escaped. *)
Fixpoint parse_string (s : string) : option (string * string) :=
  match s with
  | EmptyString => None
  | String c s' =>
      if Ascii.eqb c quote then Some ("", s')
      else if Ascii.eqb c backslash then
        match s' with
        | EmptyString => None
        | String e s'' =>
            if Ascii.eqb e "u" then
              match s'' with
              | String h1 (String h2 (String h3 (String h4 s5))) =>
                  match hex4 h1 h2 h3 h4, parse_string s5 with
                  | Some u, Some (body, rest) => Some (encode_unit u ++ body, rest)
                  | _, _ => None
                  end
              | _ => None
              end
            else
              match escape e, parse_string s'' with
              | Some x, Some (body, rest) => Some (String x body, rest)
              | _, _ => None
              end
        end
      else if (nat_of_ascii c <? 32)%nat then None
      else
        match parse_string s' with
        | Some (body, rest) => Some (String c body, rest)
        | None => None
        end
  end.

(** ** Values *)

Definition is_ws (c : ascii) : bool :=
  let n := nat_of_ascii c in
  ((n =? 32) || (n =? 9) || (n =? 10) || (n =? 13))%nat.

Fixpoint skip_ws (s : string) : string :=
  match s with
  | String c s' => if is_ws c then skip_ws s' else s
  | EmptyString => s
  end.

(** [s] without its prefix [p], when it starts with [p]. *)
Fixpoint strip (p s : string) : option string :=
  match p, s with
  | EmptyString, _ => Some s
  | String a p', String b s' => if Ascii.eqb a b then strip p' s' else None
  | String _ _, EmptyString => None
  end.

(** The literals [true], [false] and [null]. *)
Definition parse_literal (s : string) : option (JsValue * string) :=
  match strip "true" s, strip "false" s, strip "null" s with
  | Some r, _, _ => Some (JBool true, r)
  | _, Some r, _ => Some (JBool false, r)
  | _, _, Some r => Some (JNull, r)
  | None, None, None => None
  end.

(** Recursive descent.  [fuel] bounds the depth of the calls; twice the
    length of the text is always enough, since a call that descends has read
    a character first or is followed by one that does. *)
Fixpoint parse_value (fuel : nat) (s : string) {struct fuel}
  : option (JsValue * string) :=
  match fuel with
  | O => None
  | S fuel' =>
      match skip_ws s with
      | EmptyString => None
      | String c r as s1 =>
          if Ascii.eqb c "{" then
            match skip_ws r with
            | EmptyString => None
            | String c' r' as r1 =>
                if Ascii.eqb c' "}" then Some (JObj [], r')
                else
                  match parse_members fuel' [] r1 with
                  | Some (props, rest) => Some (JObj props, rest)
                  | None => None
                  end
            end
          else if Ascii.eqb c "[" then
            match skip_ws r with
            | EmptyString => None
            | String c' r' as r1 =>
                if Ascii.eqb c' "]" then Some (JArr [], r')
                else
                  match parse_elements fuel' r1 with
                  | Some (items, rest) => Some (JArr items, rest)
                  | None => None
                  end
            end
          else if Ascii.eqb c quote then
            match parse_string r with
            | Some (str, rest) => Some (JStr str, rest)
            | None => None
            end
          else
            match parse_literal s1 with
            | Some found => Some found
            | None =>
                match parse_number s1 with
                | Some (n, rest) => Some (JNum n, rest)
                | None => None
                end
            end
      end
  end

(** The elements of an array, from the first one to the closing bracket. *)
with parse_elements (fuel : nat) (s : string) {struct fuel}
  : option (list JsValue * string) :=
  match fuel with
  | O => None
  | S fuel' =>
      match parse_value fuel' s with
      | None => None
      | Some (v, r) =>
          match skip_ws r with
          | EmptyString => None
          | String c r' =>
              if Ascii.eqb c "," then
                match parse_elements fuel' r' with
                | Some (items, rest) => Some (v :: items, rest)
                | None => None
                end
              else if Ascii.eqb c "]" then Some ([v], r')
              else None
          end
      end
  end

(** The members of an object, from the first key to the closing brace.  A
    key that occurs again replaces the earlier value. *)
with parse_members (fuel : nat) (acc : Obj JsValue) (s : string) {struct fuel}
  : option (Obj JsValue * string) :=
  match fuel with
  | O => None
  | S fuel' =>
      match skip_ws s with
      | EmptyString => None
      | String c r =>
          if Ascii.eqb c quote then
            match parse_string r with
            | None => None
            | Some (k, r1) =>
                match skip_ws r1 with
                | EmptyString => None
                | String c1 r2 =>
                    if Ascii.eqb c1 ":" then
                      match parse_value fuel' r2 with
                      | None => None
                      | Some (v, r3) =>
                          match skip_ws r3 with
                          | EmptyString => None
                          | String c3 r4 =>
                              if Ascii.eqb c3 "," then
                                parse_members fuel' (set acc k v) r4
                              else if Ascii.eqb c3 "}" then Some (set acc k v, r4)
                              else None
                          end
                      end
                    else None
                end
            end
          else None
      end
  end.

(** [JSON.parse(text)]: one value, white space around it, nothing else. *)
Definition JSON_parse (text : string) : Completion JsValue :=
  match parse_value (2 * String.length text + 1) text with
  | Some (v, rest) =>
      match skip_ws rest with
      | EmptyString => Normal v
      | _ => Throw SyntaxError
      end
  | None => Throw SyntaxError
  end.

(** ** Two counts *)

(** The closing braces of a text and the objects of a value: every object
    that [JSON.parse] builds has cost the text a closing brace. *)
Fixpoint closes (s : string) : nat :=
  match s with
  | EmptyString => 0
  | String c s' => (if Ascii.eqb c "}" then 1 else 0) + closes s'
  end.

Fixpoint objects (v : JsValue) : nat :=
  match v with
  | JArr items =>
      (fix sum (l : list JsValue) : nat :=
         match l with
         | [] => 0
         | x :: l' => objects x + sum l'
         end) items
  | JObj props =>
      S ((fix sum (l : Obj JsValue) : nat :=
            match l with
            | [] => 0
            | (_, x) :: l' => objects x + sum l'
            end) props)
  | _ => 0
  end%nat.

End Json.

(** JSON text is written below with an apostrophe for each double quote. *)
Fixpoint json (s : string) : string :=
  match s with
  | EmptyString => EmptyString
  | String c s' => String (if Ascii.eqb c "'" then Json.quote else c) (json s')
  end.

(* ================================================================== *)
(** * The two generation endpoints *)
(* ================================================================== *)

(** [res.status(status).json(body)] and [NextResponse.json(body, {status})] *)
Record Response : Type := { status : Z; body : Js.JsValue }.

(** [{ error: message }] *)
Definition error (message : string) : Js.JsValue :=
  Js.JObj [("error", Js.JStr message)].

(** An error response: status 500 and the message. *)
Definition failure (message : string) : Response :=
  {| status := 500; body := error message |}.

(** ** [pages/api/auto-generate-question.ts] *)

Module Handler.
Import Js Json.
Local Open Scope js_scope.

Section Handler.

(** [JSON.stringify], which the handler applies to the options; its output
    takes no part in any decision. *)
Variable JSON_stringify : JsValue -> string.

Definition difficultyMap : Obj JsValue :=
  [("easy", JStr "1"); ("medium", JStr "2"); ("hard", JStr "3")].

(** The condition of the [if] that guards the structure error:
    [!data.question || !Array.isArray(data.options) ||
     data.options.length < 2 || !data.answer ||
     !data.options.includes(data.answer)]. *)
Definition invalid (data : JsValue) : Completion bool :=
  question <- field data "question" ;;
  if negb (truthy question) then Normal true else
  options <- field data "options" ;;
  match options with
  | JArr items =>
      if Z.of_nat (List.length items) <? 2 then Normal true else
      answer <- field data "answer" ;;
      if negb (truthy answer) then Normal true else
      Normal (negb (array_includes items answer))
  | _ => Normal true
  end.

(** [{ ...data, difficulty: difficultyMap[data.difficulty.toLowerCase()] || '1',
      options: JSON.stringify(data.options) }] *)
Definition mappedData (data : JsValue) : Completion JsValue :=
  difficulty <- field data "difficulty" ;;
  key <- call_toLowerCase "data.difficulty" difficulty ;;
  options <- field data "options" ;;
  Normal (JObj (set (set (spread data)
                         "difficulty" (or_else (get difficultyMap key) (JStr "1")))
                    "options" (JStr (JSON_stringify options)))).

(** From the parsed [data] to the response. *)
Definition respond (data : JsValue) : Completion Response :=
  bad <- invalid data ;;
  if bad then
    Normal (failure "Invalid question structure or answer mismatch")
  else
    mapped <- mappedData data ;;
    Normal {| status := 200; body := mapped |}.

(** The body of the inner [try] from the point where the stream has ended
    and its chunks are accumulated in [fullResponse]; the request has passed
    the checks of the method, the API key and the required fields. *)
Definition attempt (fullResponse : string) : Completion Response :=
  if includes fullResponse "<!DOCTYPE" || includes fullResponse "<html" then
    Normal (failure "API returned an error page. Please check your API key and configuration.")
  else
    match match_braces fullResponse with
    | None =>
        Normal (failure "Invalid response format from the API")
    | Some jsonMatch =>
        data <- JSON_parse jsonMatch ;;
        respond data
    end.

(** The inner [try] with its [catch]. *)
Definition handler (fullResponse : string) : Response :=
  try_catch (attempt fullResponse)
    (fun _ =>
       failure "Failed to generate question. Please check your API key and configuration.").

End Handler.
End Handler.

(** ** The route with [POST] *)

Module Route.
Import Js Json.
Local Open Scope js_scope.

Definition difficultyMap : Obj JsValue :=
  [("easy", JStr "1"); ("medium", JStr "2"); ("hard", JStr "3")].

(** [(c) => c.is_correct] *)
Definition is_correct (c : JsValue) : Completion JsValue := field c "is_correct".

(** [c.is_correct] read as a condition, for an entry that can be read. *)
Definition flagged (c : JsValue) : bool :=
  match is_correct c with
  | Normal v => truthy v
  | Throw _ => false
  end.

(** The condition of the [if] that guards the structure error:
    [!data.question || !Array.isArray(data.choices) ||
     data.choices.length < 2 || !data.choices.some(c => c.is_correct) ||
     data.choices.filter(c => c.is_correct).length !== 1]. *)
Definition invalid (data : JsValue) : Completion bool :=
  question <- field data "question" ;;
  if negb (truthy question) then Normal true else
  choices <- field data "choices" ;;
  match choices with
  | JArr items =>
      if Z.of_nat (List.length items) <? 2 then Normal true else
      any <- some is_correct items ;;
      if negb any then Normal true else
      kept <- filter is_correct items ;;
      Normal (negb (Z.of_nat (List.length kept) =? 1))
  | _ => Normal true
  end.

(** [{ question: data.question, choices: data.choices,
      explanation: data.explanation,
      difficulty: difficultyMap[data.difficulty.toLowerCase()] || '1' }] *)
Definition mappedData (data : JsValue) : Completion JsValue :=
  question <- field data "question" ;;
  choices <- field data "choices" ;;
  explanation <- field data "explanation" ;;
  difficulty <- field data "difficulty" ;;
  key <- call_toLowerCase "data.difficulty" difficulty ;;
  Normal (JObj [("question", question); ("choices", choices);
                ("explanation", explanation);
                ("difficulty", or_else (get difficultyMap key) (JStr "1"))]).

Definition respond (data : JsValue) : Completion Response :=
  bad <- invalid data ;;
  if bad then
    Normal (failure "Invalid question structure. Must have exactly one correct choice.")
  else
    mapped <- mappedData data ;;
    Normal {| status := 200; body := mapped |}.

(** The [try] around the extraction: no match throws, as a parse error
    does. *)
Definition extract (fullResponse : string) : Completion JsValue :=
  match match_braces fullResponse with
  | None => Throw (Error "No JSON found in response")
  | Some jsonMatch => JSON_parse jsonMatch
  end.

Definition attempt (fullResponse : string) : Completion Response :=
  if includes fullResponse "<!DOCTYPE" || includes fullResponse "<html" then
    Normal (failure "API returned an error page. Please check your API key and configuration.")
  else
    match extract fullResponse with
    | Throw parseError =>
        Normal (failure "Invalid response format from the API. Please try again.")
    | Normal data => respond data
    end.

(** The [catch] of the inner [try] looks for a status code in the
    message. *)
Definition provider_error (e : Exn) : Response :=
  if includes (message e) "401" then
    failure "Invalid API key. Please check your Together.ai API key configuration."
  else if includes (message e) "429" then
    failure "API rate limit exceeded. Please try again later."
  else if includes (message e) "500" then
    failure "API service is currently unavailable. Please try again later."
  else
    failure "Failed to generate question. Please check your API key and configuration.".

Definition POST (fullResponse : string) : Response :=
  try_catch (attempt fullResponse) provider_error.

End Route.

(* ================================================================== *)
(** * The student test page *)
(* ================================================================== *)

Module StudentTest.
Import Js.

Record Choice : Type := {
  choice_id : string;
  question_id : string;
  choice : string;
  is_correct : bool
}.

(** A row of the [questions] table. *)
Record QuestionRow : Type := {
  row_id : string;
  row_content : string;
  row_explanation : string;
  row_difficulty : Z
}.

Record Question : Type := {
  id : string;
  content : string;
  explanation : string;
  difficulty : Z;
  choices : list Choice
}.

Record Answer : Type := {
  questionId : string;
  selectedAnswer : JsValue;
  isCorrect : bool
}.

Record TestResult : Type := {
  score : Z;
  total : Z;
  answers : list Answer
}.

(** The state of the component that the modelled handlers read or write. *)
Record State : Type := {
  questions : list Question;
  selectedAnswers : Obj string;
  currentQuestionIndex : Z;
  testResult : option TestResult
}.

(** The initial values of the [useState] calls. *)
Definition initial : State :=
  {| questions := []; selectedAnswers := []; currentQuestionIndex := 0;
     testResult := None |}.

Definition setQuestions (qs : list Question) (st : State) : State :=
  {| questions := qs; selectedAnswers := selectedAnswers st;
     currentQuestionIndex := currentQuestionIndex st;
     testResult := testResult st |}.

Definition setSelectedAnswers (f : Obj string -> Obj string) (st : State) : State :=
  {| questions := questions st; selectedAnswers := f (selectedAnswers st);
     currentQuestionIndex := currentQuestionIndex st;
     testResult := testResult st |}.

Definition setCurrentQuestionIndex (f : Z -> Z) (st : State) : State :=
  {| questions := questions st; selectedAnswers := selectedAnswers st;
     currentQuestionIndex := f (currentQuestionIndex st);
     testResult := testResult st |}.

Definition setTestResult (r : TestResult) (st : State) : State :=
  {| questions := questions st; selectedAnswers := selectedAnswers st;
     currentQuestionIndex := currentQuestionIndex st;
     testResult := Some r |}.

(** ** [fetchQuestions], from the rows of questions and choices on *)

(** [questionsData.map(question => ({...question, choices: formattedChoices}))] *)
Definition questionsWithChoices
  (questionsData : list QuestionRow) (choicesData : list Choice) : list Question :=
  map (fun question =>
         let questionChoices :=
           List.filter (fun c => String.eqb (question_id c) (row_id question))
                       choicesData in
         let formattedChoices :=
           map (fun c =>
                  {| choice_id := choice_id c;
                     question_id := question_id c;
                     choice := choice c;
                     is_correct := is_correct c |})
               questionChoices in
         {| id := row_id question;
            content := row_content question;
            explanation := row_explanation question;
            difficulty := row_difficulty question;
            choices := formattedChoices |})
      questionsData.

(** [q => q.choices.length > 0 && q.choices.some(c => c.is_correct)] *)
Definition valid (q : Question) : bool :=
  (0 <? Z.of_nat (List.length (choices q))) && existsb is_correct (choices q).

Definition validQuestions
  (questionsData : list QuestionRow) (choicesData : list Choice) : list Question :=
  List.filter valid (questionsWithChoices questionsData choicesData).

(** [array.sort(() => 0.5 - Math.random())].  The comparator is not
    consistent, so the order of the result is left to the engine; what
    [Array.prototype.sort] fixes is that the result holds the same elements
    as the array. *)
Definition sort_random {A} (array sorted : list A) : Prop :=
  Permutation array sorted.

(** [array.slice(0, n)] *)
Definition slice0 {A} (array : list A) (n : nat) : list A := firstn n array.

(** The effect of [fetchQuestions] on the state, once the two tables have
    been read: each of the three checks returns without touching
    [questions]; otherwise five questions of the shuffled list are set. *)
Inductive fetchQuestions
  (questionsData : list QuestionRow) (choicesData : list Choice) (st : State)
  : State -> Prop :=
| fetch_no_questions :
    questionsData = [] ->
    fetchQuestions questionsData choicesData st st
| fetch_no_choices :
    questionsData <> [] -> choicesData = [] ->
    fetchQuestions questionsData choicesData st st
| fetch_no_valid :
    questionsData <> [] -> choicesData <> [] ->
    validQuestions questionsData choicesData = [] ->
    fetchQuestions questionsData choicesData st st
| fetch_selected shuffled :
    questionsData <> [] -> choicesData <> [] ->
    validQuestions questionsData choicesData <> [] ->
    sort_random (validQuestions questionsData choicesData) shuffled ->
    fetchQuestions questionsData choicesData st
                   (setQuestions (slice0 shuffled 5) st).

(** ** Navigation and answer selection *)

(** [setSelectedAnswers(prev => ({...prev, [questionId]: answer}))] *)
Definition handleAnswerSelect (questionId answer : string) (st : State) : State :=
  setSelectedAnswers (fun prev => set prev questionId answer) st.

Definition handleNextQuestion (st : State) : State :=
  if currentQuestionIndex st <? Z.of_nat (List.length (questions st)) - 1
  then setCurrentQuestionIndex (fun prev => prev + 1) st
  else st.

Definition handlePreviousQuestion (st : State) : State :=
  if currentQuestionIndex st >? 0
  then setCurrentQuestionIndex (fun prev => prev - 1) st
  else st.

(** What the student can do while a question is displayed.  Each event is
    handled on the state that the previous one left. *)
Inductive Event : Type :=
| Next
| Previous
| Select (questionId answer : string).

Definition step (st : State) (e : Event) : State :=
  match e with
  | Next => handleNextQuestion st
  | Previous => handlePreviousQuestion st
  | Select questionId answer => handleAnswerSelect questionId answer st
  end.

Definition run (st : State) (events : list Event) : State :=
  fold_left step events st.

(** ** Scoring in [handleSubmit] *)

(** [selectedAnswers[id]]: the object starts as [{}], so a name of
    [Object.prototype] that has not been set answers with a built-in. *)
Definition selected (answers : Obj string) (id : string) : JsValue :=
  get (map (fun '(k, a) => (k, JStr a)) answers) id.

(** [question.choices.find(choice => choice.is_correct)] *)
Definition correctChoice (question : Question) : option Choice :=
  find is_correct (choices question).

(** [correctChoice?.choice] *)
Definition correctText (question : Question) : JsValue :=
  match correctChoice question with
  | Some c => JStr (choice c)
  | None => JUndefined
  end.

(** A row of [assessment_results]; the generated identifiers and the
    student are left out. *)
Record AssessmentResult : Type := {
  result_question_id : string;
  result_is_correct : bool;
  difficulty_level : Z
}.

Definition assessmentResults (st : State) : list AssessmentResult :=
  map (fun question =>
         let selectedAnswer := selected (selectedAnswers st) (id question) in
         let isCorrect := strict_eq selectedAnswer (correctText question) in
         {| result_question_id := id question;
            result_is_correct := isCorrect;
            difficulty_level := difficulty question |})
      (questions st).

Definition computeResult (st : State) : TestResult :=
  {| score := Z.of_nat (List.length (List.filter result_is_correct (assessmentResults st)));
     total := Z.of_nat (List.length (questions st));
     answers :=
       map (fun question =>
              let selectedAnswer := selected (selectedAnswers st) (id question) in
              let isCorrect := strict_eq selectedAnswer (correctText question) in
              {| questionId := id question;
                 selectedAnswer := or_else selectedAnswer (JStr "");
                 isCorrect := isCorrect |})
           (questions st) |}.

(** [handleSubmit].  [remote] says whether the user look-up and the two
    inserts succeeded; when one fails the handler alerts and leaves the
    state as it is. *)
Definition handleSubmit (remote : bool) (st : State) : State :=
  match questions st with
  | [] => st
  | _ => if remote then setTestResult (computeResult st) st else st
  end.

End StudentTest.

(* ================================================================== *)
(** * The endpoints from the request on *)
(* ================================================================== *)

Module Api.
Import Js Json.
Local Open Scope js_scope.

(** A chunk of the stream, as the provider's types have it:
    [choices[0]?.delta?.content] is a string, [null] or missing. *)
Record Delta : Type := { content : option string }.
Record ChunkChoice : Type := { delta : option Delta }.
Record Chunk : Type := { choices : list ChunkChoice }.

(** What the call to the provider comes to: the chunks that arrive, and the
    exception, if any, that the call or the iteration ends with. *)
Record Outcome : Type := { chunks : list Chunk; thrown : option Exn }.

(** [chunk.choices[0]?.delta?.content || ''] *)
Definition content_of (chunk : Chunk) : string :=
  match choices chunk with
  | [] => ""
  | c :: _ =>
      match delta c with
      | None => ""
      | Some d =>
          match content d with
          | None => ""
          | Some text => text
          end
      end
  end.

(** [let fullResponse = ''; for await (chunk of stream) fullResponse += content] *)
Definition accumulate (stream : list Chunk) : string :=
  fold_left (fun fullResponse chunk => fullResponse ++ content_of chunk) stream "".

(** [!process.env.TOGETHER_API_KEY]: the variable is unset or empty. *)
Definition unset (key : option string) : bool :=
  match key with
  | None => true
  | Some k => String.eqb k ""
  end.

(** [const { course, chapter, learningObjective } = body] and then
    [!course || !chapter || !learningObjective]; reading the three fields
    throws when the body is [null] or [undefined]. *)
Definition missing_fields (body : JsValue) : Completion bool :=
  course <- field body "course" ;;
  chapter <- field body "chapter" ;;
  learningObjective <- field body "learningObjective" ;;
  Normal (negb (truthy course) || negb (truthy chapter)
          || negb (truthy learningObjective)).

Record Request : Type := { method : string; req_body : JsValue }.

Section Api.
Variable JSON_stringify : JsValue -> string.

(** [handler(req, res)] of [pages/api/auto-generate-question.ts].  The
    prompt is built from the three fields and sent; [outcome] is what comes
    back. *)
Definition handler (TOGETHER_API_KEY : option string) (req : Request)
  (outcome : Outcome) : Response :=
  if negb (String.eqb (method req) "POST") then
    {| status := 405; body := error "Method not allowed" |}
  else
    try_catch
      (missing <- missing_fields (req_body req) ;;
       if unset TOGETHER_API_KEY then
         Normal (failure "API key is not configured")
       else if missing then
         Normal {| status := 400; body := error "Missing required fields" |}
       else
         Normal
           match thrown outcome with
           | Some _ =>
               failure "Failed to generate question. Please check your API key and configuration."
           | None => Handler.handler JSON_stringify (accumulate (chunks outcome))
           end)
      (fun _ => failure "An unexpected error occurred").

End Api.

(** [POST(req)] of the route; [text] is the body that [req.json()] parses. *)
Definition POST (TOGETHER_API_KEY : option string) (text : string)
  (outcome : Outcome) : Response :=
  try_catch
    (body <- JSON_parse text ;;
     missing <- missing_fields body ;;
     if unset TOGETHER_API_KEY then
       Normal (failure "API key is not configured. Please check your environment variables.")
     else if missing then
       Normal {| status := 400;
                 body := error "Missing required fields: course, chapter, or learning objective" |}
     else
       Normal
         match thrown outcome with
         | Some e => Route.provider_error e
         | None => Route.POST (accumulate (chunks outcome))
         end)
    (fun _ => failure "An unexpected error occurred. Please try again.").

End Api.

(* ================================================================== *)
(** * The student test page: what is shown *)
(* ================================================================== *)

Module TestPage.
Import Js StudentTest.

(** [questions[currentQuestionIndex]]: [undefined] outside the array. *)
Definition currentQuestion (st : State) : option Question :=
  if currentQuestionIndex st <? 0 then None
  else nth_error (questions st) (Z.to_nat (currentQuestionIndex st)).

(** [disabled={currentQuestionIndex === 0}] of the Previous button. *)
Definition previousDisabled (st : State) : bool := currentQuestionIndex st =? 0.

(** [currentQuestionIndex === questions.length - 1]: the Submit button is
    shown in place of the Next button. *)
Definition submitOffered (st : State) : bool :=
  currentQuestionIndex st =? Z.of_nat (List.length (questions st)) - 1.

(** What the component returns once loading is over. *)
Inductive View : Type :=
| NoQuestions
| Results (result : TestResult)
| Asking (question : option Question) (previous submit : bool).

Definition render (st : State) : View :=
  match questions st with
  | [] => NoQuestions
  | _ =>
      match testResult st with
      | Some result => Results result
      | None => Asking (currentQuestion st) (negb (previousDisabled st)) (submitOffered st)
      end
  end.

End TestPage.

(* ================================================================== *)
(** * The student test page: the remote calls of [handleSubmit] *)
(* ================================================================== *)

Module Submission.
Import Js StudentTest.

(** What a call to the backend resolves to: [{ data, error }]. *)
Inductive Reply (A : Type) : Type :=
| Failed (message : string)
| Answered (data : option A).
Arguments Failed {A} message.
Arguments Answered {A} data.

Record User : Type := { email : string }.
Record UserData : Type := { user_id : string }.

Record Assessment : Type := {
  assessment_id : string;
  student_id : string;
  course_id : string;
  created_at : string
}.

Record ResultRow : Type := {
  row_id : string;
  row_question_id : string;
  row_is_correct : bool;
  row_student_id : string;
  row_difficulty_level : Z;
  row_assessment_id : string
}.

(** The calls that [handleSubmit] makes, in the order it makes them. *)
Inductive Call : Type :=
| GetUser
| SelectUser (email : string)
| InsertAssessment (row : Assessment)
| InsertResults (rows : list ResultRow).

Record Remote : Type := {
  getUser : Reply User;
  selectUser : string -> Reply UserData;
  insertAssessment : Assessment -> Reply Assessment;
  insertResults : list ResultRow -> option string
}.

Record Outcome : Type := {
  state : State;
  calls : list Call;
  alert : option string
}.

(** The rows of [assessment_results]: [uuid k] is the identifier that the
    [k]-th call of [uuidv4] returns, the first call having made the
    identifier of the assessment. *)
Fixpoint resultRows (uuid : nat -> string) (k : nat) (student assessment : string)
  (results : list AssessmentResult) : list ResultRow :=
  match results with
  | [] => []
  | r :: rest =>
      {| row_id := uuid k;
         row_question_id := result_question_id r;
         row_is_correct := result_is_correct r;
         row_student_id := student;
         row_difficulty_level := difficulty_level r;
         row_assessment_id := assessment |}
      :: resultRows uuid (S k) student assessment rest
  end.

(** [handleSubmit]: [courseId] comes from the route, [now] is
    [new Date().toISOString()].  A [throw] ends in the [catch], which
    alerts with the message. *)
Definition handleSubmit (remote : Remote) (courseId : string)
  (uuid : nat -> string) (now : string) (st : State) : Outcome :=
  match questions st with
  | [] => {| state := st; calls := []; alert := None |}
  | _ =>
      match getUser remote with
      | Failed _ =>
          {| state := st; calls := [GetUser];
             alert := Some "Error submitting test: Failed to get user information" |}
      | Answered None =>
          {| state := st; calls := [GetUser];
             alert := Some "Error submitting test: User not authenticated" |}
      | Answered (Some user) =>
          match selectUser remote (email user) with
          | Failed _ =>
              {| state := st; calls := [GetUser; SelectUser (email user)];
                 alert := Some "Error submitting test: Failed to get user data" |}
          | Answered None =>
              {| state := st; calls := [GetUser; SelectUser (email user)];
                 alert := Some "Error submitting test: User not found in database" |}
          | Answered (Some userData) =>
              let assessmentData :=
                {| assessment_id := uuid O;
                   student_id := user_id userData;
                   course_id := courseId;
                   created_at := now |} in
              match insertAssessment remote assessmentData with
              | Failed message =>
                  {| state := st;
                     calls := [GetUser; SelectUser (email user);
                               InsertAssessment assessmentData];
                     alert := Some ("Error submitting test: Failed to create assessment: "
                                    ++ message) |}
              | Answered None =>
                  {| state := st;
                     calls := [GetUser; SelectUser (email user);
                               InsertAssessment assessmentData];
                     alert := Some "Error submitting test: Failed to create assessment: No data returned" |}
              | Answered (Some newAssessment) =>
                  let rows :=
                    resultRows uuid 1 (user_id userData) (assessment_id newAssessment)
                               (assessmentResults st) in
                  match insertResults remote rows with
                  | Some message =>
                      {| state := st;
                         calls := [GetUser; SelectUser (email user);
                                   InsertAssessment assessmentData; InsertResults rows];
                         alert := Some ("Error submitting test: Failed to save assessment results: "
                                        ++ message) |}
                  | None =>
                      {| state := setTestResult (computeResult st) st;
                         calls := [GetUser; SelectUser (email user);
                                   InsertAssessment assessmentData; InsertResults rows];
                         alert := None |}
                  end
              end
          end
      end
  end.

End Submission.

(* ================================================================== *)
(** * The student test page: reading the questions of a course *)
(* ================================================================== *)

Module Fetch.
Import Js StudentTest.
Import Submission (Reply, Failed, Answered).

(** [router.query.courseId]: a string, an array of strings or nothing. *)
Inductive Param : Type :=
| Missing
| One (value : string)
| Several (values : list string).

(** The columns that [fetchQuestions] reads of the rows it is sent. *)
Record Course : Type := { course_id : string }.
Record Chapter : Type := { chapter_id : string; chapter_course_id : string }.
Record LearningObjective : Type := { lo_id : string; lo_chapter_id : string }.

(** A row of [question_lo] as [select('question_id')] returns it. *)
Record QuestionLo : Type := { qlo_question_id : string }.

(** The six reads, each answered with [{ data, error }]. *)
Record Remote : Type := {
  selectCourse : string -> Reply Course;
  selectChapters : string -> Reply (list Chapter);
  selectLearningObjectives : list string -> Reply (list LearningObjective);
  selectQuestionLos : list string -> Reply (list QuestionLo);
  selectQuestions : list string -> Reply (list QuestionRow);
  selectChoices : list string -> Reply (list Choice)
}.

(** [if (error) return; if (!data || data.length === 0) return]: the rows
    with which the function goes on. *)
Definition rows_of {A} (reply : Reply (list A)) : option (list A) :=
  match reply with
  | Failed _ => None
  | Answered None => None
  | Answered (Some []) => None
  | Answered (Some data) => Some data
  end.

(** The reads of [fetchQuestions], down to the rows of the questions and of
    their choices; [None] when one of the checks returns. *)
Definition gather (remote : Remote) (courseId : string)
  : option (list QuestionRow * list Choice) :=
  match selectCourse remote courseId with
  | Failed _ => None
  | Answered None => None
  | Answered (Some courseData) =>
      match rows_of (selectChapters remote courseId) with
      | None => None
      | Some chaptersData =>
          let chapterIds := map chapter_id chaptersData in
          match rows_of (selectLearningObjectives remote chapterIds) with
          | None => None
          | Some losData =>
              let loIds := map lo_id losData in
              match rows_of (selectQuestionLos remote loIds) with
              | None => None
              | Some questionLosData =>
                  let questionIds := map qlo_question_id questionLosData in
                  match rows_of (selectQuestions remote questionIds) with
                  | None => None
                  | Some questionsData =>
                      match rows_of (selectChoices remote questionIds) with
                      | None => None
                      | Some choicesData => Some (questionsData, choicesData)
                      end
                  end
              end
          end
      end
  end.

(** [fetchQuestions]: it returns at once unless [courseId] is a string that
    is not empty, and goes on to assemble the test when the six reads have
    given rows. *)
Inductive fetchQuestions (remote : Remote) (courseId : Param) (st : State)
  : State -> Prop :=
| fetch_no_course :
    (forall id, courseId = One id -> id = "") ->
    fetchQuestions remote courseId st st
| fetch_no_rows id :
    courseId = One id -> id <> "" ->
    gather remote id = None ->
    fetchQuestions remote courseId st st
| fetch_rows id questionsData choicesData st' :
    courseId = One id -> id <> "" ->
    gather remote id = Some (questionsData, choicesData) ->
    StudentTest.fetchQuestions questionsData choicesData st st' ->
    fetchQuestions remote courseId st st'.

(** The tables of the backend, with the columns that link a question to a
    course. *)
Record Link : Type := { link_question_id : string; link_lo_id : string }.

Record Database : Type := {
  courses : list Course;
  chapters : list Chapter;
  learning_objectives : list LearningObjective;
  question_lo : list Link;
  questions_table : list QuestionRow;
  choices_table : list Choice
}.

(** The backend answers a read with rows of the table that satisfy the
    condition of the read ([eq] or [in]). *)
Definition sound (db : Database) (remote : Remote) : Prop :=
  (forall course data,
      selectChapters remote course = Answered (Some data) ->
      forall row, In row data ->
                  In row (chapters db) /\ chapter_course_id row = course)
  /\ (forall ids data,
         selectLearningObjectives remote ids = Answered (Some data) ->
         forall row, In row data ->
                     In row (learning_objectives db) /\ In (lo_chapter_id row) ids)
  /\ (forall ids data,
         selectQuestionLos remote ids = Answered (Some data) ->
         forall row, In row data ->
                     exists link, In link (question_lo db)
                                  /\ link_question_id link = qlo_question_id row
                                  /\ In (link_lo_id link) ids)
  /\ (forall ids data,
         selectQuestions remote ids = Answered (Some data) ->
         forall row, In row data -> In (row_id row) ids).

End Fetch.

(* ================================================================== *)
(** * A record on its way from the endpoint to the page *)
(* ================================================================== *)

Module Wire.
Import Js.

(** The values that a JSON text stands for: no [undefined] and no built-in
    of [Object.prototype], at any depth. *)
Fixpoint json_value (v : JsValue) : bool :=
  match v with
  | JUndefined | JInherited _ => false
  | JArr items => forallb json_value items
  | JObj props => forallb (fun entry => match entry with (_, x) => json_value x end) props
  | _ => true
  end.

(** [JSON.parse(JSON.stringify(v))], which is what [res.json()] gives the
    page for the [v] that the endpoint hands to [json()]; [None] where
    [JSON.stringify] gives [undefined].  A property whose value is
    [undefined] or a function is left out, and such an element of an array
    is written [null]; [NaN] and the infinities are written [null], and -0
    is written [0]; every other number is written with digits that read
    back as the same number, and a string reads back as it was.  Of the
    built-ins of [Object.prototype], [__proto__] is the prototype itself, an
    object without enumerable properties, and the others are functions. *)
Fixpoint transmit (v : JsValue) : option JsValue :=
  match v with
  | JUndefined => None
  | JNull => Some JNull
  | JBool b => Some (JBool b)
  | JNum S754_nan => Some JNull
  | JNum (S754_infinity _) => Some JNull
  | JNum (S754_zero _) => Some (JNum (S754_zero false))
  | JNum n => Some (JNum n)
  | JStr s => Some (JStr s)
  | JArr items =>
      Some (JArr (map (fun x => match transmit x with
                                | Some w => w
                                | None => JNull
                                end) items))
  | JObj props =>
      Some (JObj (flat_map (fun entry =>
                              match entry with
                              | (k, x) => match transmit x with
                                          | Some w => [(k, w)]
                                          | None => []
                                          end
                              end) props))
  | JInherited k => if String.eqb k "__proto__" then Some (JObj []) else None
  end.

(** The properties of an object that arrive. *)
Definition sent_properties (props : Obj JsValue) : Obj JsValue :=
  flat_map (fun entry =>
              match entry with
              | (k, x) => match transmit x with
                          | Some w => [(k, w)]
                          | None => []
                          end
              end) props.

(** What a property with the value [v] reads as on the other side. *)
Definition arrives (v : JsValue) : JsValue :=
  match transmit v with
  | Some w => w
  | None => JUndefined
  end.

End Wire.

(* ================================================================== *)
(** * The lecturer's question page *)
(* ================================================================== *)

Module QuestionManager.
Import Js Json.
Local Open Scope js_scope.

(** [String.fromCharCode(n)]: the code unit [n] modulo 2^16. *)
Definition fromCharCode (n : Z) : string := encode_unit (n mod 65536).

(** The code units that [trim] removes: WhiteSpace and LineTerminator. *)
Definition white_space : list Z :=
  [ 9; 10; 11; 12; 13; 32; 160; 5760;
    8192; 8193; 8194; 8195; 8196; 8197; 8198; 8199; 8200; 8201; 8202;
    8232; 8233; 8239; 8287; 12288; 65279 ].

Fixpoint drop (n : nat) (s : string) : string :=
  match n, s with
  | S n', String _ s' => drop n' s'
  | _, _ => s
  end.

(** The rest of [s] after the white-space code unit it starts with. *)
Definition after_white_space (s : string) : option string :=
  match find (fun u => starts_with (encode_unit u) s) white_space with
  | Some u => Some (drop (String.length (encode_unit u)) s)
  | None => None
  end.

Fixpoint trimStart_within (fuel : nat) (s : string) : string :=
  match fuel with
  | O => s
  | S fuel' =>
      match after_white_space s with
      | Some rest => trimStart_within fuel' rest
      | None => s
      end
  end.

(** [s.trimStart()] *)
Definition trimStart (s : string) : string := trimStart_within (String.length s) s.

(** [!s.trim()]: trimming leaves the empty string exactly when trimming
    the start does. *)
Definition trims_to_nothing (s : string) : bool := String.eqb (trimStart s) "".

(** The form of the page.  Its texts are typed as strings, but
    [generateQuestion] stores what the server sent as it is, so they are
    kept as values; [options] is an array on every form that the page can
    render. *)
Record Form : Type := {
  content : JsValue;
  options : list JsValue;
  answer : string;
  explanation : JsValue;
  difficulty : Z;
  selectedLos : list string
}.

(** The initial value of [useState], to which [handleSubmit] resets. *)
Definition emptyForm : Form :=
  {| content := JStr ""; options := [JStr ""; JStr ""; JStr ""; JStr ""];
     answer := ""; explanation := JStr ""; difficulty := 1; selectedLos := [] |}.

(** ** Editing the options *)

(** [setForm({ ...form, options })] *)
Definition setOptions (new : list JsValue) (form : Form) : Form :=
  {| content := content form; options := new; answer := answer form;
     explanation := explanation form; difficulty := difficulty form;
     selectedLos := selectedLos form |}.

(** [setForm({ ...form, answer })] *)
Definition setAnswer (new : string) (form : Form) : Form :=
  {| content := content form; options := options form; answer := new;
     explanation := explanation form; difficulty := difficulty form;
     selectedLos := selectedLos form |}.

(** [array.filter((_, i) => keep(i))], counting from [i]. *)
Fixpoint filter_index {A} (keep : Z -> bool) (i : Z) (array : list A) : list A :=
  match array with
  | [] => []
  | x :: rest =>
      if keep i then x :: filter_index keep (i + 1) rest
      else filter_index keep (i + 1) rest
  end.

(** [array.map((x, i) => f(x, i))], counting from [i]. *)
Fixpoint map_index {A B} (f : A -> Z -> B) (i : Z) (array : list A) : list B :=
  match array with
  | [] => []
  | x :: rest => f x i :: map_index f (i + 1) rest
  end.

Definition handleAddChoice (form : Form) : Form :=
  setOptions (options form ++ [JStr ""]) form.

Definition handleRemoveChoice (index : Z) (form : Form) : Form :=
  setOptions (filter_index (fun i => negb (i =? index)) 0 (options form)) form.

(** [value] is the text of the input, so [value.toString()] is [value]. *)
Definition handleChoiceChange (index : Z) (value : string) (form : Form) : Form :=
  setOptions (map_index (fun option i => if i =? index then JStr value else option)
                        0 (options form))
             form.

(** The radio button beside the option at [index]:
    [setForm({ ...form, answer: String.fromCharCode(65 + index) })]. *)
Definition markCorrect (index : Z) (form : Form) : Form :=
  setAnswer (fromCharCode (65 + index)) form.

(** ** What an [alert] shows *)

(** An alert shows a text that the code fixes, or a text made with the
    message of an error that the engine has raised, which is the engine's
    own. *)
Inductive Shown : Type :=
| Text (text : string)
| EngineText (e : Exn).

(** ** [generateQuestion], from the response on *)

(** [array.findIndex(p)], counting from [i]. *)
Fixpoint findIndex_from (p : JsValue -> bool) (i : Z) (array : list JsValue) : Z :=
  match array with
  | [] => -1
  | x :: rest => if p x then i else findIndex_from p (i + 1) rest
  end.

Definition findIndex (p : JsValue -> bool) (array : list JsValue) : Z :=
  findIndex_from p 0 array.

(** [res.ok] *)
Definition ok (response : Response) : bool :=
  (200 <=? status response) && (status response <=? 299).

(** [await res.json()]: the parse of the text that the endpoint has made of
    the body it answered with; a response without a body does not parse. *)
Definition res_json (response : Response) : Completion JsValue :=
  match Wire.transmit (body response) with
  | Some data => Normal data
  | None => Throw SyntaxError
  end.

Section Client.

(** The conversion to a string of a value that is not one. *)
Variable ToString : JsValue -> string.

(** [new Error(v)] *)
Definition new_Error (v : JsValue) : Exn :=
  Error match v with
        | JStr s => s
        | _ => ToString v
        end.

Definition invalid_format : Exn := Error "Invalid response format from the server".

(** The [try] block after [const data = await res.json()]: [ok] is
    [res.ok] and [data] is what [res.json()] has given. *)
Definition received (ok : bool) (data : JsValue) (form : Form) : Completion Form :=
  if negb ok then
    error <- field data "error" ;;
    Throw (new_Error (or_else error (JStr "Failed to generate question")))
  else
    question <- field data "question" ;;
    if negb (truthy question) then Throw invalid_format else
    options <- field data "options" ;;
    if negb (truthy options) then Throw invalid_format else
    answer <- field data "answer" ;;
    if negb (truthy answer) then Throw invalid_format else
      parsed <- match options with
                | JStr text => JSON_parse text
                | _ => Normal options
                end ;;
      match parsed with
      | JArr items =>
          let answerIndex := findIndex (fun option => strict_eq option answer) items in
          let letterAnswer :=
            if answerIndex =? -1 then "" else fromCharCode (65 + answerIndex) in
          explanation <- field data "explanation" ;;
          Normal {| content := question;
                    options := items;
                    answer := letterAnswer;
                    explanation := or_else explanation (JStr "");
                    difficulty := difficulty form;
                    selectedLos := selectedLos form |}
      | JNull =>
          Throw (TypeError "Cannot read properties of null (reading 'findIndex')")
      | _ => Throw (TypeError "options.findIndex is not a function")
      end.

(** The [catch] of [generateQuestion]. *)
Definition generation_alert (e : Exn) : Shown :=
  match e with
  | Error message =>
      if includes message "Ollama service" then
        Text "The question generation service is not running. Please contact your administrator."
      else Text message
  | _ => EngineText e
  end.

(** [generateQuestion] from the response on: the form and what is
    alerted. *)
Definition generateQuestion (response : Response) (form : Form)
  : Form * option Shown :=
  match (data <- res_json response ;; received (ok response) data form) with
  | Normal filled => (filled, None)
  | Throw e => (form, Some (generation_alert e))
  end.

End Client.

(** ** [handleSubmit] *)

(** The row of [questions] that is saved. *)
Record QuestionData : Type := {
  data_id : string;
  data_content : JsValue;
  data_explanation : JsValue;
  data_difficulty : Z;
  created_by : string
}.

(** A row of [question_lo]. *)
Record Mapping : Type := {
  mapping_id : string;
  mapping_question_id : string;
  lo_id : string
}.

(** The calls that [handleSubmit] makes. *)
Inductive Call : Type :=
| SaveQuestion (update : bool) (row : QuestionData)
| DeleteChoices (questionId : string)
| InsertChoice (row : StudentTest.Choice)
| DeleteMappings (questionId : string)
| InsertMapping (row : Mapping)
| SelectQuestions (createdBy : string).

(** What the backend answers: the [error] of each write, and the rows of
    the final read.  [Q] is the type of a row of [questions] as read. *)
Record Remote (Q : Type) : Type := {
  saveQuestion : bool -> QuestionData -> option string;
  deleteChoices : string -> option string;
  insertChoice : StudentTest.Choice -> option string;
  deleteMappings : string -> option string;
  insertMapping : Mapping -> option string;
  selectQuestions : string -> Submission.Reply (list Q)
}.
Arguments saveQuestion {Q} _ _ _.
Arguments deleteChoices {Q} _ _.
Arguments insertChoice {Q} _ _.
Arguments deleteMappings {Q} _ _.
Arguments insertMapping {Q} _ _.
Arguments selectQuestions {Q} _ _.

(** The calls made so far, and how the block went on. *)
Definition Run (A : Type) : Type := (list Call * Completion A)%type.

Definition done {A} (a : A) : Run A := ([], Normal a).

Definition and_then {A B} (r : Run A) (k : A -> Run B) : Run B :=
  match snd r with
  | Normal a => ((fst r ++ fst (k a))%list, snd (k a))
  | Throw e => (fst r, Throw e)
  end.

(** A write: [if (error) throw new Error(`${what}${error.message}`)]. *)
Definition request (call : Call) (error : option string) (what : string) : Run unit :=
  ([call], match error with
           | Some message => Throw (Error (what ++ message))
           | None => Normal tt
           end).

(** [k] applied when the question is being edited. *)
Definition when (editing : bool) (r : Run unit) : Run unit :=
  if editing then r else done tt.

(** [for (let i = 0; i < form.options.length; i++)], from [i] on; [k] counts
    the calls of [uuidv4].  The result is the count after the loop. *)
Fixpoint createChoices {Q} (remote : Remote Q) (uuid : nat -> string)
  (questionId answer : string) (i : Z) (k : nat) (options : list JsValue) : Run nat :=
  match options with
  | [] => done k
  | option :: rest =>
      match option with
      | JStr text =>
          if trims_to_nothing text then
            ([], Throw (Error ("Option " ++ fromCharCode (65 + i) ++ " cannot be empty")))
          else
            let isCorrect := String.eqb (fromCharCode (65 + i)) answer in
            let row := {| StudentTest.choice_id := uuid k;
                          StudentTest.question_id := questionId;
                          StudentTest.choice := text;
                          StudentTest.is_correct := isCorrect |} in
            and_then (request (InsertChoice row) (insertChoice remote row)
                              ("Failed to create choice " ++ fromCharCode (65 + i) ++ ": "))
                     (fun _ => createChoices remote uuid questionId answer (i + 1) (S k) rest)
      | JUndefined =>
          ([], Throw (TypeError "Cannot read properties of undefined (reading 'trim')"))
      | JNull =>
          ([], Throw (TypeError "Cannot read properties of null (reading 'trim')"))
      | _ => ([], Throw (TypeError "option.trim is not a function"))
      end
  end.

(** [for (const loId of form.selectedLos)] *)
Fixpoint createMappings {Q} (remote : Remote Q) (uuid : nat -> string)
  (questionId : string) (k : nat) (los : list string) : Run unit :=
  match los with
  | [] => done tt
  | loId :: rest =>
      let row := {| mapping_id := uuid k; mapping_question_id := questionId;
                    lo_id := loId |} in
      and_then (request (InsertMapping row) (insertMapping remote row)
                        "Failed to create mapping for learning objective: ")
               (fun _ => createMappings remote uuid questionId (S k) rest)
  end.

(** The state of the page that [handleSubmit] reads or writes. *)
Record Page (Q : Type) : Type := {
  form : Form;
  editingQuestionId : option string;
  isPopupOpen : bool;
  questions : list Q
}.
Arguments form {Q} _.
Arguments editingQuestionId {Q} _.
Arguments isPopupOpen {Q} _.
Arguments questions {Q} _.

Record Outcome (Q : Type) : Type := {
  page : Page Q;
  calls : list Call;
  alert : Shown
}.
Arguments page {Q} _.
Arguments calls {Q} _.
Arguments alert {Q} _.

(** The truthiness of a [string | null]. *)
Definition given (s : option string) : bool :=
  match s with
  | Some text => negb (String.eqb text "")
  | None => false
  end.

Definition text_of (s : option string) : string :=
  match s with
  | Some text => text
  | None => ""
  end.

(** The writes of the [try] block, down to the last mapping. *)
Definition save {Q} (remote : Remote Q) (currentUserId : string)
  (uuid : nat -> string) (p : Page Q) : Run unit :=
  let editing := given (editingQuestionId p) in
  let questionId := if editing then text_of (editingQuestionId p) else uuid O in
  let k := if editing then O else 1%nat in
  let row := {| data_id := questionId;
                data_content := content (form p);
                data_explanation := explanation (form p);
                data_difficulty := difficulty (form p);
                created_by := currentUserId |} in
  and_then (request (SaveQuestion editing row) (saveQuestion remote editing row)
                    "Failed to save question: ") (fun _ =>
  and_then (when editing
              (request (DeleteChoices questionId) (deleteChoices remote questionId)
                       "Failed to delete existing choices: ")) (fun _ =>
  and_then (createChoices remote uuid questionId (answer (form p)) 0 k
                          (options (form p))) (fun k' =>
  and_then (when editing
              (request (DeleteMappings questionId) (deleteMappings remote questionId)
                       "Failed to delete existing mappings: ")) (fun _ =>
  createMappings remote uuid questionId k' (selectedLos (form p)))))).

(** The [catch] of [handleSubmit]. *)
Definition saving_alert (e : Exn) : Shown :=
  match e with
  | Error message => Text ("An error occurred while saving the question: " ++ message)
  | _ => EngineText e
  end.

Definition handleSubmit {Q} (remote : Remote Q) (currentUserId : option string)
  (uuid : nat -> string) (p : Page Q) : Outcome Q :=
  if negb (truthy (content (form p))) then
    {| page := p; calls := []; alert := Text "Please enter the question content" |}
  else if negb (given currentUserId) then
    {| page := p; calls := []; alert := Text "User not authenticated" |}
  else if (List.length (selectedLos (form p)) =? 0)%nat then
    {| page := p; calls := [];
       alert := Text "Please select at least one learning objective" |}
  else if String.eqb (answer (form p)) "" then
    {| page := p; calls := []; alert := Text "Please select the correct answer" |}
  else
    match save remote (text_of currentUserId) uuid p with
    | (made, Throw e) => {| page := p; calls := made; alert := saving_alert e |}
    | (made, Normal _) =>
        {| page :=
             {| form := emptyForm;
                editingQuestionId := None;
                isPopupOpen := false;
                questions :=
                  match selectQuestions remote (text_of currentUserId) with
                  | Submission.Answered (Some updatedQuestions) => updatedQuestions
                  | _ => questions p
                  end |};
           calls := (made ++ [SelectQuestions (text_of currentUserId)])%list;
           alert := Text ("Question "
                          ++ (if given (editingQuestionId p) then "updated" else "added")
                          ++ " successfully!") |}
    end.

(** The rows of [choices] among the calls. *)
Definition insertedChoices (made : list Call) : list StudentTest.Choice :=
  flat_map (fun call => match call with
                        | InsertChoice row => [row]
                        | _ => []
                        end) made.

End QuestionManager.

(* ================================================================== *)
(** * Sample provider responses *)
(* ================================================================== *)

Module Samples.

(** An error page that happens to carry a complete question. *)
Definition page_with_question : string :=
  json "<html><body>{'question':'Q','options':['a','b'],'answer':'a','difficulty':'easy'}</body></html>".

(** The same question without the page around it. *)
Definition plain_question : string :=
  json "{'question':'Q','options':['a','b'],'answer':'a','difficulty':'easy'}".

(** A refusal in prose, without any brace. *)
Definition refusal : string := "I am sorry, I cannot create a question.".

(** An error page without any brace. *)
Definition error_page : string := "<html>Service unavailable</html>".

(** The answer that the prompt of [POST] asks for: the choices are nested
    objects. *)
Definition nested_question : string :=
  json "{'question':'Q','choices':[{'choice':'A','is_correct':true},{'choice':'B','is_correct':false}],'explanation':'E','difficulty':'easy'}".

(** What [JSON.parse] makes of [nested_question]. *)
Definition nested_data : Js.Obj Js.JsValue :=
  [ ("question", Js.JStr "Q");
    ("choices",
     Js.JArr [ Js.JObj [("choice", Js.JStr "A"); ("is_correct", Js.JBool true)];
               Js.JObj [("choice", Js.JStr "B"); ("is_correct", Js.JBool false)] ]);
    ("explanation", Js.JStr "E");
    ("difficulty", Js.JStr "easy") ].

(** A question in the format of [handler] that says nothing about the
    difficulty. *)
Definition no_difficulty : string :=
  json "{'question':'Q','options':['a','b'],'answer':'a'}".

(** A parsed question in the format of [POST] without a difficulty. *)
Definition choices_no_difficulty : Js.JsValue :=
  Js.JObj [ ("question", Js.JStr "Q");
            ("choices",
             Js.JArr [ Js.JObj [("choice", Js.JStr "A"); ("is_correct", Js.JBool true)];
                       Js.JObj [("choice", Js.JStr "B"); ("is_correct", Js.JBool false)] ]) ].

(** A question whose difficulty label is the name of a property that every
    object inherits. *)
Definition inherited_label : string :=
  json "{'question':'Q','options':['a','b'],'answer':'a','difficulty':'Constructor'}".

(** A question whose text is a number and whose answer is a number. *)
Definition numeric_question : string :=
  json "{'question':5,'options':[1,2],'answer':2,'difficulty':'easy'}".

(** A parsed question in the format of [POST] whose correctness flags are
    the numbers 1 and 0. *)
Definition numeric_flags : Js.Obj Js.JsValue :=
  [ ("question", Js.JStr "Q");
    ("choices",
     Js.JArr [ Js.JObj [("choice", Js.JStr "A");
                        ("is_correct", Js.JNum (S754_finite false 4503599627370496 (-52)))];
               Js.JObj [("choice", Js.JStr "B"); ("is_correct", Js.JNum (S754_zero false))] ]);
    ("difficulty", Js.JStr "easy") ].

(** A parsed question that carries both formats, with its label in
    capitals. *)
Definition both_formats : Js.Obj Js.JsValue :=
  [ ("question", Js.JStr "Q");
    ("options", Js.JArr [Js.JStr "A"; Js.JStr "B"]);
    ("answer", Js.JStr "A");
    ("choices",
     Js.JArr [ Js.JObj [("choice", Js.JStr "A"); ("is_correct", Js.JBool true)];
               Js.JObj [("choice", Js.JStr "B"); ("is_correct", Js.JBool false)] ]);
    ("difficulty", Js.JStr "MEDIUM") ].

(** [JSON.stringify] on the arrays of texts that need no escape. *)
Definition quoted (v : Js.JsValue) : string :=
  match v with
  | Js.JStr s => String Json.quote (s ++ String Json.quote "")
  | _ => "null"
  end.

Definition stringify_texts (v : Js.JsValue) : string :=
  match v with
  | Js.JArr items => "[" ++ String.concat "," (map quoted items) ++ "]"
  | _ => "null"
  end.

(** The conversion to a string of the values that no sample converts. *)
Definition no_conversion (v : Js.JsValue) : string := "".

(** What [JSON.parse] makes of [plain_question]. *)
Definition plain_data : Js.Obj Js.JsValue :=
  [ ("question", Js.JStr "Q");
    ("options", Js.JArr [Js.JStr "a"; Js.JStr "b"]);
    ("answer", Js.JStr "a");
    ("difficulty", Js.JStr "easy") ].

(** A question whose text is a number too large for a double, and what
    [JSON.parse] makes of it. *)
Definition infinite_question : string :=
  json "{'question':1e400,'options':['a','b'],'answer':'a','difficulty':'easy'}".

Definition infinite_data : Js.Obj Js.JsValue :=
  [ ("question", Js.JNum (S754_infinity false));
    ("options", Js.JArr [Js.JStr "a"; Js.JStr "b"]);
    ("answer", Js.JStr "a");
    ("difficulty", Js.JStr "easy") ].

(** An HTML page whose doctype is written in small letters and whose html
    tag is written in capitals, with a complete question in its body. *)
Definition lowercase_page : string :=
  json "<!doctype html><HTML><body>{'question':'Q','options':['a','b'],'answer':'a','difficulty':'easy'}</body></HTML>".

(** An error page that leaves the html tag out, as HTML allows. *)
Definition bad_gateway : string :=
  "<!doctype html><title>502 Bad Gateway</title><h1>502 Bad Gateway</h1>".

(** A request with the three fields, and one without the objective. *)
Definition complete_body : Js.JsValue :=
  Js.JObj [ ("course", Js.JStr "Data Structures"); ("chapter", Js.JStr "Queues");
            ("learningObjective", Js.JStr "Explain FIFO") ].

Definition incomplete_body : Js.JsValue :=
  Js.JObj [ ("course", Js.JStr "Data Structures"); ("chapter", Js.JStr "Queues") ].

(** A stream that delivers [text] in one chunk. *)
Definition one_chunk (text : string) : Api.Chunk :=
  {| Api.choices := [ {| Api.delta := Some {| Api.content := Some text |} |} ] |}.

(** A stream that has delivered a complete question when it fails. *)
Definition interrupted (message : string) : Api.Outcome :=
  {| Api.chunks := [one_chunk plain_question];
     Api.thrown := Some (Js.Error message) |}.

End Samples.

(** * Sample tests *)

Module Quiz.
Import StudentTest.

Definition row (i : string) : QuestionRow :=
  {| row_id := i; row_content := "What is a queue?"; row_explanation := "";
     row_difficulty := 1 |}.

Definition option_of (q i text : string) (correct : bool) : Choice :=
  {| choice_id := i; question_id := q; choice := text; is_correct := correct |}.

(** One question whose two choices are both marked correct. *)
Definition two_correct_rows : list QuestionRow := [row "q1"].

Definition two_correct_choices : list Choice :=
  [option_of "q1" "c1" "FIFO" true; option_of "q1" "c2" "First in, first out" true].

Definition two_correct_question : Question :=
  {| id := "q1"; content := "What is a queue?"; explanation := ""; difficulty := 1;
     choices := two_correct_choices |}.

(** Two questions with one correct choice each, and a third without
    choices. *)
Definition rows : list QuestionRow := [row "q1"; row "q2"; row "q3"].

Definition table : list Choice :=
  [ option_of "q1" "c1" "FIFO" true; option_of "q1" "c2" "LIFO" false;
    option_of "q2" "c3" "LIFO" true; option_of "q2" "c4" "FIFO" false ].

Definition assembled : list Question :=
  [ {| id := "q1"; content := "What is a queue?"; explanation := ""; difficulty := 1;
       choices := [option_of "q1" "c1" "FIFO" true; option_of "q1" "c2" "LIFO" false] |};
    {| id := "q2"; content := "What is a queue?"; explanation := ""; difficulty := 1;
       choices := [option_of "q2" "c3" "LIFO" true; option_of "q2" "c4" "FIFO" false] |} ].

(** The test under way: the first question answered correctly, the second
    one wrongly. *)
Definition under_way : State :=
  {| questions := assembled;
     selectedAnswers := [("q1", "FIFO"); ("q2", "FIFO")];
     currentQuestionIndex := 0;
     testResult := None |}.

(** A test of one question whose correct choice is the second one, answered
    with the text of that choice. *)
Definition second_marked : State :=
  {| questions :=
       [ {| id := "q4"; content := "What is a queue?"; explanation := ""; difficulty := 1;
            choices := [option_of "q4" "c8" "LIFO" false; option_of "q4" "c9" "FIFO" true] |} ];
     selectedAnswers := [("q4", "FIFO")];
     currentQuestionIndex := 0;
     testResult := None |}.

(** A backend that stores the assessment and then refuses the results. *)
Definition refusing_results : Submission.Remote :=
  {| Submission.getUser := Submission.Answered (Some {| Submission.email := "an@vnu.edu.vn" |});
     Submission.selectUser :=
       fun _ => Submission.Answered (Some {| Submission.user_id := "u1" |});
     Submission.insertAssessment := fun row => Submission.Answered (Some row);
     Submission.insertResults := fun _ => Some "row-level security" |}.

(** The identifiers that [uuidv4] hands out. *)
Definition uuids (k : nat) : string :=
  match k with
  | O => "a0"
  | S O => "r1"
  | _ => "r2"
  end.

End Quiz.

(** * Sample questions of a lecturer *)

Module Bank.
Import QuestionManager.

(** A backend that accepts every write and has no question to show. *)
Definition accepting : Remote unit :=
  {| saveQuestion := fun _ _ => None;
     deleteChoices := fun _ => None;
     insertChoice := fun _ => None;
     deleteMappings := fun _ => None;
     insertMapping := fun _ => None;
     selectQuestions := fun _ => Submission.Answered (Some []) |}.

Definition uuids (k : nat) : string :=
  match k with
  | O => "q9"
  | S O => "c1"
  | S (S O) => "c2"
  | S (S (S O)) => "c3"
  | _ => "m1"
  end.

(** A new question with two options, the second one marked. *)
Definition draft : Page unit :=
  {| form := {| content := Js.JStr "What is a stack?";
                options := [Js.JStr "FIFO"; Js.JStr "LIFO"];
                answer := "B";
                explanation := Js.JStr "";
                difficulty := 1;
                selectedLos := ["lo1"] |};
     editingQuestionId := None;
     isPopupOpen := true;
     questions := [] |}.

(** The same with a third option that is left blank. *)
Definition unfinished : Page unit :=
  {| form := handleAddChoice (form draft);
     editingQuestionId := None;
     isPopupOpen := true;
     questions := [] |}.

(** The draft after the sample question has been generated into it. *)
Definition generated : Page unit :=
  {| form := {| content := Js.JStr "Q";
                options := [Js.JStr "a"; Js.JStr "b"];
                answer := "A";
                explanation := Js.JStr "";
                difficulty := 1;
                selectedLos := ["lo1"] |};
     editingQuestionId := None;
     isPopupOpen := true;
     questions := [] |}.

End Bank.

(** * A sample course *)

Module School.
Import Fetch.

Definition holds (ids : list string) (i : string) : bool := existsb (String.eqb i) ids.

(** A backend that answers each read with the rows of its table that
    satisfy the condition. *)
Definition serving (db : Database) : Remote :=
  {| selectCourse := fun i =>
       match List.filter (fun c => String.eqb (course_id c) i) (courses db) with
       | [course] => Submission.Answered (Some course)
       | _ => Submission.Failed "JSON object requested, multiple (or no) rows returned"
       end;
     selectChapters := fun i =>
       Submission.Answered
         (Some (List.filter (fun c => String.eqb (chapter_course_id c) i) (chapters db)));
     selectLearningObjectives := fun ids =>
       Submission.Answered
         (Some (List.filter (fun l => holds ids (lo_chapter_id l)) (learning_objectives db)));
     selectQuestionLos := fun ids =>
       Submission.Answered
         (Some (map (fun l => {| qlo_question_id := link_question_id l |})
                    (List.filter (fun l => holds ids (link_lo_id l)) (question_lo db))));
     selectQuestions := fun ids =>
       Submission.Answered
         (Some (List.filter (fun q => holds ids (StudentTest.row_id q)) (questions_table db)));
     selectChoices := fun ids =>
       Submission.Answered
         (Some (List.filter (fun c => holds ids (StudentTest.question_id c))
                            (choices_table db))) |}.

(** A course with one chapter and one objective, to which the three
    questions of the sample test and a question of another course are
    linked. *)
Definition cs101 : Database :=
  {| courses := [ {| course_id := "cs101" |}; {| course_id := "ma201" |} ];
     chapters := [ {| chapter_id := "ch1"; chapter_course_id := "cs101" |};
                   {| chapter_id := "ch7"; chapter_course_id := "ma201" |} ];
     learning_objectives := [ {| lo_id := "lo1"; lo_chapter_id := "ch1" |};
                              {| lo_id := "lo7"; lo_chapter_id := "ch7" |} ];
     question_lo := [ {| link_question_id := "q1"; link_lo_id := "lo1" |};
                      {| link_question_id := "q2"; link_lo_id := "lo1" |};
                      {| link_question_id := "q3"; link_lo_id := "lo1" |};
                      {| link_question_id := "q7"; link_lo_id := "lo7" |} ];
     questions_table := (Quiz.rows ++ [Quiz.row "q7"])%list;
     choices_table := (Quiz.table ++ [Quiz.option_of "q7" "c7" "42" true])%list |}.

End School.

(* ================================================================== *)
(** * Facts about strings and objects *)
(* ================================================================== *)

Section StringFacts.
Import Js.

Lemma string_app_assoc (a b c : string) : (a ++ b) ++ c = a ++ b ++ c.
Proof.
  induction a as [|x a IH]; simpl; [reflexivity|now rewrite IH].
Qed.

Lemma starts_with_app (p s : string) : starts_with p (p ++ s) = true.
Proof.
  induction p as [|c p IH]; simpl.
  - reflexivity.
  - now rewrite Ascii.eqb_refl, IH.
Qed.

Lemma includes_here (p s : string) : starts_with p s = true -> includes s p = true.
Proof.
  intros H. destruct s; simpl; now rewrite H.
Qed.

Lemma includes_app (pre p post : string) : includes (pre ++ p ++ post) p = true.
Proof.
  induction pre as [|c pre IH]; simpl.
  - apply includes_here, starts_with_app.
  - rewrite IH. apply orb_true_r.
Qed.

Lemma upto_close_app (a b : string) : upto_close (a ++ "}" ++ b) <> None.
Proof.
  induction a as [|c a IH]; simpl in *.
  - discriminate.
  - destruct (Ascii.eqb c "}"); [discriminate|].
    destruct (upto_close (a ++ String "}" b)); simpl; [discriminate|contradiction].
Qed.

Lemma upto_close_some (s m : string) :
  upto_close s = Some m ->
  exists mid post, s = mid ++ "}" ++ post /\ m = mid ++ "}" /\ includes mid "}" = false.
Proof.
  revert m. induction s as [|c s IH]; simpl; intros m H.
  - discriminate.
  - destruct (Ascii.eqb c "}") eqn:E.
    + apply Ascii.eqb_eq in E. subst c. injection H as <-.
      exists "", s. repeat split.
    + destruct (upto_close s) as [m'|]; [|discriminate].
      injection H as <-.
      destruct (IH m' eq_refl) as (mid & post & -> & -> & Hno).
      exists (String c mid), post. repeat split.
      cbn [includes starts_with]. now rewrite Ascii.eqb_sym, E, Hno.
Qed.

(** What [match_braces] returns is a piece of the text that runs from an
    opening brace to the first closing brace after it. *)
Lemma match_braces_some (s m : string) :
  match_braces s = Some m ->
  exists pre mid post,
    s = pre ++ m ++ post /\ m = "{" ++ mid ++ "}" /\ includes mid "}" = false.
Proof.
  revert m. induction s as [|c s IH]; simpl; intros m H.
  - discriminate.
  - assert (Hrec : match_braces s = Some m ->
                   exists pre mid post,
                     String c s = pre ++ m ++ post /\ m = "{" ++ mid ++ "}"
                     /\ includes mid "}" = false).
    { intros H'. destruct (IH m H') as (pre & mid & post & -> & -> & Hno).
      exists (String c pre), mid, post. repeat split. exact Hno. }
    destruct (Ascii.eqb c "{") eqn:E; [|now apply Hrec].
    destruct (upto_close s) as [m'|] eqn:U; [|now apply Hrec].
    apply Ascii.eqb_eq in E. subst c. injection H as <-.
    destruct (upto_close_some s m' U) as (mid & post & -> & -> & Hno).
    exists "", mid, post. split; [|split; [reflexivity|exact Hno]].
    simpl. f_equal. now rewrite string_app_assoc.
Qed.

(** A text has no match exactly when no opening brace is followed by a
    closing one. *)
Lemma match_braces_none (s : string) :
  match_braces s = None <->
  (forall pre mid post, s <> pre ++ "{" ++ mid ++ "}" ++ post).
Proof.
  split.
  - intros H pre mid post ->. revert H.
    induction pre as [|c pre IH]; simpl.
    + destruct (upto_close (mid ++ String "}" post)) eqn:U; [discriminate|].
      now apply (upto_close_app mid post) in U.
    + destruct (Ascii.eqb c "{"); [|exact IH].
      destruct (upto_close (pre ++ String "{" (mid ++ String "}" post))) eqn:U;
        [discriminate|].
      exfalso.
      apply (upto_close_app (pre ++ "{" ++ mid) post).
      rewrite <- U. f_equal. apply string_app_assoc.
  - intros H. destruct (match_braces s) as [m|] eqn:M; [|reflexivity].
    destruct (match_braces_some s m M) as (pre & mid & post & -> & -> & _).
    exfalso. apply (H pre mid post). simpl. now rewrite string_app_assoc.
Qed.

End StringFacts.

Section ObjectFacts.
Import Js.
Context {A : Type}.

Lemma own_set_same (props : Obj A) (k : string) (v : A) :
  own (set props k v) k = Some v.
Proof.
  induction props as [|[k' v'] props IH]; simpl.
  - now rewrite String.eqb_refl.
  - destruct (String.eqb k' k) eqn:E; simpl; now rewrite E.
Qed.

Lemma own_set_other (props : Obj A) (k k' : string) (v : A) :
  k <> k' -> own (set props k v) k' = own props k'.
Proof.
  intros Hne. induction props as [|[k0 v0] props IH]; simpl.
  - destruct (String.eqb k k') eqn:E; [|reflexivity].
    now apply String.eqb_eq in E.
  - destruct (String.eqb k0 k) eqn:E; simpl.
    + apply String.eqb_eq in E. subst k0.
      destruct (String.eqb k k') eqn:E'; [|reflexivity].
      now apply String.eqb_eq in E'.
    + now rewrite IH.
Qed.

End ObjectFacts.

Section PropertyFacts.
Import Js.

Lemma get_set_same (props : Obj JsValue) (k : string) (v : JsValue) :
  get (set props k v) k = v.
Proof. unfold get. now rewrite own_set_same. Qed.

Lemma get_set_other (props : Obj JsValue) (k k' : string) (v : JsValue) :
  k <> k' -> get (set props k v) k' = get props k'.
Proof. intros H. unfold get. now rewrite own_set_other. Qed.

End PropertyFacts.

(* ================================================================== *)
(** * From the response text to the parsed object *)
(* ================================================================== *)

Section Extraction.
Import Js Json.

(** The piece that the pattern cuts out starts with a brace, so what
    [JSON.parse] makes of it, if anything, is an object. *)
Lemma matched_piece_is_object (fullResponse jsonMatch : string) (data : JsValue) :
  match_braces fullResponse = Some jsonMatch ->
  JSON_parse jsonMatch = Normal data ->
  exists props, data = JObj props.
Proof.
  intros Hm Hp.
  destruct (match_braces_some _ _ Hm) as (_ & mid & _ & _ & -> & _).
  unfold JSON_parse in Hp.
  destruct (parse_value _ _) as [[v rest]|] eqn:E; [|discriminate].
  destruct (skip_ws rest); [|discriminate]. injection Hp as <-.
  rewrite Nat.add_1_r in E.
  cbn [parse_value append skip_ws] in E.
  change (is_ws "{") with false in E. cbv iota in E.
  change (Ascii.eqb "{" "{") with true in E. cbv iota in E.
  destruct (skip_ws (mid ++ "}")) as [|c r]; [discriminate|].
  destruct (Ascii.eqb c "}").
  - injection E as <- _. eauto.
  - destruct (parse_members _ _ _) as [[props rest']|]; [|discriminate].
    injection E as <- _. eauto.
Qed.

(** ** Braces in the text and objects in the value *)

Lemma closes_app (a b : string) : (closes (a ++ b) = closes a + closes b)%nat.
Proof.
  induction a as [|c a IH]; simpl; [reflexivity|]. rewrite IH. lia.
Qed.

Lemma closes_none (s : string) : includes s "}" = false -> closes s = 0%nat.
Proof.
  induction s as [|c s IH]; [reflexivity|].
  cbn [includes starts_with closes]. rewrite Ascii.eqb_sym.
  destruct (Ascii.eqb c "}"); [discriminate|]. exact IH.
Qed.

Lemma closes_tail (c : ascii) (s : string) : (closes s <= closes (String c s))%nat.
Proof. cbn [closes]. lia. Qed.

Lemma closes_skip_ws (s : string) : (closes (skip_ws s) <= closes s)%nat.
Proof.
  induction s as [|c s IH]; cbn [skip_ws]; [lia|].
  destruct (is_ws c); [|lia]. pose proof (closes_tail c s). lia.
Qed.

Lemma closes_strip (p s r : string) : strip p s = Some r -> (closes r <= closes s)%nat.
Proof.
  revert s. induction p as [|a p IH]; intros [|b s]; cbn [strip]; intros H;
    try discriminate.
  - injection H as <-. lia.
  - injection H as <-. lia.
  - destruct (Ascii.eqb a b); [|discriminate].
    pose proof (IH s H). pose proof (closes_tail b s). lia.
Qed.

Lemma closes_literal (s : string) (v : JsValue) (r : string) :
  parse_literal s = Some (v, r) -> (closes r + objects v <= closes s)%nat.
Proof.
  unfold parse_literal.
  destruct (strip "true" s) eqn:E1.
  { intros H. injection H as <- <-. apply closes_strip in E1. simpl. lia. }
  destruct (strip "false" s) eqn:E2.
  { intros H. injection H as <- <-. apply closes_strip in E2. simpl. lia. }
  destruct (strip "null" s) eqn:E3; [|discriminate].
  intros H. injection H as <- <-. apply closes_strip in E3. simpl. lia.
Qed.

Lemma closes_digits (s : string) (acc count : Z) :
  (closes (snd (digits acc count s)) <= closes s)%nat.
Proof.
  revert acc count. induction s as [|c s IH]; intros acc count; cbn [digits].
  - simpl. lia.
  - destruct (is_digit c); [|simpl; lia].
    specialize (IH (10 * acc + digit_value c) (count + 1)).
    pose proof (closes_tail c s). lia.
Qed.

Lemma closes_number (s : string) (n : number) (r : string) :
  parse_number s = Some (n, r) -> (closes r <= closes s)%nat.
Proof.
  unfold parse_number.
  set (signed := match s with
                 | "" => (false, s)
                 | String c s' => if Ascii.eqb c "-" then (true, s') else (false, s)
                 end).
  assert (Hs : (closes (snd signed) <= closes s)%nat).
  { subst signed. destruct s as [|c s']; [simpl; lia|].
    destruct (Ascii.eqb c "-"); cbn [snd]; [apply closes_tail|lia]. }
  destruct signed as [neg s1]. cbn [snd] in Hs.
  destruct (int_part s1) as [[i s2]|] eqn:Ei; [|discriminate].
  assert (H2 : (closes s2 <= closes s1)%nat).
  { unfold int_part in Ei. destruct s1 as [|c s1']; [discriminate|].
    destruct (Ascii.eqb c "0").
    - injection Ei as _ <-. apply closes_tail.
    - destruct (is_digit c); [|discriminate].
      pose proof (closes_digits (String c s1') 0 0) as Hd.
      destruct (digits 0 0 (String c s1')) as [[v k] rest].
      injection Ei as _ <-. exact Hd. }
  destruct (frac_part i s2) as [[[m e1] s3]|] eqn:Ef; [|discriminate].
  assert (H3 : (closes s3 <= closes s2)%nat).
  { unfold frac_part in Ef. destruct s2 as [|c s2'].
    - injection Ef as _ _ <-. lia.
    - destruct (Ascii.eqb c ".").
      + pose proof (closes_digits s2' i 0) as Hd.
        destruct (digits i 0 s2') as [[v k] rest].
        destruct (k =? 0); [discriminate|]. injection Ef as _ _ <-.
        cbn [snd] in Hd. pose proof (closes_tail c s2'). lia.
      + injection Ef as _ _ <-. lia. }
  destruct (exp_part s3) as [[e2 s4]|] eqn:Ee; [|discriminate].
  assert (H4 : (closes s4 <= closes s3)%nat).
  { unfold exp_part in Ee. destruct s3 as [|c s3'].
    - injection Ee as _ <-. lia.
    - destruct (Ascii.eqb c "e" || Ascii.eqb c "E").
      + assert (Hsg : (closes (snd (sign s3')) <= closes s3')%nat).
        { unfold sign. destruct s3' as [|d s3'']; [simpl; lia|].
          destruct (Ascii.eqb d "-"); [apply closes_tail|].
          destruct (Ascii.eqb d "+"); [apply closes_tail|]. cbn [snd]. lia. }
        destruct (sign s3') as [ng s5]. cbn [snd] in Hsg.
        pose proof (closes_digits s5 0 0) as Hd.
        destruct (digits 0 0 s5) as [[v k] rest].
        destruct (k =? 0); [discriminate|]. injection Ee as _ <-.
        cbn [snd] in Hd. pose proof (closes_tail c s3'). lia.
      + injection Ee as _ <-. lia. }
  intros H. injection H as _ <-. lia.
Qed.

Lemma closes_string (s body rest : string) :
  parse_string s = Some (body, rest) -> (closes rest <= closes s)%nat.
Proof.
  revert body rest.
  induction s as [s IH] using
    (well_founded_induction (well_founded_ltof _ String.length)).
  intros body rest H. destruct s as [|c s']; [discriminate|].
  cbn [parse_string] in H.
  destruct (Ascii.eqb c quote).
  { injection H as _ <-. apply closes_tail. }
  destruct (Ascii.eqb c backslash).
  - destruct s' as [|e s'']; [discriminate|].
    destruct (Ascii.eqb e "u").
    + destruct s'' as [|h1 [|h2 [|h3 [|h4 s5]]]]; try discriminate.
      destruct (hex4 h1 h2 h3 h4); [|discriminate].
      destruct (parse_string s5) as [[b r]|] eqn:E; [|discriminate].
      injection H as _ <-.
      assert (Hr : (closes r <= closes s5)%nat).
      { apply (IH s5) with (body := b); [|exact E].
        unfold ltof. cbn [String.length]. lia. }
      cbn [closes]. lia.
    + destruct (escape e); [|discriminate].
      destruct (parse_string s'') as [[b r]|] eqn:E; [|discriminate].
      injection H as _ <-.
      assert (Hr : (closes r <= closes s'')%nat).
      { apply (IH s'') with (body := b); [|exact E].
        unfold ltof. cbn [String.length]. lia. }
      cbn [closes]. lia.
  - destruct (nat_of_ascii c <? 32)%nat; [discriminate|].
    destruct (parse_string s') as [[b r]|] eqn:E; [|discriminate].
    injection H as _ <-.
    assert (Hr : (closes r <= closes s')%nat).
    { apply (IH s') with (body := b); [|exact E].
      unfold ltof. cbn [String.length]. lia. }
    cbn [closes]. lia.
Qed.

Lemma objects_set (acc : Obj JsValue) (k : string) (v : JsValue) :
  (objects (JObj (set acc k v)) <= objects (JObj acc) + objects v)%nat.
Proof.
  induction acc as [|[k' v'] acc IH]; cbn [set].
  - simpl. lia.
  - destruct (String.eqb k' k).
    + simpl. lia.
    + simpl in IH |- *. lia.
Qed.

Lemma closes_head (c : ascii) (s : string) :
  Ascii.eqb c "}" = true -> closes (String c s) = S (closes s).
Proof. intros H. cbn [closes]. now rewrite H. Qed.

(** The parser spends a closing brace of the text on every object it
    builds. *)
Lemma closes_parse (fuel : nat) :
  (forall s v rest,
      parse_value fuel s = Some (v, rest) ->
      (closes rest + objects v <= closes s)%nat)
  /\ (forall s items rest,
         parse_elements fuel s = Some (items, rest) ->
         (closes rest + objects (JArr items) <= closes s)%nat)
  /\ (forall acc s props rest,
         parse_members fuel acc s = Some (props, rest) ->
         (closes rest + objects (JObj props) + 1
          <= closes s + objects (JObj acc))%nat).
Proof.
  induction fuel as [|fuel (IHv & IHe & IHm)].
  { repeat split; intros; discriminate. }
  split; [|split].
  - intros s v rest H. cbn [parse_value] in H.
    pose proof (closes_skip_ws s) as Hs.
    destruct (skip_ws s) as [|c r]; [discriminate|].
    destruct (Ascii.eqb c "{").
    { pose proof (closes_skip_ws r) as Hr. pose proof (closes_tail c r).
      destruct (skip_ws r) as [|c' r']; [discriminate|].
      destruct (Ascii.eqb c' "}") eqn:E.
      - injection H as <- <-. rewrite (closes_head c' r' E) in Hr. simpl. lia.
      - destruct (parse_members fuel [] (String c' r')) as [[props rest']|] eqn:M;
          [|discriminate].
        injection H as <- <-. apply IHm in M.
        cbn [closes] in M, Hr. rewrite E in M, Hr. simpl in M |- *. lia. }
    destruct (Ascii.eqb c "[").
    { pose proof (closes_skip_ws r) as Hr. pose proof (closes_tail c r).
      destruct (skip_ws r) as [|c' r']; [discriminate|].
      destruct (Ascii.eqb c' "]").
      - injection H as <- <-. pose proof (closes_tail c' r'). simpl. lia.
      - destruct (parse_elements fuel (String c' r')) as [[items rest']|] eqn:M;
          [|discriminate].
        injection H as <- <-. apply IHe in M. lia. }
    destruct (Ascii.eqb c quote).
    { destruct (parse_string r) as [[str rest']|] eqn:P; [|discriminate].
      injection H as <- <-. apply closes_string in P.
      pose proof (closes_tail c r). simpl. lia. }
    destruct (parse_literal (String c r)) as [[v' rest']|] eqn:L.
    { injection H as <- <-. apply closes_literal in L. lia. }
    destruct (parse_number (String c r)) as [[n rest']|] eqn:N; [|discriminate].
    injection H as <- <-. apply closes_number in N. simpl. lia.
  - intros s items rest H. cbn [parse_elements] in H.
    destruct (parse_value fuel s) as [[v r]|] eqn:V; [|discriminate].
    apply IHv in V. pose proof (closes_skip_ws r) as Hr.
    destruct (skip_ws r) as [|c r']; [discriminate|].
    pose proof (closes_tail c r').
    destruct (Ascii.eqb c ",").
    + destruct (parse_elements fuel r') as [[items' rest']|] eqn:M; [|discriminate].
      injection H as <- <-. apply IHe in M. simpl in M |- *. lia.
    + destruct (Ascii.eqb c "]"); [|discriminate].
      injection H as <- <-. simpl. lia.
  - intros acc s props rest H. cbn [parse_members] in H.
    pose proof (closes_skip_ws s) as Hs.
    destruct (skip_ws s) as [|c r]; [discriminate|].
    pose proof (closes_tail c r).
    destruct (Ascii.eqb c quote); [|discriminate].
    destruct (parse_string r) as [[k r1]|] eqn:P; [|discriminate].
    apply closes_string in P. pose proof (closes_skip_ws r1) as Hr1.
    destruct (skip_ws r1) as [|c1 r2]; [discriminate|].
    pose proof (closes_tail c1 r2).
    destruct (Ascii.eqb c1 ":"); [|discriminate].
    destruct (parse_value fuel r2) as [[v r3]|] eqn:V; [|discriminate].
    apply IHv in V. pose proof (closes_skip_ws r3) as Hr3.
    destruct (skip_ws r3) as [|c3 r4]; [discriminate|].
    pose proof (objects_set acc k v) as Hset.
    destruct (Ascii.eqb c3 ",").
    + apply IHm in H. pose proof (closes_tail c3 r4). lia.
    + destruct (Ascii.eqb c3 "}") eqn:E; [|discriminate].
      injection H as <- <-. rewrite (closes_head c3 r4 E) in Hr3. lia.
Qed.

(** The piece that the pattern cuts out has one closing brace, so the
    object parsed from it holds no object. *)
Lemma matched_piece_is_flat (fullResponse jsonMatch : string) (data : JsValue) :
  match_braces fullResponse = Some jsonMatch ->
  JSON_parse jsonMatch = Normal data ->
  objects data = 1%nat.
Proof.
  intros Hm Hp.
  destruct (matched_piece_is_object _ _ _ Hm Hp) as (props & ->).
  destruct (match_braces_some _ _ Hm) as (_ & mid & _ & _ & -> & Hno).
  unfold JSON_parse in Hp.
  destruct (parse_value _ _) as [[v rest]|] eqn:E; [|discriminate].
  destruct (skip_ws rest); [|discriminate]. injection Hp as ->.
  apply (proj1 (closes_parse _)) in E.
  cbn [append closes] in E. rewrite closes_app, (closes_none _ Hno) in E.
  simpl in E |- *. lia.
Qed.

Lemma objects_own (props : Obj JsValue) (k : string) (v : JsValue) :
  own props k = Some v -> (objects v < objects (JObj props))%nat.
Proof.
  induction props as [|[k' v'] props IH]; cbn [own]; [discriminate|].
  destruct (String.eqb k' k).
  - intros H. injection H as <-. simpl. lia.
  - intros H. apply IH in H. simpl in H |- *. lia.
Qed.

(** Among entries that are no objects, [some] finds no correctness flag. *)
Lemma some_without_objects (items : list JsValue) :
  objects (JArr items) = 0%nat -> some Route.is_correct items <> Normal true.
Proof.
  induction items as [|c items IH]; cbn [some]; [discriminate|].
  intros H.
  assert (Hc : objects c = 0%nat) by (simpl in H; lia).
  assert (Hi : objects (JArr items) = 0%nat) by (simpl in H |- *; lia).
  unfold Route.is_correct at 1.
  destruct c; cbn [field bind truthy]; try discriminate; try (now apply IH).
Qed.

(** Through [POST], no response text gets a record: the choices that the
    prompt asks for are objects, and the piece cut by the pattern cannot
    hold one. *)
Lemma POST_never_succeeds (fullResponse : string) :
  status (Route.POST fullResponse) = 500.
Proof.
  unfold Route.POST, Route.attempt.
  destruct (includes fullResponse "<!DOCTYPE" || includes fullResponse "<html");
    [reflexivity|].
  unfold Route.extract.
  destruct (match_braces fullResponse) as [jsonMatch|] eqn:Hm; [|reflexivity].
  destruct (JSON_parse jsonMatch) as [data|] eqn:Hp; [|reflexivity].
  pose proof (matched_piece_is_flat _ _ _ Hm Hp) as Hflat.
  destruct (matched_piece_is_object _ _ _ Hm Hp) as (props & ->).
  unfold Route.respond.
  assert (Hbad : Route.invalid (JObj props) <> Normal false).
  { unfold Route.invalid. cbn [field bind].
    destruct (truthy (get props "question")); cbn [negb]; [|discriminate].
    unfold get. destruct (own props "choices") as [v|] eqn:O.
    - apply objects_own in O. destruct v; try discriminate.
      destruct (Z.of_nat (List.length items) <? 2); [discriminate|].
      assert (Hi : objects (JArr items) = 0%nat) by lia.
      pose proof (some_without_objects items Hi) as Hsome.
      destruct (some Route.is_correct items) as [[|]|]; cbn [bind negb];
        [contradiction|discriminate|discriminate].
    - cbn. discriminate. }
  destruct (Route.invalid (JObj props)) as [[|]|e]; cbn [bind try_catch].
  - reflexivity.
  - contradiction.
  - unfold Route.provider_error.
    destruct (includes (message e) "401"); [reflexivity|].
    destruct (includes (message e) "429"); [reflexivity|].
    destruct (includes (message e) "500"); reflexivity.
Qed.

(** Once the text has no marker and its piece parses, the endpoints answer
    from the parsed [data]. *)
Lemma handler_on_parsed
  (JSON_stringify : JsValue -> string) (fullResponse jsonMatch : string) (data : JsValue) :
  includes fullResponse "<!DOCTYPE" = false ->
  includes fullResponse "<html" = false ->
  match_braces fullResponse = Some jsonMatch ->
  JSON_parse jsonMatch = Normal data ->
  Handler.handler JSON_stringify fullResponse
  = try_catch (Handler.respond JSON_stringify data)
      (fun _ => failure "Failed to generate question. Please check your API key and configuration.").
Proof.
  intros H1 H2 Hm Hp. unfold Handler.handler, Handler.attempt.
  rewrite H1, H2, Hm, Hp. reflexivity.
Qed.

Lemma POST_on_parsed (fullResponse jsonMatch : string) (data : JsValue) :
  includes fullResponse "<!DOCTYPE" = false ->
  includes fullResponse "<html" = false ->
  match_braces fullResponse = Some jsonMatch ->
  JSON_parse jsonMatch = Normal data ->
  Route.POST fullResponse = try_catch (Route.respond data) Route.provider_error.
Proof.
  intros H1 H2 Hm Hp. unfold Route.POST, Route.attempt, Route.extract.
  rewrite H1, H2, Hm, Hp. reflexivity.
Qed.

(** Only an object passes either validation. *)
Lemma valid_is_object (data : JsValue) :
  Handler.invalid data = Normal false \/ Route.invalid data = Normal false ->
  exists props, data = JObj props.
Proof.
  unfold Handler.invalid, Route.invalid.
  intros [H|H]; destruct data; try discriminate; eauto.
Qed.

End Extraction.

(* ================================================================== *)
(** * The generation endpoints: what the response text decides *)
(* ================================================================== *)

Section Endpoints.
Import Js Json Samples.

(** C5.  The check for an error page looks for the two markers as they are
    written, [<!DOCTYPE] and [<html], and misses an HTML page that writes
    them otherwise.  [lowercase_page] has a doctype and an html tag around a
    complete question: [handler] answers 200 with the question, and [POST]
    extracts and parses the object and answers with its structure error.
    [bad_gateway] has a doctype and no brace: both endpoints answer with
    their invalid-format message, not with the error-page message. *)
Theorem other_case_markers_are_missed :
  (forall JSON_stringify,
      Handler.handler JSON_stringify lowercase_page
      = {| status := 200;
           body := JObj [ ("question", JStr "Q");
                          ("options", JStr (JSON_stringify (JArr [JStr "a"; JStr "b"])));
                          ("answer", JStr "a");
                          ("difficulty", JStr "1") ] |})
  /\ Route.POST lowercase_page
     = failure "Invalid question structure. Must have exactly one correct choice."
  /\ (forall JSON_stringify,
         Handler.handler JSON_stringify bad_gateway
         = failure "Invalid response format from the API")
  /\ Route.POST bad_gateway
     = failure "Invalid response format from the API. Please try again.".
Proof.
  split; [intros JSON_stringify; vm_compute; reflexivity|].
  split; [vm_compute; reflexivity|].
  split; [intros JSON_stringify; vm_compute; reflexivity|].
  vm_compute. reflexivity.
Qed.

(** X21.  A response text that contains [<!DOCTYPE] or [<html] is answered
    with the error-page message by both endpoints, whatever stands before
    and after the marker, a complete JSON object included: the check comes
    first and nothing is extracted or parsed. *)
Theorem html_marker_is_upstream_error (pre marker post : string) :
  marker = "<!DOCTYPE" \/ marker = "<html" ->
  (forall JSON_stringify,
      Handler.attempt JSON_stringify (pre ++ marker ++ post)
      = Normal (failure "API returned an error page. Please check your API key and configuration.")
      /\ Handler.handler JSON_stringify (pre ++ marker ++ post)
         = failure "API returned an error page. Please check your API key and configuration.")
  /\ Route.attempt (pre ++ marker ++ post)
     = Normal (failure "API returned an error page. Please check your API key and configuration.")
  /\ Route.POST (pre ++ marker ++ post)
     = failure "API returned an error page. Please check your API key and configuration.".
Proof.
  intros Hm.
  assert (H : includes (pre ++ marker ++ post) "<!DOCTYPE"
              || includes (pre ++ marker ++ post) "<html" = true).
  { destruct Hm as [-> | ->]; rewrite includes_app.
    - reflexivity.
    - apply orb_true_r. }
  unfold Handler.handler, Route.POST, Handler.attempt, Route.attempt.
  rewrite H. repeat split.
Qed.

(** The page of [page_with_question] carries a question that either
    endpoint would accept on its own; with the page around it the answer is
    the error-page message. *)
Lemma html_marker_witness :
  ((forall JSON_stringify,
       Handler.attempt JSON_stringify page_with_question
       = Normal (failure "API returned an error page. Please check your API key and configuration.")
       /\ Handler.handler JSON_stringify page_with_question
          = failure "API returned an error page. Please check your API key and configuration.")
   /\ Route.attempt page_with_question
      = Normal (failure "API returned an error page. Please check your API key and configuration.")
   /\ Route.POST page_with_question
      = failure "API returned an error page. Please check your API key and configuration.")
  /\ (forall JSON_stringify,
         status (Handler.handler JSON_stringify plain_question) = 200).
Proof.
  split.
  - apply (html_marker_is_upstream_error
             "" "<html" (json "><body>{'question':'Q','options':['a','b'],'answer':'a','difficulty':'easy'}</body></html>")).
    right. reflexivity.
  - intros. reflexivity.
Defined.

(** C6, as amended.  A response text without an HTML marker in which no
    opening brace is followed by a closing brace is answered with the
    invalid-format message; nothing is thrown past the handlers. *)
Theorem no_braces_is_format_error (fullResponse : string) :
  includes fullResponse "<!DOCTYPE" = false ->
  includes fullResponse "<html" = false ->
  (forall pre mid post, fullResponse <> pre ++ "{" ++ mid ++ "}" ++ post) ->
  (forall JSON_stringify,
      Handler.attempt JSON_stringify fullResponse
      = Normal (failure "Invalid response format from the API")
      /\ Handler.handler JSON_stringify fullResponse
         = failure "Invalid response format from the API")
  /\ Route.attempt fullResponse
     = Normal (failure "Invalid response format from the API. Please try again.")
  /\ Route.POST fullResponse
     = failure "Invalid response format from the API. Please try again.".
Proof.
  intros H1 H2 Hno.
  apply match_braces_none in Hno.
  unfold Handler.handler, Route.POST, Handler.attempt, Route.attempt, Route.extract.
  rewrite H1, H2, Hno. repeat split.
Qed.

Lemma no_braces_witness :
  (forall JSON_stringify,
      Handler.attempt JSON_stringify refusal
      = Normal (failure "Invalid response format from the API")
      /\ Handler.handler JSON_stringify refusal
         = failure "Invalid response format from the API")
  /\ Route.attempt refusal
     = Normal (failure "Invalid response format from the API. Please try again.")
  /\ Route.POST refusal
     = failure "Invalid response format from the API. Please try again.".
Proof.
  apply (no_braces_is_format_error refusal).
  - reflexivity.
  - reflexivity.
  - apply match_braces_none. reflexivity.
Defined.

(** C6 as stated fails on an error page without braces: it has no
    brace-delimited piece, and the answer is the error-page message, not the
    invalid-format one. *)
Lemma no_braces_counterexample :
  (forall pre mid post, error_page <> pre ++ "{" ++ mid ++ "}" ++ post)
  /\ (forall JSON_stringify,
         Handler.handler JSON_stringify error_page
         = failure "API returned an error page. Please check your API key and configuration."
         /\ Handler.handler JSON_stringify error_page
            <> failure "Invalid response format from the API")
  /\ Route.POST error_page
     = failure "API returned an error page. Please check your API key and configuration."
  /\ Route.POST error_page
     <> failure "Invalid response format from the API. Please try again.".
Proof.
  split; [|split; [|split]].
  - apply match_braces_none. reflexivity.
  - intros. split; [reflexivity|discriminate].
  - reflexivity.
  - discriminate.
Qed.

(** C8.  [nested_question] is one well-formed JSON object with nested
    objects.  The pattern cuts it after the closing brace of the first
    choice: the piece is a strict prefix without any other closing brace, it
    does not parse, and [POST] answers with the invalid-format message where
    the whole object would have given the normalized record.  ([handler]
    answers the same text with its catch-all message.) *)
Theorem nested_object_is_truncated :
  exists piece rest,
    JSON_parse nested_question = Normal (JObj nested_data)
    /\ match_braces nested_question = Some (piece ++ "}")
    /\ nested_question = (piece ++ "}") ++ rest
    /\ rest <> ""
    /\ includes piece "}" = false
    /\ JSON_parse (piece ++ "}") = Throw SyntaxError
    /\ Route.POST nested_question
       = failure "Invalid response format from the API. Please try again."
    /\ Route.respond (JObj nested_data)
       = Normal {| status := 200;
                   body := JObj [ ("question", JStr "Q");
                                  ("choices", get nested_data "choices");
                                  ("explanation", JStr "E");
                                  ("difficulty", JStr "1") ] |}
    /\ (forall JSON_stringify,
           Handler.handler JSON_stringify nested_question
           = failure "Failed to generate question. Please check your API key and configuration.").
Proof.
  exists (json "{'question':'Q','choices':[{'choice':'A','is_correct':true"),
         (json ",{'choice':'B','is_correct':false}],'explanation':'E','difficulty':'easy'}").
  repeat split; try reflexivity.
  discriminate.
Qed.

(** C10.  The validation of either endpoint gives the same verdict whatever
    the [difficulty] property holds.  A question that passes it without a
    difficulty makes [toLowerCase] throw on [undefined]; the catch of the
    inner [try] turns that into the generic status-500 answer, and no
    difficulty of 1 is filled in. *)
Theorem difficulty_is_not_validated :
  (forall props v,
      Handler.invalid (JObj (set props "difficulty" v)) = Handler.invalid (JObj props)
      /\ Route.invalid (JObj (set props "difficulty" v)) = Route.invalid (JObj props))
  /\ (exists data,
         JSON_parse no_difficulty = Normal data
         /\ Handler.invalid data = Normal false
         /\ field data "difficulty" = Normal JUndefined
         /\ forall JSON_stringify,
             Handler.attempt JSON_stringify no_difficulty
             = Throw (TypeError "Cannot read properties of undefined (reading 'toLowerCase')")
             /\ Handler.handler JSON_stringify no_difficulty
                = failure "Failed to generate question. Please check your API key and configuration.")
  /\ (Route.invalid choices_no_difficulty = Normal false
      /\ field choices_no_difficulty "difficulty" = Normal JUndefined
      /\ Route.respond choices_no_difficulty
         = Throw (TypeError "Cannot read properties of undefined (reading 'toLowerCase')")
      /\ try_catch (Route.respond choices_no_difficulty) Route.provider_error
         = failure "Failed to generate question. Please check your API key and configuration.").
Proof.
  split; [|split].
  - intros props v.
    unfold Handler.invalid, Route.invalid, field.
    rewrite !get_set_other by discriminate.
    split; reflexivity.
  - eexists. split; [reflexivity|].
    repeat split; reflexivity.
  - repeat split; reflexivity.
Qed.

(** ** The difficulty *)

(** The look-up [difficultyMap[key] || '1'] for a key that is not the name
    of an inherited property. *)
Lemma difficulty_code (key : string) :
  inherited key = false ->
  exists code,
    or_else (get Handler.difficultyMap key) (JStr "1") = JStr code
    /\ ((key = "easy" /\ code = "1")
        \/ (key = "medium" /\ code = "2")
        \/ (key = "hard" /\ code = "3")
        \/ (key <> "easy" /\ key <> "medium" /\ key <> "hard" /\ code = "1")).
Proof.
  intros Hin. unfold get, Handler.difficultyMap, own.
  destruct (String.eqb "easy" key) eqn:E1.
  { apply String.eqb_eq in E1. exists "1". split; [reflexivity|]. left. auto. }
  destruct (String.eqb "medium" key) eqn:E2.
  { apply String.eqb_eq in E2. exists "2". split; [reflexivity|]. right; left. auto. }
  destruct (String.eqb "hard" key) eqn:E3.
  { apply String.eqb_eq in E3. exists "3". split; [reflexivity|]. right; right; left. auto. }
  rewrite Hin. exists "1". split; [reflexivity|].
  right; right; right.
  apply String.eqb_neq in E1, E2, E3. repeat split; congruence.
Qed.

(** C1, as amended.  When the parsed object passes the validation and its
    difficulty is a string whose lower-case form is not the name of an
    inherited property, the endpoint answers 200 with a record whose
    difficulty is one of the strings "1", "2", "3": "1" for easy, "2" for
    medium, "3" for hard, compared after [toLowerCase], and "1" for every
    other label. *)
Theorem difficulty_label_is_mapped (props : Obj JsValue) (label : string) :
  get props "difficulty" = JStr label ->
  inherited (toLowerCase label) = false ->
  exists code,
    ((toLowerCase label = "easy" /\ code = "1")
     \/ (toLowerCase label = "medium" /\ code = "2")
     \/ (toLowerCase label = "hard" /\ code = "3")
     \/ (toLowerCase label <> "easy" /\ toLowerCase label <> "medium"
         /\ toLowerCase label <> "hard" /\ code = "1"))
    /\ (Handler.invalid (JObj props) = Normal false ->
        forall JSON_stringify, exists body,
          Handler.respond JSON_stringify (JObj props)
          = Normal {| status := 200; body := JObj body |}
          /\ get body "difficulty" = JStr code)
    /\ (Route.invalid (JObj props) = Normal false ->
        exists body,
          Route.respond (JObj props) = Normal {| status := 200; body := JObj body |}
          /\ get body "difficulty" = JStr code).
Proof.
  intros Hd Hin.
  destruct (difficulty_code (toLowerCase label) Hin) as (code & Hcode & Hcases).
  exists code. split; [exact Hcases|]. split.
  - intros Hv JSON_stringify.
    unfold Handler.respond, Handler.mappedData. rewrite Hv. cbn [bind field spread].
    rewrite Hd. cbn [call_toLowerCase bind]. rewrite Hcode.
    eexists. split; [reflexivity|].
    rewrite get_set_other by discriminate. apply get_set_same.
  - intros Hv.
    unfold Route.respond, Route.mappedData. rewrite Hv. cbn [bind field].
    rewrite Hd. cbn [call_toLowerCase bind].
    change Route.difficultyMap with Handler.difficultyMap. rewrite Hcode.
    eexists. split; reflexivity.
Qed.

(** [both_formats] passes both validations; its label is written in
    capitals. *)
Lemma difficulty_label_witness :
  (forall JSON_stringify, exists body,
      Handler.respond JSON_stringify (JObj both_formats)
      = Normal {| status := 200; body := JObj body |}
      /\ get body "difficulty" = JStr "2")
  /\ (exists body,
         Route.respond (JObj both_formats)
         = Normal {| status := 200; body := JObj body |}
         /\ get body "difficulty" = JStr "2").
Proof.
  destruct (difficulty_label_is_mapped both_formats "MEDIUM" eq_refl eq_refl)
    as (code & Hc & Hh & Hr).
  assert (code = "2") as ->.
  { destruct Hc as [[H _]|[[_ H]|[[H _]|(_ & H & _)]]].
    - cbv in H. discriminate.
    - exact H.
    - cbv in H. discriminate.
    - exfalso. apply H. reflexivity. }
  split.
  - intros JSON_stringify. apply Hh. reflexivity.
  - apply Hr. reflexivity.
Defined.

(** C1 as stated fails three ways.  The difficulty of the record is the
    string "1", not a number.  A question that passes the validation without
    a difficulty gets no record at all.  And the unrecognized label
    "Constructor" is answered with the inherited [constructor], not with
    "1". *)
Lemma difficulty_counterexample :
  (exists data,
      JSON_parse plain_question = Normal data
      /\ Handler.invalid data = Normal false
      /\ forall JSON_stringify, exists body,
          Handler.handler JSON_stringify plain_question
          = {| status := 200; body := JObj body |}
          /\ get body "difficulty" = JStr "1"
          /\ forall n, get body "difficulty" <> JNum n)
  /\ (exists data,
         JSON_parse no_difficulty = Normal data
         /\ Handler.invalid data = Normal false
         /\ forall JSON_stringify,
             status (Handler.handler JSON_stringify no_difficulty) = 500)
  /\ (exists data,
         JSON_parse inherited_label = Normal data
         /\ Handler.invalid data = Normal false
         /\ forall JSON_stringify, exists body,
             Handler.handler JSON_stringify inherited_label
             = {| status := 200; body := JObj body |}
             /\ get body "difficulty" = JInherited "constructor").
Proof.
  split; [|split].
  - eexists. split; [reflexivity|]. split; [reflexivity|].
    intros. eexists. split; [reflexivity|]. split; [reflexivity|discriminate].
  - eexists. split; [reflexivity|]. split; reflexivity.
  - eexists. split; [reflexivity|]. split; [reflexivity|].
    intros. eexists. split; reflexivity.
Qed.

(** ** The validation *)

Lemma array_includes_Exists (items : list JsValue) (x : JsValue) :
  array_includes items x = true
  <-> Exists (fun o => same_value_zero o x = true) items.
Proof.
  unfold array_includes. rewrite existsb_exists, Exists_exists. reflexivity.
Qed.

(** The validation of [handler] accepts exactly the objects with a truthy
    question, an array of two or more options and a truthy answer that the
    array includes. *)
Lemma handler_valid_iff (props : Obj JsValue) :
  Handler.invalid (JObj props) = Normal false
  <-> (truthy (get props "question") = true
       /\ exists items,
           get props "options" = JArr items
           /\ (2 <= List.length items)%nat
           /\ truthy (get props "answer") = true
           /\ Exists (fun o => same_value_zero o (get props "answer") = true) items).
Proof.
  unfold Handler.invalid. cbn [field bind].
  destruct (truthy (get props "question")) eqn:Q; cbn [negb].
  2: { split; [discriminate|]. intros [H _]. discriminate. }
  destruct (get props "options") as [| | | | |items| |] eqn:O;
    try (split; [discriminate|]; intros (_ & items' & H & _); discriminate).
  destruct (Z.of_nat (List.length items) <? 2) eqn:L.
  { split; [discriminate|]. intros (_ & items' & H & Hlen & _).
    injection H as <-. apply Z.ltb_lt in L. lia. }
  apply Z.ltb_ge in L.
  destruct (truthy (get props "answer")) eqn:A; cbn [negb].
  2: { split; [discriminate|]. intros (_ & items' & _ & _ & H & _). discriminate. }
  split.
  - intros H. injection H as H. apply negb_false_iff in H.
    split; [reflexivity|]. exists items. repeat split; try lia.
    now apply array_includes_Exists.
  - intros (_ & items' & H & _ & _ & Hex). injection H as <-.
    apply array_includes_Exists in Hex. now rewrite Hex.
Qed.

Lemma handler_invalid_total (props : Obj JsValue) :
  exists bad, Handler.invalid (JObj props) = Normal bad.
Proof.
  unfold Handler.invalid. cbn [field bind].
  destruct (truthy (get props "question")); cbn [negb]; [|eauto].
  destruct (get props "options"); eauto.
  destruct (Z.of_nat (List.length items) <? 2); [eauto|].
  destruct (truthy (get props "answer")); cbn [negb]; eauto.
Qed.

Lemma is_correct_readable (c : JsValue) :
  readable c -> exists v, Route.is_correct c = Normal v /\ truthy v = Route.flagged c.
Proof.
  intros [H1 H2]. unfold Route.flagged, Route.is_correct.
  destruct c; try contradiction; cbn [field]; eauto.
Qed.

Lemma some_readable (items : list JsValue) :
  Forall readable items ->
  some Route.is_correct items = Normal (existsb Route.flagged items).
Proof.
  induction 1 as [|c items Hc _ IH]; cbn [some existsb].
  - reflexivity.
  - destruct (is_correct_readable c Hc) as (v & -> & <-). cbn [bind].
    destruct (truthy v); [reflexivity|exact IH].
Qed.

Lemma filter_readable (items : list JsValue) :
  Forall readable items ->
  filter Route.is_correct items = Normal (List.filter Route.flagged items).
Proof.
  induction 1 as [|c items Hc _ IH]; cbn [filter List.filter].
  - reflexivity.
  - destruct (is_correct_readable c Hc) as (v & -> & <-). cbn [bind].
    rewrite IH. reflexivity.
Qed.

Lemma filter_none (items : list JsValue) :
  existsb Route.flagged items = false -> List.filter Route.flagged items = [].
Proof.
  induction items as [|c items IH]; cbn [existsb List.filter]; [reflexivity|].
  destruct (Route.flagged c); [discriminate|exact IH].
Qed.

(** The validation of [POST], on choices that can all be read, accepts
    exactly the objects with a truthy question and an array of two or more
    choices of which one has a truthy flag. *)
Lemma route_valid_iff (props : Obj JsValue) :
  (forall items, get props "choices" = JArr items -> Forall readable items) ->
  (exists bad, Route.invalid (JObj props) = Normal bad)
  /\ (Route.invalid (JObj props) = Normal false
      <-> (truthy (get props "question") = true
           /\ exists items,
               get props "choices" = JArr items
               /\ (2 <= List.length items)%nat
               /\ List.length (List.filter Route.flagged items) = 1%nat)).
Proof.
  intros Hread. unfold Route.invalid. cbn [field bind].
  destruct (truthy (get props "question")) eqn:Q; cbn [negb].
  2: { split; [eauto|]. split; [discriminate|]. intros [H _]. discriminate. }
  destruct (get props "choices") as [| | | | |items| |] eqn:O;
    try (split; [eauto|]; split; [discriminate|];
         intros (_ & items' & H & _); discriminate).
  specialize (Hread items eq_refl).
  destruct (Z.of_nat (List.length items) <? 2) eqn:L.
  { split; [eauto|]. split; [discriminate|]. intros (_ & items' & H & Hlen & _).
    injection H as <-. apply Z.ltb_lt in L. lia. }
  apply Z.ltb_ge in L.
  rewrite some_readable by assumption. cbn [bind].
  destruct (existsb Route.flagged items) eqn:E; cbn [negb].
  2: { split; [eauto|]. split; [discriminate|].
       intros (_ & items' & H & _ & Hone). injection H as <-.
       rewrite filter_none in Hone by assumption. discriminate. }
  rewrite filter_readable by assumption. cbn [bind].
  split; [eauto|]. split.
  - intros H. injection H as H. apply negb_false_iff, Z.eqb_eq in H.
    split; [reflexivity|]. exists items. repeat split; lia.
  - intros (_ & items' & H & _ & Hone). injection H as <-.
    rewrite Hone. reflexivity.
Qed.

(** C7, as amended.  For a parsed object whose difficulty is a string:
    [handler] answers 200 exactly when the question is truthy, the options
    are an array of two or more entries and the answer is truthy and equal
    to one of the entries; [POST], on choices that are neither [null] nor
    [undefined], answers 200 exactly when the question is truthy and the
    choices are an array of two or more entries of which one has a truthy
    flag.  In every other case the answer is the structure error of the
    endpoint.  (The statement about [POST] is about what it does with a
    parsed object; by [POST_never_succeeds] the pattern lets no text through
    whose object would be accepted.) *)
Theorem structure_is_validated (props : Obj JsValue) (label : string) :
  get props "difficulty" = JStr label ->
  (forall JSON_stringify,
      ((exists body,
           Handler.respond JSON_stringify (JObj props)
           = Normal {| status := 200; body := body |})
       <-> (truthy (get props "question") = true
            /\ exists items,
                get props "options" = JArr items
                /\ (2 <= List.length items)%nat
                /\ truthy (get props "answer") = true
                /\ Exists (fun o => same_value_zero o (get props "answer") = true)
                          items))
      /\ ((exists body,
              Handler.respond JSON_stringify (JObj props)
              = Normal {| status := 200; body := body |})
          \/ Handler.respond JSON_stringify (JObj props)
             = Normal (failure "Invalid question structure or answer mismatch")))
  /\ ((forall items, get props "choices" = JArr items ->
                     Forall (fun c => c <> JNull /\ c <> JUndefined) items) ->
      ((exists body,
           Route.respond (JObj props) = Normal {| status := 200; body := body |})
       <-> (truthy (get props "question") = true
            /\ exists items,
                get props "choices" = JArr items
                /\ (2 <= List.length items)%nat
                /\ List.length (List.filter Route.flagged items) = 1%nat))
      /\ ((exists body,
              Route.respond (JObj props) = Normal {| status := 200; body := body |})
          \/ Route.respond (JObj props)
             = Normal (failure "Invalid question structure. Must have exactly one correct choice."))).
Proof.
  intros Hd. split.
  - intros JSON_stringify.
    rewrite <- handler_valid_iff.
    unfold Handler.respond, Handler.mappedData.
    destruct (handler_invalid_total props) as ([|] & ->); cbn [bind field spread].
    + split; [|right; reflexivity].
      split; [intros [body H]|]; discriminate.
    + rewrite Hd. cbn [call_toLowerCase bind].
      split; [|left; eauto]. split; eauto.
  - intros Hread.
    destruct (route_valid_iff props Hread) as ((bad & Hbad) & Hiff).
    rewrite <- Hiff.
    unfold Route.respond, Route.mappedData. rewrite Hbad.
    destruct bad; cbn [bind field].
    + split; [|right; reflexivity].
      split; [intros [body H]|]; discriminate.
    + rewrite Hd. cbn [call_toLowerCase bind].
      split; [|left; eauto]. split; eauto.
Qed.

Lemma structure_witness :
  (forall JSON_stringify, exists body,
      Handler.respond JSON_stringify (JObj both_formats)
      = Normal {| status := 200; body := body |})
  /\ (exists body,
         Route.respond (JObj both_formats) = Normal {| status := 200; body := body |}).
Proof.
  destruct (structure_is_validated both_formats "MEDIUM" eq_refl) as [Hh Hr].
  split.
  - intros JSON_stringify. apply (Hh JSON_stringify).
    split; [reflexivity|]. eexists. split; [reflexivity|].
    split; [simpl; lia|]. split; [reflexivity|].
    apply Exists_cons_hd. reflexivity.
  - apply Hr.
    + intros items H. injection H as <-.
      repeat constructor; discriminate.
    + split; [reflexivity|]. eexists. split; [reflexivity|].
      split; [simpl; lia|reflexivity].
Defined.

(** C7 as stated fails three ways.  [handler] accepts a question and an
    answer that are numbers.  A question of the required shape without a
    difficulty gets neither a record nor the structure error.  And the
    validation of [POST], given a parsed object whose choices carry the
    flags 1 and 0, accepts it, where no flag is [true]. *)
Lemma structure_counterexample :
  (exists data,
      JSON_parse numeric_question = Normal (JObj data)
      /\ (forall s, get data "question" <> JStr s)
      /\ (forall s, get data "answer" <> JStr s)
      /\ forall JSON_stringify,
          status (Handler.handler JSON_stringify numeric_question) = 200)
  /\ (exists data,
         JSON_parse no_difficulty = Normal (JObj data)
         /\ get data "question" = JStr "Q"
         /\ get data "options" = JArr [JStr "a"; JStr "b"]
         /\ get data "answer" = JStr "a"
         /\ forall JSON_stringify,
             Handler.handler JSON_stringify no_difficulty
             = failure "Failed to generate question. Please check your API key and configuration.")
  /\ (exists body,
         Route.respond (JObj numeric_flags) = Normal {| status := 200; body := body |})
  /\ (forall items c,
         get numeric_flags "choices" = JArr items -> In c items ->
         field c "is_correct" <> Normal (JBool true)).
Proof.
  split; [|split; [|split]].
  - eexists. split; [reflexivity|].
    repeat split; try discriminate. 
  - eexists. repeat split; reflexivity.
  - eexists. reflexivity.
  - intros items c H Hin. injection H as <-.
    destruct Hin as [<-|[<-|[]]]; discriminate.
Qed.

End Endpoints.

(* ================================================================== *)
(** * The student test *)
(* ================================================================== *)

Section ListFacts.
Context {A B : Type}.

Lemma NoDup_firstn (n : nat) (l : list A) : NoDup l -> NoDup (firstn n l).
Proof.
  intros H. revert n. induction H as [|x l Hx _ IH]; intros [|n]; simpl;
    try constructor.
  - intros Hin. apply Hx.
    rewrite <- (firstn_skipn n l). apply in_or_app. now left.
  - apply IH.
Qed.

Lemma In_firstn (n : nat) (l : list A) (x : A) : In x (firstn n l) -> In x l.
Proof.
  intros H. rewrite <- (firstn_skipn n l). apply in_or_app. now left.
Qed.

Lemma NoDup_map_filter (f : A -> B) (p : A -> bool) (l : list A) :
  NoDup (map f l) -> NoDup (map f (List.filter p l)).
Proof.
  induction l as [|x l IH]; simpl; intros H.
  - constructor.
  - inversion H as [|? ? Hx Hl]; subst.
    destruct (p x); simpl; [|now apply IH].
    constructor; [|now apply IH].
    intros Hin. apply Hx.
    apply in_map_iff in Hin. destruct Hin as (y & Hy & Hin).
    apply filter_In in Hin. apply in_map_iff. exists y. tauto.
Qed.

Lemma length_filter_map (f : A -> B) (p : B -> bool) (l : list A) :
  List.length (List.filter p (map f l))
  = List.length (List.filter (fun x => p (f x)) l).
Proof.
  induction l as [|x l IH]; simpl; [reflexivity|].
  destruct (p (f x)); simpl; now rewrite IH.
Qed.

Lemma filter_all (p : A -> bool) (l : list A) :
  (forall x, In x l -> p x = true) -> List.filter p l = l.
Proof.
  induction l as [|x l IH]; simpl; intros H; [reflexivity|].
  rewrite (H x) by now left. f_equal. apply IH. intros y Hy. apply H. now right.
Qed.

Lemma filter_nothing (p : A -> bool) (l : list A) :
  (forall x, In x l -> p x = false) -> List.filter p l = [].
Proof.
  induction l as [|x l IH]; simpl; intros H; [reflexivity|].
  rewrite (H x) by now left. apply IH. intros y Hy. apply H. now right.
Qed.

End ListFacts.

Section Assembly.
Import Js StudentTest.

Lemma questionsWithChoices_ids (questionsData : list QuestionRow) (choicesData : list Choice) :
  map id (questionsWithChoices questionsData choicesData) = map row_id questionsData.
Proof.
  unfold questionsWithChoices. rewrite map_map. reflexivity.
Qed.

Lemma valid_iff (q : Question) :
  valid q = true
  <-> (1 <= List.length (choices q))%nat
      /\ exists c, In c (choices q) /\ is_correct c = true.
Proof.
  unfold valid. rewrite andb_true_iff, Z.ltb_lt, existsb_exists. split.
  - intros [H1 H2]. split; [lia|exact H2].
  - intros [H1 H2]. split; [lia|exact H2].
Qed.

Lemma no_choices_no_valid (questionsData : list QuestionRow) :
  validQuestions questionsData [] = [].
Proof.
  unfold validQuestions, questionsWithChoices.
  induction questionsData as [|r rows IH]; simpl; [reflexivity|exact IH].
Qed.

(** What [fetchQuestions] leaves in [questions], when it starts from an
    empty list: the first five of a permutation of the valid questions. *)
Lemma fetchQuestions_selects
  (questionsData : list QuestionRow) (choicesData : list Choice) (st st' : State) :
  questions st = [] ->
  fetchQuestions questionsData choicesData st st' ->
  exists shuffled,
    Permutation (validQuestions questionsData choicesData) shuffled
    /\ questions st' = firstn 5 shuffled.
Proof.
  intros H0 H. destruct H as [Hq|Hq Hc|Hq Hc Hv|shuffled Hq Hc Hv Hs].
  - exists []. subst questionsData. split; [constructor|].
    rewrite H0. reflexivity.
  - exists []. subst choicesData. rewrite no_choices_no_valid.
    split; [constructor|]. rewrite H0. reflexivity.
  - exists []. rewrite Hv. split; [constructor|]. rewrite H0. reflexivity.
  - exists shuffled. split; [exact Hs|reflexivity].
Qed.

(** C2, as amended.  Every question that [fetchQuestions] puts in the test
    has a choice, and has a choice that is marked correct; it comes from the
    list of valid questions, which is what is shuffled, and a question
    without choices or without a correct one is not in that list. *)
Theorem assembled_questions_are_valid
  (questionsData : list QuestionRow) (choicesData : list Choice) (st st' : State) :
  questions st = [] ->
  fetchQuestions questionsData choicesData st st' ->
  (forall q, In q (questions st') ->
     In q (validQuestions questionsData choicesData)
     /\ (1 <= List.length (choices q))%nat
     /\ exists c, In c (choices q) /\ is_correct c = true)
  /\ (forall q, In q (questionsWithChoices questionsData choicesData) ->
        choices q = [] \/ (forall c, In c (choices q) -> is_correct c = false) ->
        ~ In q (validQuestions questionsData choicesData)).
Proof.
  intros H0 H.
  destruct (fetchQuestions_selects _ _ _ _ H0 H) as (shuffled & Hperm & Hsel).
  split.
  - intros q Hq. rewrite Hsel in Hq. apply In_firstn in Hq.
    apply (Permutation_in _ (Permutation_sym Hperm)) in Hq.
    split; [exact Hq|].
    apply filter_In in Hq. now apply valid_iff.
  - intros q _ Hbad Hq. apply filter_In in Hq. destruct Hq as [_ Hv].
    apply valid_iff in Hv. destruct Hv as (Hlen & c & Hc & Hcorrect).
    destruct Hbad as [Hnil|Hnone].
    + rewrite Hnil in Hc. contradiction.
    + rewrite (Hnone c Hc) in Hcorrect. discriminate.
Qed.

Lemma fetch_sample :
  fetchQuestions Quiz.rows Quiz.table initial (setQuestions Quiz.assembled initial).
Proof.
  apply (fetch_selected Quiz.rows Quiz.table initial Quiz.assembled);
    try discriminate.
  apply Permutation_refl.
Qed.

Lemma assembled_questions_witness :
  (forall q, In q Quiz.assembled ->
     In q (validQuestions Quiz.rows Quiz.table)
     /\ (1 <= List.length (choices q))%nat
     /\ exists c, In c (choices q) /\ is_correct c = true)
  /\ (forall q, In q (questionsWithChoices Quiz.rows Quiz.table) ->
        choices q = [] \/ (forall c, In c (choices q) -> is_correct c = false) ->
        ~ In q (validQuestions Quiz.rows Quiz.table)).
Proof.
  apply (assembled_questions_are_valid
           Quiz.rows Quiz.table initial (setQuestions Quiz.assembled initial)).
  - reflexivity.
  - exact fetch_sample.
Defined.

(** C2 as stated fails on a question with two choices marked correct:
    [fetchQuestions] puts it in the test. *)
Lemma two_correct_counterexample :
  fetchQuestions Quiz.two_correct_rows Quiz.two_correct_choices initial
                 (setQuestions [Quiz.two_correct_question] initial)
  /\ In Quiz.two_correct_question
        (questions (setQuestions [Quiz.two_correct_question] initial))
  /\ List.length (List.filter is_correct (choices Quiz.two_correct_question)) = 2%nat.
Proof.
  split; [|split].
  - apply (fetch_selected Quiz.two_correct_rows Quiz.two_correct_choices initial
                          [Quiz.two_correct_question]);
      try discriminate.
    apply Permutation_refl.
  - left. reflexivity.
  - reflexivity.
Qed.

(** C4.  When the rows have distinct identifiers and some question is
    valid, [fetchQuestions] sets a sample: its size is the smaller of 5 and
    the number of valid questions, its questions have distinct identifiers
    (so they are distinct), and each is one of the valid questions. *)
Theorem sample_of_valid_questions
  (questionsData : list QuestionRow) (choicesData : list Choice) (st : State) :
  NoDup (map row_id questionsData) ->
  validQuestions questionsData choicesData <> [] ->
  (exists st', fetchQuestions questionsData choicesData st st')
  /\ forall st',
      fetchQuestions questionsData choicesData st st' ->
      List.length (questions st')
      = Nat.min 5 (List.length (validQuestions questionsData choicesData))
      /\ NoDup (map id (questions st'))
      /\ NoDup (questions st')
      /\ forall q, In q (questions st') ->
                   In q (validQuestions questionsData choicesData).
Proof.
  intros Hids Hne.
  assert (Hq : questionsData <> []).
  { intros ->. now apply Hne. }
  assert (Hc : choicesData <> []).
  { intros ->. apply Hne, no_choices_no_valid. }
  split.
  - exists (setQuestions (slice0 (validQuestions questionsData choicesData) 5) st).
    apply fetch_selected; try assumption. apply Permutation_refl.
  - intros st' H. destruct H as [E|_ E|_ _ E|shuffled _ _ _ Hs];
      try contradiction.
    unfold sort_random in Hs. cbn [questions setQuestions]. unfold slice0.
    assert (Hnd : NoDup (map id shuffled)).
    { apply (Permutation_NoDup (Permutation_map id Hs)).
      unfold validQuestions. apply NoDup_map_filter.
      now rewrite questionsWithChoices_ids. }
    assert (Hnd5 : NoDup (map id (firstn 5 shuffled))).
    { rewrite <- firstn_map. now apply NoDup_firstn. }
    split; [|split; [|split]].
    + rewrite length_firstn. now rewrite (Permutation_length Hs).
    + exact Hnd5.
    + exact (NoDup_map_inv _ _ Hnd5).
    + intros q Hin. apply In_firstn in Hin.
      exact (Permutation_in _ (Permutation_sym Hs) Hin).
Qed.

Lemma sample_witness :
  (exists st', fetchQuestions Quiz.rows Quiz.table initial st')
  /\ forall st',
      fetchQuestions Quiz.rows Quiz.table initial st' ->
      List.length (questions st')
      = Nat.min 5 (List.length (validQuestions Quiz.rows Quiz.table))
      /\ NoDup (map id (questions st'))
      /\ NoDup (questions st')
      /\ forall q, In q (questions st') -> In q (validQuestions Quiz.rows Quiz.table).
Proof.
  apply (sample_of_valid_questions Quiz.rows Quiz.table initial).
  - repeat constructor; simpl; intuition discriminate.
  - discriminate.
Defined.

End Assembly.

Section Scoring.
Import Js StudentTest.

Lemma own_map {A B : Type} (f : A -> B) (props : Obj A) (k : string) :
  own (map (fun '(k', a) => (k', f a)) props) k = option_map f (own props k).
Proof.
  induction props as [|[k' a] props IH]; simpl; [reflexivity|].
  destruct (String.eqb k' k); [reflexivity|exact IH].
Qed.

(** What [selectedAnswers[id]] evaluates to is a string only when the
    answer has been selected. *)
Lemma selected_cases (answers : Obj string) (i : string) :
  match own answers i with
  | Some a => selected answers i = JStr a
  | None => selected answers i = JUndefined \/ selected answers i = JInherited i
  end.
Proof.
  unfold selected, get. rewrite own_map.
  destruct (own answers i); simpl; [reflexivity|].
  destruct (inherited i); auto.
Qed.

Lemma valid_has_correct (q : Question) :
  valid q = true -> exists c, correctChoice q = Some c.
Proof.
  unfold valid, correctChoice. rewrite andb_true_iff. intros [_ H].
  apply existsb_exists in H. destruct H as (c & Hin & Hc).
  destruct (find is_correct (choices q)) eqn:F; [eauto|].
  now rewrite (find_none _ _ F c Hin) in Hc.
Qed.

(** The comparison [selectedAnswer === correctChoice?.choice] on a valid
    question: the answer has been selected and its text is that of the
    correct choice. *)
Lemma isCorrect_valid (answers : Obj string) (q : Question) :
  valid q = true ->
  strict_eq (selected answers (id q)) (correctText q)
  = match own answers (id q), correctChoice q with
    | Some a, Some c => String.eqb a (choice c)
    | _, _ => false
    end.
Proof.
  intros Hv. destruct (valid_has_correct q Hv) as (c & Hc).
  unfold correctText. rewrite Hc.
  pose proof (selected_cases answers (id q)) as Hs.
  destruct (own answers (id q)) as [a|].
  - rewrite Hs. reflexivity.
  - destruct Hs as [-> | ->]; reflexivity.
Qed.

(** What [find] returns is the first of the choices that are marked
    correct. *)
Lemma find_is_first (p : Choice -> bool) (l : list Choice) :
  find p l = hd_error (List.filter p l).
Proof.
  induction l as [|c l IH]; [reflexivity|].
  cbn [find List.filter]. destruct (p c); [reflexivity|exact IH].
Qed.

(** The first of the choices that are marked correct: it is marked correct,
    and no choice before it is. *)
Lemma first_marked (l : list Choice) (c : Choice) :
  hd_error (List.filter is_correct l) = Some c
  <-> exists earlier later,
        l = (earlier ++ c :: later)%list
        /\ Forall (fun x => is_correct x = false) earlier
        /\ is_correct c = true.
Proof.
  split.
  - induction l as [|x l IH]; [discriminate|].
    cbn [List.filter]. destruct (is_correct x) eqn:E.
    + intros H. injection H as <-. exists [], l. split; [reflexivity|]. split; [constructor|exact E].
    + intros H. destruct (IH H) as (earlier & later & -> & Hall & Hc).
      exists (x :: earlier), later. split; [reflexivity|]. split; [|exact Hc].
      constructor; assumption.
  - intros (earlier & later & -> & Hall & Hc).
    induction Hall as [|x earlier Hx Hall IH]; cbn [app List.filter].
    + now rewrite Hc.
    + rewrite Hx. exact IH.
Qed.

(** C3.  On questions that have passed the filter of [fetchQuestions], the
    score is the number of questions whose selected answer is equal, as a
    text, to the text of the correct choice, which is the first of the
    question's choices whose flag [is_correct] is true; the total is the
    number of questions.  When every question is answered with the text of
    that choice the score is that number, and with no answer selected it
    is 0.  [handleSubmit] stores this result when the remote calls
    succeed. *)
Theorem score_counts_exact_matches (st : State) :
  (forall q, In q (questions st) -> valid q = true) ->
  score (computeResult st)
  = Z.of_nat
      (List.length
         (List.filter
            (fun q =>
               match own (selectedAnswers st) (id q),
                     hd_error (List.filter is_correct (choices q)) with
               | Some a, Some c => String.eqb a (choice c)
               | _, _ => false
               end)
            (questions st)))
  /\ (forall q, In q (questions st) ->
        exists earlier c later,
          choices q = (earlier ++ c :: later)%list
          /\ Forall (fun x => is_correct x = false) earlier
          /\ is_correct c = true
          /\ hd_error (List.filter is_correct (choices q)) = Some c)
  /\ total (computeResult st) = Z.of_nat (List.length (questions st))
  /\ ((forall q, In q (questions st) ->
         exists c, hd_error (List.filter is_correct (choices q)) = Some c
                   /\ own (selectedAnswers st) (id q) = Some (choice c)) ->
      score (computeResult st) = Z.of_nat (List.length (questions st)))
  /\ (selectedAnswers st = [] -> score (computeResult st) = 0)
  /\ (questions st <> [] ->
      testResult (handleSubmit true st) = Some (computeResult st)).
Proof.
  intros Hvalid.
  assert (Hscore :
    score (computeResult st)
    = Z.of_nat
        (List.length
           (List.filter
              (fun q =>
                 match own (selectedAnswers st) (id q),
                       hd_error (List.filter is_correct (choices q)) with
                 | Some a, Some c => String.eqb a (choice c)
                 | _, _ => false
                 end)
              (questions st)))).
  { cbn [computeResult score]. unfold assessmentResults.
    rewrite length_filter_map. cbn [result_is_correct]. f_equal. f_equal.
    apply filter_ext_in. intros q Hq.
    rewrite (isCorrect_valid _ q (Hvalid q Hq)). unfold correctChoice.
    now rewrite find_is_first. }
  split; [exact Hscore|]. split.
  { intros q Hq. destruct (valid_has_correct q (Hvalid q Hq)) as (c & Hc).
    unfold correctChoice in Hc. rewrite find_is_first in Hc.
    destruct (proj1 (first_marked _ _) Hc) as (earlier & later & Hl & Hall & Hm).
    exists earlier, c, later. repeat split; assumption. }
  split; [reflexivity|]. split; [|split].
  - intros Hall. rewrite Hscore. f_equal. f_equal. apply filter_all.
    intros q Hq. destruct (Hall q Hq) as (c & -> & ->). apply String.eqb_refl.
  - intros Hempty. rewrite Hscore, Hempty.
    rewrite filter_nothing; reflexivity.
  - intros Hne. unfold handleSubmit.
    destruct (questions st); [contradiction|reflexivity].
Qed.

(** In [under_way] the first answer is the correct text and the second is
    not: the score is 1 of 2.  In [second_marked] the answer is the text of
    the second choice, the one that is marked: the score is 1 of 1. *)
Lemma score_witness :
  score (computeResult Quiz.under_way) = 1
  /\ total (computeResult Quiz.under_way) = 2
  /\ testResult (handleSubmit true Quiz.under_way)
     = Some (computeResult Quiz.under_way)
  /\ score (computeResult Quiz.second_marked) = 1
  /\ total (computeResult Quiz.second_marked) = 1.
Proof.
  assert (Hv : forall q, In q (questions Quiz.under_way) -> valid q = true).
  { intros q [<-|[<-|[]]]; reflexivity. }
  assert (Hv' : forall q, In q (questions Quiz.second_marked) -> valid q = true).
  { intros q [<-|[]]; reflexivity. }
  destruct (score_counts_exact_matches Quiz.under_way Hv) as (Hs & _ & Ht & _ & _ & Hr).
  destruct (score_counts_exact_matches Quiz.second_marked Hv')
    as (Hs' & _ & Ht' & _ & _ & _).
  split; [exact Hs|]. split; [exact Ht|].
  split; [apply Hr; discriminate|].
  split; [exact Hs'|exact Ht'].
Defined.

End Scoring.

Section Navigation.
Import Js StudentTest.

Lemma step_questions (st : State) (e : Event) : questions (step st e) = questions st.
Proof.
  destruct e; cbn [step]; unfold handleNextQuestion, handlePreviousQuestion.
  - destruct (_ <? _); reflexivity.
  - destruct (_ >? _); reflexivity.
  - reflexivity.
Qed.

(** One event keeps the index in range. *)
Lemma step_in_range (st : State) (e : Event) :
  0 <= currentQuestionIndex st < Z.of_nat (List.length (questions st)) ->
  0 <= currentQuestionIndex (step st e) < Z.of_nat (List.length (questions st)).
Proof.
  intros H. destruct e; cbn [step]; unfold handleNextQuestion, handlePreviousQuestion.
  - destruct (_ <? _) eqn:E; [|exact H].
    apply Z.ltb_lt in E. cbn [currentQuestionIndex setCurrentQuestionIndex]. lia.
  - destruct (_ >? _) eqn:E; [|exact H].
    apply Z.gtb_lt in E. cbn [currentQuestionIndex setCurrentQuestionIndex]. lia.
  - exact H.
Qed.

Lemma run_in_range (events : list Event) (st : State) :
  0 <= currentQuestionIndex st < Z.of_nat (List.length (questions st)) ->
  0 <= currentQuestionIndex (run st events) < Z.of_nat (List.length (questions st))
  /\ questions (run st events) = questions st.
Proof.
  revert st. induction events as [|e events IH]; intros st H; cbn [run fold_left].
  - split; [exact H|reflexivity].
  - pose proof (step_in_range st e H) as H'.
    rewrite <- (step_questions st e) in H' |- *.
    exact (IH (step st e) H').
Qed.

(** C9.  A test of one or more questions that starts at index 0 keeps its
    index within the questions through every sequence of events, and the
    questions stay the same.  [Next] adds one exactly when the index is below
    the last one, [Previous] takes one off exactly when the index is above
    0, and a selection leaves the index alone: it sets the answer of its
    question, replacing an earlier one, and keeps the answers of the other
    questions. *)
Theorem navigation_stays_in_range (st : State) (events : list Event) :
  questions st <> [] ->
  currentQuestionIndex st = 0 ->
  (0 <= currentQuestionIndex (run st events) < Z.of_nat (List.length (questions st))
   /\ questions (run st events) = questions st)
  /\ (forall s,
         currentQuestionIndex (step s Next)
         = (if currentQuestionIndex s <? Z.of_nat (List.length (questions s)) - 1
            then currentQuestionIndex s + 1 else currentQuestionIndex s)
         /\ selectedAnswers (step s Next) = selectedAnswers s)
  /\ (forall s,
         currentQuestionIndex (step s Previous)
         = (if 0 <? currentQuestionIndex s
            then currentQuestionIndex s - 1 else currentQuestionIndex s)
         /\ selectedAnswers (step s Previous) = selectedAnswers s)
  /\ (forall s questionId answer,
         currentQuestionIndex (step s (Select questionId answer))
         = currentQuestionIndex s
         /\ questions (step s (Select questionId answer)) = questions s
         /\ testResult (step s (Select questionId answer)) = testResult s
         /\ own (selectedAnswers (step s (Select questionId answer))) questionId
            = Some answer
         /\ forall other, questionId <> other ->
              own (selectedAnswers (step s (Select questionId answer))) other
              = own (selectedAnswers s) other).
Proof.
  intros Hne H0. split; [|split; [|split]].
  - apply run_in_range. rewrite H0.
    destruct (questions st); [contradiction|]. cbn [List.length]. lia.
  - intros s. cbn [step]. unfold handleNextQuestion.
    destruct (_ <? _); split; reflexivity.
  - intros s. cbn [step]. unfold handlePreviousQuestion.
    rewrite Z.gtb_ltb. destruct (_ <? _); split; reflexivity.
  - intros s questionId answer. cbn [step]. unfold handleAnswerSelect.
    cbn [setSelectedAnswers currentQuestionIndex questions testResult selectedAnswers].
    repeat split.
    + apply own_set_same.
    + intros other Hother. now apply own_set_other.
Qed.

(** On the sample test of two questions: forward twice, an answer, back
    three times, forward once ends on the second question. *)
Lemma navigation_witness :
  0 <= currentQuestionIndex
         (run Quiz.under_way
              [Next; Next; Select "q2" "LIFO"; Previous; Previous; Previous; Next])
    < 2
  /\ currentQuestionIndex
       (run Quiz.under_way
            [Next; Next; Select "q2" "LIFO"; Previous; Previous; Previous; Next])
     = 1
  /\ own (selectedAnswers
            (run Quiz.under_way
                 [Next; Next; Select "q2" "LIFO"; Previous; Previous; Previous; Next]))
         "q2"
     = Some "LIFO".
Proof.
  split; [|split; reflexivity].
  apply (navigation_stays_in_range
           Quiz.under_way
           [Next; Next; Select "q2" "LIFO"; Previous; Previous; Previous; Next]).
  - discriminate.
  - reflexivity.
Defined.

End Navigation.

(* ================================================================== *)
(** * The endpoints from the request on: what they answer *)
(* ================================================================== *)

Section ApiFacts.
Import Js Json.

Lemma starts_with_split (p s : string) :
  starts_with p s = true -> exists rest, s = p ++ rest.
Proof.
  revert s. induction p as [|a p IH]; intros s H.
  - exists s. reflexivity.
  - destruct s as [|b s]; [discriminate|]. cbn [starts_with] in H.
    apply andb_true_iff in H. destruct H as [Hab Hp].
    apply Ascii.eqb_eq in Hab. subst b.
    destruct (IH s Hp) as (rest & ->). exists rest. reflexivity.
Qed.

Lemma includes_split (s p : string) :
  includes s p = true -> exists pre post, s = pre ++ p ++ post.
Proof.
  induction s as [|c s IH]; cbn [includes]; intros H.
  - rewrite orb_false_r in H. destruct (starts_with_split _ _ H) as (rest & ->).
    exists "", rest. reflexivity.
  - apply orb_true_iff in H. destruct H as [H|H].
    + destruct (starts_with_split _ _ H) as (rest & ->). exists "", rest. reflexivity.
    + destruct (IH H) as (pre & post & ->). exists (String c pre), post. reflexivity.
Qed.

(** A piece of a text without [p] is without [p]. *)
Lemma includes_piece (a b c p : string) :
  includes (a ++ b ++ c) p = false -> includes b p = false.
Proof.
  intros H. destruct (includes b p) eqn:E; [|reflexivity].
  destruct (includes_split _ _ E) as (pre & post & ->).
  rewrite <- H. symmetry.
  replace (a ++ (pre ++ p ++ post) ++ c) with ((a ++ pre) ++ p ++ (post ++ c)).
  - apply includes_app.
  - now rewrite !string_app_assoc.
Qed.

Lemma upto_close_first (mid post : string) :
  includes mid "}" = false ->
  upto_close (mid ++ String "}" post) = Some (mid ++ "}").
Proof.
  induction mid as [|c mid IH]; intros H.
  - reflexivity.
  - cbn [includes starts_with] in H. rewrite Ascii.eqb_sym in H.
    cbn [append upto_close].
    destruct (Ascii.eqb c "}"); [discriminate|].
    cbn [andb orb] in H. rewrite (IH H). reflexivity.
Qed.

Lemma match_braces_skips (pre s : string) :
  includes pre "{" = false -> match_braces (pre ++ s) = match_braces s.
Proof.
  induction pre as [|c pre IH]; intros H.
  - reflexivity.
  - cbn [includes starts_with] in H. rewrite Ascii.eqb_sym in H.
    cbn [append match_braces].
    destruct (Ascii.eqb c "{"); [discriminate|].
    cbn [andb orb] in H. exact (IH H).
Qed.

(** X1.  A flat object with prose around it: when the text before has no
    opening brace and the object has no closing brace but its last, the
    pattern cuts out exactly the object, and both endpoints answer a text
    without HTML marker as they answer the object alone. *)
Theorem prose_around_the_object_is_ignored (pre mid post : string) :
  includes pre "{" = false ->
  includes mid "}" = false ->
  includes (pre ++ ("{" ++ mid ++ "}") ++ post) "<!DOCTYPE" = false ->
  includes (pre ++ ("{" ++ mid ++ "}") ++ post) "<html" = false ->
  match_braces (pre ++ ("{" ++ mid ++ "}") ++ post) = Some ("{" ++ mid ++ "}")
  /\ (forall JSON_stringify,
         Handler.handler JSON_stringify (pre ++ ("{" ++ mid ++ "}") ++ post)
         = Handler.handler JSON_stringify ("{" ++ mid ++ "}"))
  /\ Route.POST (pre ++ ("{" ++ mid ++ "}") ++ post) = Route.POST ("{" ++ mid ++ "}").
Proof.
  intros Hpre Hmid H1 H2.
  assert (Hcut : forall rest,
             match_braces (("{" ++ mid ++ "}") ++ rest) = Some ("{" ++ mid ++ "}")).
  { intros rest. cbn [append match_braces].
    change (Ascii.eqb "{" "{") with true. cbv iota.
    rewrite string_app_assoc. cbn [append].
    now rewrite upto_close_first. }
  assert (Hm : match_braces (pre ++ ("{" ++ mid ++ "}") ++ post)
               = Some ("{" ++ mid ++ "}")).
  { rewrite match_braces_skips by assumption. apply Hcut. }
  assert (Hm' : match_braces ("{" ++ mid ++ "}") = Some ("{" ++ mid ++ "}")).
  { specialize (Hcut ""). 
    replace (("{" ++ mid ++ "}") ++ "") with ("{" ++ mid ++ "}") in Hcut; [exact Hcut|].
    clear. generalize ("{" ++ mid ++ "}"). intros s.
    induction s as [|c s IH]; simpl; [reflexivity|now rewrite <- IH]. }
  pose proof (includes_piece _ _ _ _ H1) as H1'.
  pose proof (includes_piece _ _ _ _ H2) as H2'.
  split; [exact Hm|]. split.
  - intros JSON_stringify. unfold Handler.handler, Handler.attempt.
    rewrite H1, H2, H1', H2', Hm, Hm'. reflexivity.
  - unfold Route.POST, Route.attempt, Route.extract.
    rewrite H1, H2, H1', H2', Hm, Hm'. reflexivity.
Qed.

Lemma prose_witness :
  match_braces
    (json "Sure, here it is: {'question':'Q','options':['a','b'],'answer':'a','difficulty':'easy'} Good luck!")
  = Some Samples.plain_question
  /\ (forall JSON_stringify,
         Handler.handler JSON_stringify
           (json "Sure, here it is: {'question':'Q','options':['a','b'],'answer':'a','difficulty':'easy'} Good luck!")
         = Handler.handler JSON_stringify Samples.plain_question)
  /\ Route.POST
       (json "Sure, here it is: {'question':'Q','options':['a','b'],'answer':'a','difficulty':'easy'} Good luck!")
     = Route.POST Samples.plain_question.
Proof.
  apply (prose_around_the_object_is_ignored
           "Sure, here it is: "
           (json "'question':'Q','options':['a','b'],'answer':'a','difficulty':'easy'")
           " Good luck!"); reflexivity.
Defined.

End ApiFacts.

Section ApiRequests.
Import Js Json Samples.

Lemma accumulate_from (stream : list Api.Chunk) (start : string) :
  fold_left (fun fullResponse chunk => fullResponse ++ Api.content_of chunk) stream start
  = start ++ fold_right append "" (map Api.content_of stream).
Proof.
  revert start. induction stream as [|c stream IH]; intros start; cbn [fold_left map fold_right].
  - induction start as [|x start IHs]; simpl; [reflexivity|now rewrite <- IHs].
  - rewrite IH. apply string_app_assoc.
Qed.

Lemma accumulate_concat (stream : list Api.Chunk) :
  Api.accumulate stream = fold_right append "" (map Api.content_of stream).
Proof. unfold Api.accumulate. now rewrite accumulate_from. Qed.

(** X2.  Both endpoints answer from the concatenation of the contents of
    the chunks' first choices: how the provider cuts its text into chunks
    makes no difference, and a chunk without content adds nothing. *)
Theorem chunk_boundaries_do_not_matter
  (key : option string) (stream1 stream2 : list Api.Chunk) (thrown : option Exn) :
  fold_right append "" (map Api.content_of stream1)
  = fold_right append "" (map Api.content_of stream2) ->
  (forall JSON_stringify req,
      Api.handler JSON_stringify key req {| Api.chunks := stream1; Api.thrown := thrown |}
      = Api.handler JSON_stringify key req {| Api.chunks := stream2; Api.thrown := thrown |})
  /\ (forall text,
         Api.POST key text {| Api.chunks := stream1; Api.thrown := thrown |}
         = Api.POST key text {| Api.chunks := stream2; Api.thrown := thrown |}).
Proof.
  intros H. unfold Api.handler, Api.POST. cbn [Api.chunks Api.thrown].
  rewrite !accumulate_concat, H. split; reflexivity.
Qed.

(** An HTML marker cut in two by a chunk boundary, with an empty chunk and
    a chunk without choices in between, is recognised as in one piece. *)
Lemma chunk_boundaries_witness :
  (forall JSON_stringify,
      Api.handler JSON_stringify (Some "key") {| Api.method := "POST"; Api.req_body := complete_body |}
        {| Api.chunks := [ one_chunk "<ht"; {| Api.choices := [] |};
                           {| Api.choices := [ {| Api.delta := Some {| Api.content := None |} |} ] |};
                           one_chunk "ml>" ];
           Api.thrown := None |}
      = Api.handler JSON_stringify (Some "key") {| Api.method := "POST"; Api.req_body := complete_body |}
          {| Api.chunks := [one_chunk "<html>"]; Api.thrown := None |})
  /\ (forall JSON_stringify,
         Api.handler JSON_stringify (Some "key") {| Api.method := "POST"; Api.req_body := complete_body |}
           {| Api.chunks := [one_chunk "<html>"]; Api.thrown := None |}
         = failure "API returned an error page. Please check your API key and configuration.").
Proof.
  split.
  - intros JSON_stringify.
    apply (chunk_boundaries_do_not_matter
             (Some "key")
             [ one_chunk "<ht"; {| Api.choices := [] |};
               {| Api.choices := [ {| Api.delta := Some {| Api.content := None |} |} ] |};
               one_chunk "ml>" ]
             [one_chunk "<html>"] None).
    reflexivity.
  - intros. reflexivity.
Defined.

(** X3.  The checks of [handler] before the provider is called, in the
    order in which they decide: another method than POST is answered 405; a
    body that is [null] or [undefined] is answered with the unexpected-error
    500, also when the key is not set; a key that is not set is answered
    with the configuration 500, also when fields are missing; a falsy field
    is answered 400.  None of these answers depends on the provider. *)
Theorem handler_checks_the_request_first
  (JSON_stringify : JsValue -> string) (key : option string) (req : Api.Request)
  (outcome : Api.Outcome) :
  (Api.method req <> "POST" ->
   Api.handler JSON_stringify key req outcome
   = {| status := 405; body := error "Method not allowed" |})
  /\ (Api.method req = "POST" ->
      (Api.req_body req = JNull \/ Api.req_body req = JUndefined) ->
      Api.handler JSON_stringify key req outcome
      = failure "An unexpected error occurred")
  /\ (Api.method req = "POST" ->
      readable (Api.req_body req) ->
      Api.unset key = true ->
      Api.handler JSON_stringify key req outcome = failure "API key is not configured")
  /\ (Api.method req = "POST" ->
      Api.unset key = false ->
      Api.missing_fields (Api.req_body req) = Normal true ->
      Api.handler JSON_stringify key req outcome
      = {| status := 400; body := error "Missing required fields" |}).
Proof.
  unfold Api.handler. repeat split.
  - intros H. apply String.eqb_neq in H. now rewrite H.
  - intros -> [-> | ->]; reflexivity.
  - intros -> [H1 H2] ->.
    destruct (Api.req_body req); try contradiction; reflexivity.
  - intros -> -> ->. reflexivity.
Qed.

Lemma handler_checks_witness :
  (forall JSON_stringify outcome,
      Api.handler JSON_stringify (Some "key")
                  {| Api.method := "GET"; Api.req_body := complete_body |} outcome
      = {| status := 405; body := error "Method not allowed" |})
  /\ (forall JSON_stringify outcome,
         Api.handler JSON_stringify None
                     {| Api.method := "POST"; Api.req_body := JUndefined |} outcome
         = failure "An unexpected error occurred")
  /\ (forall JSON_stringify outcome,
         Api.handler JSON_stringify (Some "")
                     {| Api.method := "POST"; Api.req_body := incomplete_body |} outcome
         = failure "API key is not configured")
  /\ (forall JSON_stringify outcome,
         Api.handler JSON_stringify (Some "key")
                     {| Api.method := "POST"; Api.req_body := incomplete_body |} outcome
         = {| status := 400; body := error "Missing required fields" |}).
Proof.
  split; [|split; [|split]]; intros JSON_stringify outcome.
  - apply (handler_checks_the_request_first
             JSON_stringify (Some "key")
             {| Api.method := "GET"; Api.req_body := complete_body |} outcome).
    discriminate.
  - apply (handler_checks_the_request_first
             JSON_stringify None
             {| Api.method := "POST"; Api.req_body := JUndefined |} outcome).
    + reflexivity.
    + right. reflexivity.
  - apply (handler_checks_the_request_first
             JSON_stringify (Some "")
             {| Api.method := "POST"; Api.req_body := incomplete_body |} outcome).
    + reflexivity.
    + split; discriminate.
    + reflexivity.
  - apply (handler_checks_the_request_first
             JSON_stringify (Some "key")
             {| Api.method := "POST"; Api.req_body := incomplete_body |} outcome);
      reflexivity.
Defined.

(** X4.  The checks of [POST] before the provider is called: a body that
    is not JSON, or that is [null], is answered with the unexpected-error
    500; then a key that is not set with the configuration 500; then a falsy
    field with 400.  None of these answers depends on the provider. *)
Theorem POST_checks_the_request_first
  (key : option string) (text : string) (outcome : Api.Outcome) :
  (forall e, JSON_parse text = Throw e ->
             Api.POST key text outcome
             = failure "An unexpected error occurred. Please try again.")
  /\ (JSON_parse text = Normal JNull ->
      Api.POST key text outcome
      = failure "An unexpected error occurred. Please try again.")
  /\ (forall body,
         JSON_parse text = Normal body -> readable body ->
         Api.unset key = true ->
         Api.POST key text outcome
         = failure "API key is not configured. Please check your environment variables.")
  /\ (forall body,
         JSON_parse text = Normal body ->
         Api.unset key = false ->
         Api.missing_fields body = Normal true ->
         Api.POST key text outcome
         = {| status := 400;
              body := error "Missing required fields: course, chapter, or learning objective" |}).
Proof.
  unfold Api.POST. repeat split.
  - intros e ->. reflexivity.
  - intros ->. reflexivity.
  - intros body -> [H1 H2] ->.
    destruct body; try contradiction; reflexivity.
  - intros body ->. cbn [bind]. intros -> ->. reflexivity.
Qed.

Lemma POST_checks_witness :
  (forall outcome,
      Api.POST (Some "key") "course=Data" outcome
      = failure "An unexpected error occurred. Please try again.")
  /\ (forall outcome,
         Api.POST None "null" outcome
         = failure "An unexpected error occurred. Please try again.")
  /\ (forall outcome,
         Api.POST None (json "{'course':'Data Structures'}") outcome
         = failure "API key is not configured. Please check your environment variables.")
  /\ (forall outcome,
         Api.POST (Some "key") (json "{'course':'Data Structures','chapter':''}") outcome
         = {| status := 400;
              body := error "Missing required fields: course, chapter, or learning objective" |}).
Proof.
  split; [|split; [|split]]; intros outcome.
  - apply (POST_checks_the_request_first (Some "key") "course=Data" outcome)
      with (e := SyntaxError).
    reflexivity.
  - apply (POST_checks_the_request_first None "null" outcome). reflexivity.
  - apply (POST_checks_the_request_first
             None (json "{'course':'Data Structures'}") outcome)
      with (body := JObj [("course", JStr "Data Structures")]).
    + reflexivity.
    + split; discriminate.
    + reflexivity.
  - apply (POST_checks_the_request_first
             (Some "key") (json "{'course':'Data Structures','chapter':''}") outcome)
      with (body := JObj [("course", JStr "Data Structures"); ("chapter", JStr "")]);
      reflexivity.
Defined.

(** X5.  When the call to the provider or the stream throws, what has
    arrived is dropped.  [handler] answers with its catch-all message.
    [POST] looks for a status code in the message: 401 gives the invalid-key
    message, otherwise 429 the rate-limit message, otherwise 500 the
    unavailable message, otherwise the catch-all message. *)
Theorem provider_failure_is_classified
  (key : option string) (body : JsValue) (text : string)
  (stream : list Api.Chunk) (e : Exn) :
  Api.unset key = false ->
  Api.missing_fields body = Normal false ->
  JSON_parse text = Normal body ->
  (forall JSON_stringify,
      Api.handler JSON_stringify key {| Api.method := "POST"; Api.req_body := body |}
                  {| Api.chunks := stream; Api.thrown := Some e |}
      = failure "Failed to generate question. Please check your API key and configuration.")
  /\ (includes (message e) "401" = true ->
      Api.POST key text {| Api.chunks := stream; Api.thrown := Some e |}
      = failure "Invalid API key. Please check your Together.ai API key configuration.")
  /\ (includes (message e) "401" = false -> includes (message e) "429" = true ->
      Api.POST key text {| Api.chunks := stream; Api.thrown := Some e |}
      = failure "API rate limit exceeded. Please try again later.")
  /\ (includes (message e) "401" = false -> includes (message e) "429" = false ->
      includes (message e) "500" = true ->
      Api.POST key text {| Api.chunks := stream; Api.thrown := Some e |}
      = failure "API service is currently unavailable. Please try again later.")
  /\ (includes (message e) "401" = false -> includes (message e) "429" = false ->
      includes (message e) "500" = false ->
      Api.POST key text {| Api.chunks := stream; Api.thrown := Some e |}
      = failure "Failed to generate question. Please check your API key and configuration.").
Proof.
  intros Hk Hf Hp. unfold Api.handler, Api.POST, Route.provider_error.
  cbn [Api.method Api.req_body Api.thrown].
  rewrite Hp. cbn [bind]. rewrite Hf, Hk. cbn [bind try_catch].
  change (String.eqb "POST" "POST") with true. cbn [negb].
  repeat split.
  - intros ->. reflexivity.
  - intros -> ->. reflexivity.
  - intros -> -> ->. reflexivity.
  - intros -> -> ->. reflexivity.
Qed.

(** A stream that fails after a complete question has arrived. *)
Lemma provider_failure_witness :
  (forall JSON_stringify,
      Api.handler JSON_stringify (Some "key")
                  {| Api.method := "POST"; Api.req_body := complete_body |}
                  (interrupted "429 Too Many Requests (request 401)")
      = failure "Failed to generate question. Please check your API key and configuration.")
  /\ Api.POST (Some "key")
              (json "{'course':'Data Structures','chapter':'Queues','learningObjective':'Explain FIFO'}")
              (interrupted "429 Too Many Requests (request 401)")
     = failure "Invalid API key. Please check your Together.ai API key configuration."
  /\ Api.POST (Some "key")
              (json "{'course':'Data Structures','chapter':'Queues','learningObjective':'Explain FIFO'}")
              (interrupted "socket hang up")
     = failure "Failed to generate question. Please check your API key and configuration.".
Proof.
  pose proof (fun m =>
    provider_failure_is_classified
      (Some "key") complete_body
      (json "{'course':'Data Structures','chapter':'Queues','learningObjective':'Explain FIFO'}")
      [one_chunk plain_question] (Error m) eq_refl eq_refl eq_refl) as H.
  split; [|split].
  - intros JSON_stringify.
    apply (proj1 (H "429 Too Many Requests (request 401)")).
  - apply (proj1 (proj2 (H "429 Too Many Requests (request 401)"))). reflexivity.
  - apply (proj2 (proj2 (proj2 (proj2 (H "socket hang up"))))); reflexivity.
Defined.

End ApiRequests.

Section ApiContract.
Import Js Json Samples.

Lemma provider_error_is_failure (e : Exn) : exists msg, Route.provider_error e = failure msg.
Proof.
  unfold Route.provider_error.
  destruct (includes (message e) "401"); [eauto|].
  destruct (includes (message e) "429"); [eauto|].
  destruct (includes (message e) "500"); eauto.
Qed.

(** What [POST] answers to a response text is always an error. *)
Lemma POST_answers_failure (fullResponse : string) :
  exists msg, Route.POST fullResponse = failure msg.
Proof.
  pose proof (POST_never_succeeds fullResponse) as H.
  unfold Route.POST, Route.attempt, Route.extract in *.
  destruct (includes fullResponse "<!DOCTYPE" || includes fullResponse "<html");
    [cbn; eauto|].
  destruct (match_braces fullResponse) as [jsonMatch|]; [|cbn; eauto].
  destruct (JSON_parse jsonMatch) as [data|]; [|cbn; eauto].
  unfold Route.respond in *.
  destruct (Route.invalid data) as [[|]|e]; cbn [bind try_catch] in *.
  - eauto.
  - destruct (Route.mappedData data) as [mapped|e]; cbn [bind try_catch] in *.
    + discriminate H.
    + apply provider_error_is_failure.
  - apply provider_error_is_failure.
Qed.

(** What [handler] answers to a response text is an error, or the record
    made from an object that the text holds and the validation accepts. *)
Lemma handler_answers (JSON_stringify : JsValue -> string) (fullResponse : string) :
  (exists msg, Handler.handler JSON_stringify fullResponse = failure msg)
  \/ (status (Handler.handler JSON_stringify fullResponse) = 200
      /\ exists jsonMatch data,
          match_braces fullResponse = Some jsonMatch
          /\ JSON_parse jsonMatch = Normal data
          /\ Handler.invalid data = Normal false).
Proof.
  unfold Handler.handler, Handler.attempt.
  destruct (includes fullResponse "<!DOCTYPE" || includes fullResponse "<html");
    [left; cbn; eauto|].
  destruct (match_braces fullResponse) as [jsonMatch|]; [|left; cbn; eauto].
  destruct (JSON_parse jsonMatch) as [data|] eqn:P; [|left; cbn; eauto].
  cbn [bind]. unfold Handler.respond.
  destruct (Handler.invalid data) as [[|]|e] eqn:V; cbn [bind try_catch].
  - left. eauto.
  - destruct (Handler.mappedData JSON_stringify data) as [mapped|e];
      cbn [bind try_catch].
    + right. split; [reflexivity|]. eauto.
    + left. eauto.
  - left. eauto.
Qed.

(** X6.  What the endpoints can answer.  [handler] answers 200, 400, 405 or
    500; every answer but 200 carries an object with the one property
    [error]; and 200 is answered only to a POST with the key set, when the
    provider has not thrown and the accumulated text holds an object that
    the validation accepts.  [POST] answers 400 or 500, always with an
    [error] object: it never answers 200. *)
Theorem answers_are_records_or_errors :
  (forall JSON_stringify key req outcome,
      (status (Api.handler JSON_stringify key req outcome) = 200
       \/ status (Api.handler JSON_stringify key req outcome) = 400
       \/ status (Api.handler JSON_stringify key req outcome) = 405
       \/ status (Api.handler JSON_stringify key req outcome) = 500)
      /\ (status (Api.handler JSON_stringify key req outcome) <> 200 ->
          exists msg, body (Api.handler JSON_stringify key req outcome) = error msg)
      /\ (status (Api.handler JSON_stringify key req outcome) = 200 ->
          Api.method req = "POST" /\ Api.unset key = false
          /\ Api.thrown outcome = None
          /\ exists jsonMatch data,
              match_braces (Api.accumulate (Api.chunks outcome)) = Some jsonMatch
              /\ JSON_parse jsonMatch = Normal data
              /\ Handler.invalid data = Normal false))
  /\ (forall key text outcome,
         (status (Api.POST key text outcome) = 400
          \/ status (Api.POST key text outcome) = 500)
         /\ exists msg, body (Api.POST key text outcome) = error msg).
Proof.
  split.
  - intros JSON_stringify key req outcome. unfold Api.handler.
    destruct (String.eqb (Api.method req) "POST") eqn:M; cbn [negb].
    2: { cbn. split; [auto 6|]. split; [eauto|discriminate]. }
    apply String.eqb_eq in M.
    destruct (Api.missing_fields (Api.req_body req)) as [missing|e];
      cbn [bind try_catch].
    2: { cbn. split; [auto 6|]. split; [eauto|discriminate]. }
    destruct (Api.unset key) eqn:K.
    { cbn. split; [auto 6|]. split; [eauto|discriminate]. }
    destruct missing.
    { cbn. split; [auto 6|]. split; [eauto|discriminate]. }
    cbn [try_catch].
    destruct (Api.thrown outcome) as [e|] eqn:T.
    { cbn. split; [auto 6|]. split; [eauto|discriminate]. }
    destruct (handler_answers JSON_stringify (Api.accumulate (Api.chunks outcome)))
      as [(msg & ->) | (H200 & jsonMatch & data & H)].
    + cbn. split; [auto 6|]. split; [eauto|discriminate].
    + rewrite H200. split; [auto|]. split; [intros Hne; contradiction|].
      intros _. repeat split; eauto.
  - intros key text outcome. unfold Api.POST.
    destruct (JSON_parse text) as [parsed|e]; cbn [bind try_catch].
    2: { cbn. eauto. }
    destruct (Api.missing_fields parsed) as [missing|e]; cbn [bind try_catch].
    2: { cbn. eauto. }
    destruct (Api.unset key); [cbn; eauto|].
    destruct missing; [cbn; eauto|].
    cbn [try_catch].
    destruct (Api.thrown outcome) as [e|].
    + destruct (provider_error_is_failure e) as (msg & ->). cbn. eauto.
    + destruct (POST_answers_failure (Api.accumulate (Api.chunks outcome)))
        as (msg & ->).
      cbn. eauto.
Qed.

Lemma own_set_chain (props : Obj JsValue) (k : string) (d o : JsValue) :
  k <> "difficulty" -> k <> "options" ->
  own (set (set props "difficulty" d) "options" o) k = own props k.
Proof.
  intros H1 H2. rewrite !own_set_other by congruence. reflexivity.
Qed.

(** X7.  The record of a 200 answer.  [handler] hands on every property of
    the parsed object as it is, except [difficulty] and [options]: the
    options become the string that [JSON.stringify] makes of them.  [POST]
    answers with the four properties [question], [choices], [explanation]
    and [difficulty] and nothing else; the first three are those of the
    parsed object. *)
Theorem success_record_fields (props : Obj JsValue) :
  (forall JSON_stringify answer,
      Handler.respond JSON_stringify (JObj props)
      = Normal {| status := 200; body := answer |} ->
      exists record,
        answer = JObj record
        /\ (forall k, k <> "difficulty" -> k <> "options" ->
                      own record k = own props k)
        /\ own record "options" = Some (JStr (JSON_stringify (get props "options")))
        /\ exists d, own record "difficulty" = Some d)
  /\ (forall answer,
         Route.respond (JObj props) = Normal {| status := 200; body := answer |} ->
         exists d,
           answer = JObj [ ("question", get props "question");
                           ("choices", get props "choices");
                           ("explanation", get props "explanation");
                           ("difficulty", d) ]).
Proof.
  split.
  - intros JSON_stringify answer H. unfold Handler.respond in H.
    destruct (Handler.invalid (JObj props)) as [[|]|e]; cbn [bind] in H;
      try discriminate.
    unfold Handler.mappedData in H. cbn [field bind spread] in H.
    destruct (call_toLowerCase "data.difficulty" (get props "difficulty")) as [key|e];
      cbn [bind] in H; [|discriminate].
    injection H as <-. eexists. split; [reflexivity|].
    split; [|split].
    + intros k H1 H2. now apply own_set_chain.
    + apply own_set_same.
    + eexists. rewrite own_set_other by discriminate. apply own_set_same.
  - intros answer H. unfold Route.respond in H.
    destruct (Route.invalid (JObj props)) as [[|]|e]; cbn [bind] in H;
      try discriminate.
    unfold Route.mappedData in H. cbn [field bind] in H.
    destruct (call_toLowerCase "data.difficulty" (get props "difficulty")) as [key|e];
      cbn [bind] in H; [|discriminate].
    injection H as <-. eexists. reflexivity.
Qed.

(** [both_formats] is accepted by both endpoints: [handler] hands on its
    choices, which [POST] would have to be asked for. *)
Lemma success_record_witness :
  (forall JSON_stringify, exists record,
      Handler.respond JSON_stringify (JObj both_formats)
      = Normal {| status := 200; body := JObj record |}
      /\ own record "choices" = own both_formats "choices"
      /\ own record "options" = Some (JStr (JSON_stringify (get both_formats "options"))))
  /\ (exists d,
         Route.respond (JObj both_formats)
         = Normal {| status := 200;
                     body := JObj [ ("question", get both_formats "question");
                                    ("choices", get both_formats "choices");
                                    ("explanation", get both_formats "explanation");
                                    ("difficulty", d) ] |}).
Proof.
  destruct (success_record_fields both_formats) as [Hh Hr].
  split.
  - intros JSON_stringify.
    destruct (Hh JSON_stringify _ eq_refl) as (record & Heq & Hother & Hopt & _).
    exists record. split; [|split].
    + cbn. f_equal. f_equal. injection Heq as <-. reflexivity.
    + apply Hother; discriminate.
    + exact Hopt.
  - destruct (Hr _ eq_refl) as (d & Heq).
    exists d. cbn. f_equal. f_equal. exact Heq.
Defined.

End ApiContract.

(* ================================================================== *)
(** * The student test page: taking the test *)
(* ================================================================== *)

Section TakingTheTest.
Import Js StudentTest TestPage.

(** X8.  While a test of one or more questions is taken from index 0, the
    question to display always exists: it is one of the questions of the
    test, whatever sequence of events has been handled, and the page shows
    it until a result is stored. *)
Theorem current_question_is_defined (st : State) (events : list Event) :
  questions st <> [] ->
  currentQuestionIndex st = 0 ->
  testResult st = None ->
  exists q,
    currentQuestion (run st events) = Some q
    /\ In q (questions st)
    /\ render (run st events)
       = Asking (Some q) (negb (previousDisabled (run st events)))
                (submitOffered (run st events)).
Proof.
  intros Hne H0 Hres.
  assert (Hrange : 0 <= currentQuestionIndex st < Z.of_nat (List.length (questions st))).
  { rewrite H0. destruct (questions st); [contradiction|]. cbn [List.length]. lia. }
  destruct (run_in_range events st Hrange) as [Hin Hq].
  assert (Hr : testResult (run st events) = None).
  { clear - Hres. revert st Hres. induction events as [|e events IH]; intros st Hres.
    - exact Hres.
    - cbn [run fold_left]. apply IH.
      destruct e; cbn [step]; unfold handleNextQuestion, handlePreviousQuestion.
      + destruct (_ <? _); exact Hres.
      + destruct (_ >? _); exact Hres.
      + exact Hres. }
  unfold currentQuestion.
  destruct (currentQuestionIndex (run st events) <? 0) eqn:E.
  { apply Z.ltb_lt in E. lia. }
  destruct (nth_error (questions (run st events))
                      (Z.to_nat (currentQuestionIndex (run st events)))) as [q|] eqn:N.
  - exists q. split; [reflexivity|]. split.
    + rewrite <- Hq. eapply nth_error_In. exact N.
    + unfold render, currentQuestion. rewrite E, N, Hr, Hq.
      destruct (questions st); [contradiction|reflexivity].
  - apply nth_error_None in N. rewrite Hq in N. lia.
Qed.

Lemma current_question_witness :
  exists q,
    currentQuestion
      (run Quiz.under_way [Next; Next; Select "q2" "LIFO"; Previous; Previous; Next])
    = Some q
    /\ In q Quiz.assembled
    /\ render (run Quiz.under_way
                   [Next; Next; Select "q2" "LIFO"; Previous; Previous; Next])
       = Asking (Some q) true true.
Proof.
  apply (current_question_is_defined
           Quiz.under_way
           [Next; Next; Select "q2" "LIFO"; Previous; Previous; Next]).
  - discriminate.
  - reflexivity.
  - reflexivity.
Defined.

Lemma run_app (st : State) (a b : list Event) : run st (a ++ b) = run (run st a) b.
Proof. unfold run. apply fold_left_app. Qed.

Lemma next_index (st : State) :
  0 <= currentQuestionIndex st < Z.of_nat (List.length (questions st)) ->
  currentQuestionIndex (handleNextQuestion st)
  = Z.min (currentQuestionIndex st + 1) (Z.of_nat (List.length (questions st)) - 1).
Proof.
  intros H. unfold handleNextQuestion.
  destruct (_ <? _) eqn:E; cbn [currentQuestionIndex setCurrentQuestionIndex].
  - apply Z.ltb_lt in E. lia.
  - apply Z.ltb_ge in E. lia.
Qed.

(** X9.  From index 0 of a test of one or more questions, [k] clicks on
    Next lead to question [k], or to the last question when the test has
    fewer: the Submit button is offered exactly when [k] is at least the index
    of the last question.  Where Next moves, Previous moves back to the same
    state. *)
Theorem next_reaches_the_last_question (st : State) (k : nat) :
  questions st <> [] ->
  currentQuestionIndex st = 0 ->
  currentQuestionIndex (run st (repeat Next k))
  = Z.min (Z.of_nat k) (Z.of_nat (List.length (questions st)) - 1)
  /\ (submitOffered (run st (repeat Next k)) = true
      <-> Z.of_nat (List.length (questions st)) - 1 <= Z.of_nat k)
  /\ (forall s,
         0 <= currentQuestionIndex s < Z.of_nat (List.length (questions s)) - 1 ->
         handlePreviousQuestion (handleNextQuestion s) = s).
Proof.
  intros Hne H0.
  assert (Hlen : 1 <= Z.of_nat (List.length (questions st))).
  { destruct (questions st); [contradiction|]. cbn [List.length]. lia. }
  assert (Hidx : currentQuestionIndex (run st (repeat Next k))
                 = Z.min (Z.of_nat k) (Z.of_nat (List.length (questions st)) - 1)
                 /\ questions (run st (repeat Next k)) = questions st).
  { induction k as [|k IH].
    - cbn [repeat run fold_left]. split; [lia|reflexivity].
    - replace (repeat Next (S k)) with (repeat Next k ++ [Next])%list.
      2: { clear. induction k as [|k IH]; cbn [repeat app]; [reflexivity|].
           now rewrite IH. }
      rewrite run_app. destruct IH as [IHi IHq].
      cbn [run fold_left step]. split.
      + rewrite next_index; rewrite ?IHq, ?IHi; lia.
      + rewrite <- IHq. apply (step_questions _ Next). }
  destruct Hidx as [Hi Hq].
  split; [exact Hi|]. split.
  - unfold submitOffered. rewrite Hi, Hq, Z.eqb_eq. lia.
  - intros s Hs. unfold handleNextQuestion.
    destruct (_ <? _) eqn:E; [|apply Z.ltb_ge in E; lia].
    unfold handlePreviousQuestion.
    cbn [currentQuestionIndex setCurrentQuestionIndex].
    destruct (_ >? _) eqn:E'; [|rewrite Z.gtb_ltb in E'; apply Z.ltb_ge in E'; lia].
    destruct s as [qs sa i tr]. unfold setCurrentQuestionIndex.
    cbn [questions selectedAnswers currentQuestionIndex testResult].
    f_equal. lia.
Qed.

Lemma next_witness :
  currentQuestionIndex (run Quiz.under_way (repeat Next 3)) = 1
  /\ submitOffered (run Quiz.under_way (repeat Next 3)) = true
  /\ handlePreviousQuestion (handleNextQuestion Quiz.under_way) = Quiz.under_way.
Proof.
  destruct (next_reaches_the_last_question Quiz.under_way 3) as (Hi & Hs & Hback).
  - discriminate.
  - reflexivity.
  - split; [exact Hi|]. split.
    + apply Hs. cbn. lia.
    + apply Hback. cbn. lia.
Defined.

Lemma length_filter_le {A} (p : A -> bool) (l : list A) :
  (List.length (List.filter p l) <= List.length l)%nat.
Proof.
  induction l as [|x l IH]; cbn [List.filter List.length]; [lia|].
  destruct (p x); cbn [List.length]; lia.
Qed.

(** X10.  The stored result is consistent, for every state: there is one
    answer per question, in the order of the questions and under their
    identifiers; the total is their number; the score is the number of
    answers marked correct, so it lies between 0 and the total. *)
Theorem result_is_consistent (st : State) :
  map questionId (answers (computeResult st)) = map id (questions st)
  /\ total (computeResult st) = Z.of_nat (List.length (answers (computeResult st)))
  /\ score (computeResult st)
     = Z.of_nat (List.length (List.filter isCorrect (answers (computeResult st))))
  /\ 0 <= score (computeResult st) <= total (computeResult st).
Proof.
  cbn [computeResult answers total score]. unfold assessmentResults.
  rewrite !length_filter_map, map_map, length_map. cbn [questionId isCorrect result_is_correct].
  repeat split.
  - lia.
  - pose proof (length_filter_le
                  (fun q => strict_eq (selected (selectedAnswers st) (id q)) (correctText q))
                  (questions st)).
    lia.
Qed.

Lemma run_keeps_answer (events : list Event) (st : State) (i : string) :
  (forall a, ~ In (Select i a) events) ->
  own (selectedAnswers (run st events)) i = own (selectedAnswers st) i.
Proof.
  revert st. induction events as [|e events IH]; intros st H; cbn [run fold_left].
  - reflexivity.
  - change (fold_left step events (step st e)) with (run (step st e) events).
    rewrite IH.
    2: { intros a Hin. apply (H a). now right. }
    destruct e as [| |j b]; cbn [step]; unfold handleNextQuestion, handlePreviousQuestion.
    + destruct (_ <? _); reflexivity.
    + destruct (_ >? _); reflexivity.
    + unfold handleAnswerSelect. cbn [selectedAnswers setSelectedAnswers].
      apply own_set_other. intros ->. apply (H b). now left.
Qed.

(** X11.  The answer that counts for a question is the last one selected
    for it: after any events, a selection for the question and then events
    without a selection for it, the stored answer is that selection, and a
    valid question with that identifier is marked correct exactly when the
    selected text is the text of the first of its choices whose flag
    [is_correct] is true.  Moving between questions and selecting for other
    questions do not change it. *)
Theorem last_selection_counts
  (st : State) (before after : list Event) (i a : string) :
  (forall a', ~ In (Select i a') after) ->
  own (selectedAnswers (run st (before ++ Select i a :: after)%list)) i = Some a
  /\ forall q,
      In q (questions st) -> id q = i -> valid q = true ->
      exists earlier c later,
        choices q = (earlier ++ c :: later)%list
        /\ Forall (fun x => is_correct x = false) earlier
        /\ is_correct c = true
        /\ In {| questionId := i; selectedAnswer := JStr a;
                 isCorrect := String.eqb a (choice c) |}
              (answers (computeResult (run st (before ++ Select i a :: after)%list))).
Proof.
  intros Hafter.
  assert (Hown : own (selectedAnswers (run st (before ++ Select i a :: after)%list)) i = Some a).
  { rewrite run_app. cbn [run fold_left].
    change (fold_left step after ?s) with (run s after).
    rewrite run_keeps_answer by assumption.
    cbn [step]. unfold handleAnswerSelect. cbn [selectedAnswers setSelectedAnswers].
    apply own_set_same. }
  split; [exact Hown|].
  intros q Hq Hid Hv.
  destruct (valid_has_correct q Hv) as (c & Hc).
  assert (Hfirst : hd_error (List.filter is_correct (choices q)) = Some c).
  { unfold correctChoice in Hc. now rewrite find_is_first in Hc. }
  destruct (proj1 (first_marked _ _) Hfirst) as (earlier & later & Hl & Hall & Hm).
  exists earlier, c, later.
  split; [exact Hl|]. split; [exact Hall|]. split; [exact Hm|].
  set (final := run st (before ++ Select i a :: after)%list) in *.
  assert (Hqs : questions final = questions st).
  { subst final. generalize (before ++ Select i a :: after)%list. intros events.
    clear. revert st. induction events as [|e events IH]; intros st; [reflexivity|].
    cbn [run fold_left]. change (fold_left step events ?s) with (run s events).
    rewrite IH. apply step_questions. }
  cbn [computeResult answers]. rewrite Hqs.
  apply in_map_iff. exists q. split; [|exact Hq].
  rewrite (isCorrect_valid _ q Hv), Hid, Hc.
  pose proof (selected_cases (selectedAnswers final) i) as Hsel.
  rewrite Hown in Hsel |- *. rewrite Hsel.
  f_equal. unfold or_else. cbn [truthy].
  destruct (String.eqb a "") eqn:E; [|reflexivity].
  apply String.eqb_eq in E. now subst a.
Qed.

Lemma last_selection_witness :
  own (selectedAnswers
         (run Quiz.second_marked
              [Select "q4" "LIFO"; Next; Select "q4" "FIFO"; Previous; Select "q1" "LIFO"]))
      "q4"
  = Some "FIFO"
  /\ In {| questionId := "q4"; selectedAnswer := JStr "FIFO"; isCorrect := true |}
        (answers
           (computeResult
              (run Quiz.second_marked
                   [Select "q4" "LIFO"; Next; Select "q4" "FIFO"; Previous;
                    Select "q1" "LIFO"]))).
Proof.
  destruct (last_selection_counts
              Quiz.second_marked [Select "q4" "LIFO"; Next] [Previous; Select "q1" "LIFO"]
              "q4" "FIFO") as [Hown Hscore].
  - intros a' [H|[H|[]]]; discriminate.
  - split; [exact Hown|].
    destruct (Hscore (nth 0 (questions Quiz.second_marked)
                        {| id := ""; content := ""; explanation := ""; difficulty := 0;
                           choices := [] |}))
      as (earlier & c & later & Hl & Hall & Hm & Hin).
    + left. reflexivity.
    + reflexivity.
    + reflexivity.
    + destruct earlier as [|x [|y earlier]]; cbn in Hl.
      * injection Hl as <- _. discriminate Hm.
      * injection Hl as _ <- _. exact Hin.
      * injection Hl as _ _ Hl. destruct earlier; discriminate Hl.
Defined.

End TakingTheTest.

(* ================================================================== *)
(** * The student test page: submitting *)
(* ================================================================== *)

Section Submitting.
Import Js StudentTest Submission.

Lemma resultRows_spec (uuid : nat -> string) (k : nat) (student assessment : string)
  (results : list AssessmentResult) :
  map row_question_id (resultRows uuid k student assessment results)
  = map result_question_id results
  /\ map row_is_correct (resultRows uuid k student assessment results)
     = map result_is_correct results
  /\ forall r, In r (resultRows uuid k student assessment results) ->
               row_assessment_id r = assessment /\ row_student_id r = student.
Proof.
  revert k. induction results as [|x results IH]; intros k; cbn [resultRows map].
  - repeat split; contradiction.
  - destruct (IH (S k)) as (H1 & H2 & H3). repeat split.
    + now rewrite H1.
    + now rewrite H2.
    + destruct H as [<-|H]; [reflexivity|]. now apply H3.
    + destruct H as [<-|H]; [reflexivity|]. now apply H3.
Qed.

(** X12.  The writes of [handleSubmit] are not atomic.  The result rows are
    sent only after the assessment row has been stored; they are one row per
    question, in order, each under the identifier of the stored assessment,
    with the correctness flags of the displayed result.  When that second
    insert is refused, the calls end there: the stored assessment is left
    without results, the user is alerted and the state is as before.  In
    every case the state is either unchanged or gets the computed result,
    the latter exactly when no alert is raised on a test with questions. *)
Theorem submission_is_not_atomic
  (remote : Remote) (courseId : string) (uuid : nat -> string) (now : string)
  (st : State) :
  (state (handleSubmit remote courseId uuid now st) = st
   \/ (state (handleSubmit remote courseId uuid now st)
       = setTestResult (computeResult st) st
       /\ alert (handleSubmit remote courseId uuid now st) = None
       /\ questions st <> []))
  /\ (alert (handleSubmit remote courseId uuid now st) <> None ->
      state (handleSubmit remote courseId uuid now st) = st)
  /\ (forall rows,
         In (InsertResults rows) (calls (handleSubmit remote courseId uuid now st)) ->
         exists user row stored,
           calls (handleSubmit remote courseId uuid now st)
           = [GetUser; SelectUser user; InsertAssessment row; InsertResults rows]
           /\ insertAssessment remote row = Answered (Some stored)
           /\ course_id row = courseId
           /\ map row_question_id rows = map id (questions st)
           /\ map row_is_correct rows = map isCorrect (answers (computeResult st))
           /\ (forall r, In r rows -> row_assessment_id r = assessment_id stored)
           /\ (forall message,
                  insertResults remote rows = Some message ->
                  state (handleSubmit remote courseId uuid now st) = st
                  /\ alert (handleSubmit remote courseId uuid now st)
                     = Some ("Error submitting test: Failed to save assessment results: "
                             ++ message))).
Proof.
  unfold handleSubmit.
  destruct (questions st) as [|q0 qs] eqn:Q.
  { cbn. split; [auto|]. split; [auto|]. intros rows []. }
  destruct (getUser remote) as [m|[user|]].
  1, 3: cbn; split; [auto|]; split; [auto|];
        intros rows [H|[]]; discriminate.
  destruct (selectUser remote (email user)) as [m|[userData|]].
  1, 3: cbn; split; [auto|]; split; [auto|];
        intros rows [H|[H|[]]]; discriminate.
  cbv zeta.
  destruct (insertAssessment remote _) as [m|[newAssessment|]] eqn:A.
  1, 3: cbn; split; [auto|]; split; [auto|];
        intros rows [H|[H|[H|[]]]]; discriminate.
  pose proof (resultRows_spec uuid 1 (user_id userData) (assessment_id newAssessment)
                              (assessmentResults st)) as (Hq & Hc & Hrows).
  assert (Hids : map result_question_id (assessmentResults st) = map id (questions st)).
  { unfold assessmentResults. rewrite map_map. reflexivity. }
  rewrite Q in Hids.
  assert (Hflags : map result_is_correct (assessmentResults st)
                   = map isCorrect (answers (computeResult st))).
  { cbn [computeResult answers]. unfold assessmentResults. rewrite !map_map. reflexivity. }
  destruct (insertResults remote _) as [m|] eqn:R; cbn [state calls alert].
  - split; [auto|]. split; [auto|].
    intros rows [H|[H|[H|[H|[]]]]]; try discriminate.
    injection H as <-. eexists _, _, _. split; [reflexivity|].
    split; [exact A|]. split; [reflexivity|].
    split; [now rewrite Hq, Hids|]. split; [now rewrite Hc, Hflags|].
    split; [intros r Hr; now apply Hrows|].
    intros message Hm. rewrite R in Hm. injection Hm as <-. auto.
  - split.
    { right. split; [reflexivity|]. split; [reflexivity|]. discriminate. }
    split; [intros H; contradiction|].
    intros rows [H|[H|[H|[H|[]]]]]; try discriminate.
    injection H as <-. eexists _, _, _. split; [reflexivity|].
    split; [exact A|]. split; [reflexivity|].
    split; [now rewrite Hq, Hids|]. split; [now rewrite Hc, Hflags|].
    split; [intros r Hr; now apply Hrows|].
    intros message Hm. rewrite R in Hm. discriminate.
Qed.

(** The sample test against a backend that stores the assessment and then
    refuses the results. *)
Lemma submission_witness :
  calls (handleSubmit Quiz.refusing_results "cs101" Quiz.uuids "2025-01-01T00:00:00.000Z"
                      Quiz.under_way)
  = [ GetUser; SelectUser "an@vnu.edu.vn";
      InsertAssessment {| assessment_id := "a0"; student_id := "u1"; course_id := "cs101";
                          created_at := "2025-01-01T00:00:00.000Z" |};
      InsertResults
        [ {| row_id := "r1"; row_question_id := "q1"; row_is_correct := true;
             row_student_id := "u1"; row_difficulty_level := 1;
             row_assessment_id := "a0" |};
          {| row_id := "r2"; row_question_id := "q2"; row_is_correct := false;
             row_student_id := "u1"; row_difficulty_level := 1;
             row_assessment_id := "a0" |} ] ]
  /\ state (handleSubmit Quiz.refusing_results "cs101" Quiz.uuids
                         "2025-01-01T00:00:00.000Z" Quiz.under_way)
     = Quiz.under_way
  /\ alert (handleSubmit Quiz.refusing_results "cs101" Quiz.uuids
                         "2025-01-01T00:00:00.000Z" Quiz.under_way)
     = Some "Error submitting test: Failed to save assessment results: row-level security".
Proof.
  split; [reflexivity|].
  destruct (submission_is_not_atomic
              Quiz.refusing_results "cs101" Quiz.uuids "2025-01-01T00:00:00.000Z"
              Quiz.under_way) as (_ & _ & H).
  destruct (H _ (or_intror (or_intror (or_intror (or_introl eq_refl)))))
    as (user & row & stored & _ & _ & _ & _ & _ & _ & Hfail).
  exact (Hfail "row-level security" eq_refl).
Defined.

End Submitting.

(* ================================================================== *)
(** * What arrives of a record *)
(* ================================================================== *)

Section Transport.
Import Js Json Wire.

Lemma json_value_set (acc : Obj JsValue) (k : string) (v : JsValue) :
  json_value (JObj acc) = true -> json_value v = true ->
  json_value (JObj (set acc k v)) = true.
Proof.
  intros Hacc Hv. induction acc as [|[k' v'] acc IH]; cbn [set].
  - cbn [json_value forallb]. now rewrite Hv.
  - cbn [json_value forallb] in Hacc. apply andb_true_iff in Hacc as [H1 H2].
    destruct (String.eqb k' k); cbn [json_value forallb].
    + now rewrite Hv, H2.
    + rewrite H1. exact (IH H2).
Qed.

(** What the parser builds is a JSON value. *)
Lemma parse_json_value (fuel : nat) :
  (forall s v rest, parse_value fuel s = Some (v, rest) -> json_value v = true)
  /\ (forall s items rest,
         parse_elements fuel s = Some (items, rest) -> json_value (JArr items) = true)
  /\ (forall acc s props rest,
         parse_members fuel acc s = Some (props, rest) ->
         json_value (JObj acc) = true -> json_value (JObj props) = true).
Proof.
  induction fuel as [|fuel (IHv & IHe & IHm)].
  { repeat split; intros; discriminate. }
  split; [|split].
  - intros s v rest H. cbn [parse_value] in H.
    destruct (skip_ws s) as [|c r]; [discriminate|].
    destruct (Ascii.eqb c "{").
    { destruct (skip_ws r) as [|c' r']; [discriminate|].
      destruct (Ascii.eqb c' "}").
      - injection H as <- _. reflexivity.
      - destruct (parse_members fuel [] (String c' r')) as [[props rest']|] eqn:M;
          [|discriminate].
        injection H as <- _. now apply IHm in M. }
    destruct (Ascii.eqb c "[").
    { destruct (skip_ws r) as [|c' r']; [discriminate|].
      destruct (Ascii.eqb c' "]").
      - injection H as <- _. reflexivity.
      - destruct (parse_elements fuel (String c' r')) as [[items rest']|] eqn:M;
          [|discriminate].
        injection H as <- _. now apply IHe in M. }
    destruct (Ascii.eqb c quote).
    { destruct (parse_string r) as [[str rest']|]; [|discriminate].
      injection H as <- _. reflexivity. }
    destruct (parse_literal (String c r)) as [[v' rest']|] eqn:L.
    { injection H as <- _. unfold parse_literal in L.
      destruct (strip "true" _); [injection L as <- _; reflexivity|].
      destruct (strip "false" _); [injection L as <- _; reflexivity|].
      destruct (strip "null" _); [injection L as <- _; reflexivity|discriminate]. }
    destruct (parse_number (String c r)) as [[n rest']|]; [|discriminate].
    injection H as <- _. reflexivity.
  - intros s items rest H. cbn [parse_elements] in H.
    destruct (parse_value fuel s) as [[v r]|] eqn:V; [|discriminate].
    apply IHv in V.
    destruct (skip_ws r) as [|c r']; [discriminate|].
    destruct (Ascii.eqb c ",").
    + destruct (parse_elements fuel r') as [[items' rest']|] eqn:M; [|discriminate].
      injection H as <- _. apply IHe in M.
      cbn [json_value forallb] in M |- *. now rewrite V, M.
    + destruct (Ascii.eqb c "]"); [|discriminate].
      injection H as <- _. cbn [json_value forallb]. now rewrite V.
  - intros acc s props rest H Hacc. cbn [parse_members] in H.
    destruct (skip_ws s) as [|c r]; [discriminate|].
    destruct (Ascii.eqb c quote); [|discriminate].
    destruct (parse_string r) as [[k r1]|]; [|discriminate].
    destruct (skip_ws r1) as [|c1 r2]; [discriminate|].
    destruct (Ascii.eqb c1 ":"); [|discriminate].
    destruct (parse_value fuel r2) as [[v r3]|] eqn:V; [|discriminate].
    apply IHv in V.
    destruct (skip_ws r3) as [|c3 r4]; [discriminate|].
    pose proof (json_value_set acc k v Hacc V) as Hset.
    destruct (Ascii.eqb c3 ",").
    + exact (IHm _ _ _ _ H Hset).
    + destruct (Ascii.eqb c3 "}"); [|discriminate].
      injection H as <- _. exact Hset.
Qed.

(** [JSON.parse] gives a JSON value. *)
Lemma parsed_is_json_value (text : string) (v : JsValue) :
  JSON_parse text = Normal v -> json_value v = true.
Proof.
  unfold JSON_parse. intros H.
  destruct (parse_value _ _) as [[v' rest]|] eqn:E; [|discriminate].
  destruct (skip_ws rest); [|discriminate]. injection H as <-.
  exact (proj1 (parse_json_value _) _ _ _ E).
Qed.

(** A JSON value is not left out on the way. *)
Lemma json_value_is_sent (v : JsValue) :
  json_value v = true -> exists w, transmit v = Some w.
Proof.
  destruct v as [| |b|[]|s|items|props|k]; cbn; intros H; try discriminate; eauto.
Qed.

Lemma json_property (props : Obj JsValue) (k : string) (v : JsValue) :
  json_value (JObj props) = true -> In (k, v) props -> json_value v = true.
Proof.
  cbn [json_value]. intros H Hin.
  apply (proj1 (forallb_forall _ _) H) in Hin. exact Hin.
Qed.

Lemma In_set (props : Obj JsValue) (k k' : string) (v v' : JsValue) :
  In (k, v) (set props k' v') -> (k = k' /\ v = v') \/ In (k, v) props.
Proof.
  induction props as [|[k0 v0] props IH]; cbn [set].
  - intros [H|[]]. injection H as <- <-. now left.
  - destruct (String.eqb k0 k') eqn:E.
    + apply String.eqb_eq in E. subst k0.
      intros [H|H]; [injection H as <- <-; now left|right; now right].
    + intros [H|H]; [right; now left|].
      destruct (IH H) as [Hl|Hr]; [now left|right; now right].
Qed.

Lemma transmit_object (props : Obj JsValue) :
  transmit (JObj props) = Some (JObj (sent_properties props)).
Proof. reflexivity. Qed.

(** A property of which no value is left out reads on the other side as
    what has arrived of it. *)
Lemma get_sent (props : Obj JsValue) (k : string) :
  inherited k = false ->
  (forall v, In (k, v) props -> exists w, transmit v = Some w) ->
  get (sent_properties props) k = arrives (get props k).
Proof.
  intros Hk Hall. unfold get. rewrite Hk.
  induction props as [|[k' v'] props IH]; [reflexivity|].
  unfold sent_properties. cbn [flat_map own].
  fold (sent_properties props).
  destruct (String.eqb k' k) eqn:E.
  - apply String.eqb_eq in E. subst k'.
    destruct (Hall v' (or_introl eq_refl)) as (w & Hw).
    unfold arrives. rewrite Hw. cbn [app own]. now rewrite String.eqb_refl.
  - assert (Hrest : own (match transmit v' with
                         | Some w => [(k', w)]
                         | None => []
                         end ++ sent_properties props)%list k
                    = own (sent_properties props) k).
    { destruct (transmit v'); cbn [app own]; [now rewrite E|reflexivity]. }
    rewrite Hrest. apply IH. intros v Hin. apply Hall. now right.
Qed.

(** A truthy JSON value arrives falsy only when it is an infinite
    number. *)
Lemma truthy_arrives (v : JsValue) :
  json_value v = true -> truthy v = true ->
  (truthy (arrives v) = false <-> exists sign, v = JNum (S754_infinity sign)).
Proof.
  intros Hj Ht.
  destruct v as [| |b|[sign|sign| |sign m e]|s|items|props|k]; try discriminate;
    unfold arrives; cbn [transmit truthy] in *;
    rewrite ?Ht;
    (split; [intros H; (discriminate H || eauto)
            |intros (sign' & H); (discriminate H || reflexivity)]).
Qed.

(** A value that is strictly equal to another one and arrives truthy
    arrives as it is. *)
Lemma primitive_arrives (x v : JsValue) :
  json_value v = true ->
  strict_eq x v = true -> truthy (arrives v) = true -> arrives v = v.
Proof.
  intros Hj Hs Ht.
  destruct v as [| |b|[sign|sign| |sign m e]|s|items|props|k]; try discriminate;
    unfold arrives in *; cbn [transmit truthy] in *; try reflexivity.
  - destruct x; discriminate Hs.
  - destruct x; discriminate Hs.
Qed.

End Transport.

(* ================================================================== *)
(** * The lecturer's page and the generation endpoints *)
(* ================================================================== *)

Section Generating.
Import Js Json QuestionManager.

Lemma same_value_zero_truthy (x a : JsValue) :
  truthy a = true -> same_value_zero x a = strict_eq x a.
Proof.
  intros H. destruct x as [| | |[]| | | |]; try reflexivity.
  destruct a as [| | |[]| | | |]; try reflexivity. discriminate H.
Qed.

Lemma findIndex_from_found (p : JsValue -> bool) (items : list JsValue) (i : Z) :
  existsb p items = true ->
  exists n x,
    findIndex_from p i items = i + Z.of_nat n
    /\ nth_error items n = Some x /\ p x = true
    /\ forall j y, (j < n)%nat -> nth_error items j = Some y -> p y = false.
Proof.
  revert i. induction items as [|x items IH]; intros i H; [discriminate|].
  cbn [existsb findIndex_from] in *. destruct (p x) eqn:P.
  - exists O, x. split; [lia|]. split; [reflexivity|]. split; [exact P|].
    intros j y Hj. lia.
  - cbn [orb] in H. destruct (IH (i + 1) H) as (n & y & Hf & Hn & Hp & Hlt).
    exists (S n), y. split; [lia|]. split; [exact Hn|]. split; [exact Hp|].
    intros [|j] z Hj Hz.
    + injection Hz as <-. exact P.
    + apply (Hlt j); [lia|exact Hz].
Qed.

Lemma findIndex_from_missing (p : JsValue -> bool) (items : list JsValue) (i : Z) :
  existsb p items = false -> findIndex_from p i items = -1.
Proof.
  revert i. induction items as [|x items IH]; intros i H; [reflexivity|].
  cbn [existsb findIndex_from] in *. apply orb_false_iff in H as [-> H]. now apply IH.
Qed.

Lemma includes_is_found (items : list JsValue) (a : JsValue) :
  truthy a = true ->
  Exists (fun o => same_value_zero o a = true) items ->
  existsb (fun option => strict_eq option a) items = true.
Proof.
  intros Ha H. apply existsb_exists. apply Exists_exists in H as (x & Hin & Hx).
  exists x. split; [exact Hin|]. now rewrite <- (same_value_zero_truthy x a Ha).
Qed.

Lemma get_mapped (props : Obj JsValue) (k : string) (d o : JsValue) :
  k <> "difficulty" -> k <> "options" ->
  get (set (set props "difficulty" d) "options" o) k = get props k.
Proof.
  intros H1 H2. unfold get. rewrite !own_set_other by congruence. reflexivity.
Qed.

Lemma own_In (props : Obj JsValue) (k : string) (v : JsValue) :
  own props k = Some v -> In (k, v) props.
Proof.
  induction props as [|[k' v'] props IH]; cbn [own]; [discriminate|].
  destruct (String.eqb k' k) eqn:E.
  - apply String.eqb_eq in E. intros H. injection H as <-. subst k'. now left.
  - intros H. right. exact (IH H).
Qed.

(** A truthy property of a JSON object that no object inherits is a JSON
    value. *)
Lemma truthy_property (props : Obj JsValue) (k : string) :
  Wire.json_value (JObj props) = true ->
  inherited k = false ->
  truthy (get props k) = true ->
  Wire.json_value (get props k) = true.
Proof.
  intros Hj Hk Ht. unfold get in *. rewrite Hk in *.
  destruct (own props k) as [v|] eqn:O; [|discriminate Ht].
  exact (json_property props k v Hj (own_In _ _ _ O)).
Qed.

(** Of the record that [handler] makes of a JSON object, every property but
    the difficulty arrives. *)
Lemma mapped_record_is_sent (props : Obj JsValue) (d : JsValue) (text k : string) :
  Wire.json_value (JObj props) = true ->
  k <> "difficulty" ->
  forall v, In (k, v) (set (set props "difficulty" d) "options" (JStr text)) ->
            exists w, Wire.transmit v = Some w.
Proof.
  intros Hj Hk v Hin.
  apply In_set in Hin as [[_ ->]|Hin]; [eexists; reflexivity|].
  apply In_set in Hin as [[Hk' _]|Hin]; [contradiction|].
  apply json_value_is_sent. exact (json_property props k v Hj Hin).
Qed.

(** What the page reads from a record of [handler]. *)
Lemma record_is_received
  (JSON_stringify ToString : JsValue -> string)
  (data : JsValue) (items : list JsValue) (response : Response) (form : Form) :
  Wire.json_value data = true ->
  Handler.respond JSON_stringify data = Normal response ->
  status response = 200 ->
  field data "options" = Normal (JArr items) ->
  JSON_parse (JSON_stringify (JArr items)) = Normal (JArr items) ->
  exists question answer explanation n option,
    field data "question" = Normal question
    /\ field data "answer" = Normal answer
    /\ field data "explanation" = Normal explanation
    /\ nth_error items n = Some option
    /\ strict_eq option answer = true
    /\ (forall j earlier, (j < n)%nat -> nth_error items j = Some earlier ->
                          strict_eq earlier answer = false)
    /\ (truthy (Wire.arrives question) && truthy (Wire.arrives answer) = false
        <-> (exists sign, question = JNum (S754_infinity sign))
            \/ (exists sign, answer = JNum (S754_infinity sign)))
    /\ bind (res_json response) (fun arrived => received ToString (ok response) arrived form)
       = if truthy (Wire.arrives question) && truthy (Wire.arrives answer)
         then Normal {| content := Wire.arrives question;
                        options := items;
                        answer := fromCharCode (65 + Z.of_nat n);
                        explanation := or_else (Wire.arrives explanation) (JStr "");
                        difficulty := difficulty form;
                        selectedLos := selectedLos form |}
         else Throw invalid_format.
Proof.
  intros Hj Hr H200 Ho Hround. unfold Handler.respond in Hr.
  destruct (Handler.invalid data) as [[|]|e] eqn:V; cbn [bind] in Hr.
  - injection Hr as <-. discriminate H200.
  - destruct (valid_is_object data (or_introl V)) as (props & ->).
    apply handler_valid_iff in V as (Hq & items' & Hopt & _ & Ha & Hin).
    cbn [field] in Ho. injection Ho as Ho. rewrite Ho in Hopt.
    injection Hopt as <-.
    unfold Handler.mappedData in Hr. cbn [field bind spread] in Hr.
    destruct (call_toLowerCase "data.difficulty" (get props "difficulty")) as [key|e];
      cbn [bind] in Hr; [|discriminate].
    injection Hr as <-. cbn [status body ok].
    pose proof (includes_is_found items _ Ha Hin) as Hex.
    destruct (findIndex_from_found _ items 0 Hex) as (n & option & Hf & Hn & Hp & Hlt).
    pose proof (truthy_property props "question" Hj eq_refl Hq) as Hjq.
    pose proof (truthy_property props "answer" Hj eq_refl Ha) as Hja.
    exists (get props "question"), (get props "answer"), (get props "explanation"),
      n, option.
    cbn [field]. split; [reflexivity|]. split; [reflexivity|]. split; [reflexivity|].
    split; [exact Hn|]. split; [exact Hp|]. split; [exact Hlt|].
    split.
    { rewrite andb_false_iff.
      rewrite (truthy_arrives _ Hjq Hq), (truthy_arrives _ Hja Ha). reflexivity. }
    unfold res_json. cbn [body]. rewrite transmit_object. cbn [bind].
    unfold received.
    change ((200 <=? 200) && (200 <=? 299)) with true. cbn [negb field bind].
    rewrite !get_sent;
      try reflexivity;
      try (apply mapped_record_is_sent; [exact Hj|discriminate]).
    rewrite (get_mapped props "question") by discriminate.
    destruct (truthy (Wire.arrives (get props "question"))); cbn [negb andb];
      [|reflexivity].
    assert (Hoptions : get (set (set props "difficulty"
                                     (or_else (get Handler.difficultyMap key) (JStr "1")))
                                "options" (JStr (JSON_stringify (get props "options"))))
                           "options"
                       = JStr (JSON_stringify (JArr items))).
    { rewrite Ho. unfold get. now rewrite own_set_same. }
    rewrite Hoptions.
    change (Wire.arrives (JStr (JSON_stringify (JArr items))))
      with (JStr (JSON_stringify (JArr items))).
    assert (Htext : truthy (JStr (JSON_stringify (JArr items))) = true).
    { cbn [truthy]. destruct (String.eqb (JSON_stringify (JArr items)) "") eqn:E;
        [|reflexivity].
      apply String.eqb_eq in E. rewrite E in Hround. vm_compute in Hround.
      discriminate Hround. }
    rewrite Htext. cbn [negb].
    rewrite (get_mapped props "answer") by discriminate.
    destruct (truthy (Wire.arrives (get props "answer"))) eqn:Hta; cbn [negb];
      [|reflexivity].
    rewrite (primitive_arrives option (get props "answer") Hja Hp Hta).
    rewrite Hround. cbn [bind]. unfold findIndex. rewrite Hf.
    rewrite (get_mapped props "explanation") by discriminate.
    replace (0 + Z.of_nat n =? -1) with false by (symmetry; apply Z.eqb_neq; lia).
    reflexivity.
  - discriminate Hr.
Qed.

(** X13.  A record that [handler] answers with status 200, as it arrives at
    the lecturer's page.  The page reads what [res.json()] gives of the
    record, in which an infinite number has become [null].  When the text of
    the options parses back to the options, [generateQuestion] refuses the
    record with the invalid-format alert and leaves the form exactly when
    the question or the answer is an infinite number; otherwise it alerts
    nothing and sets the content to the question as it arrived, the options
    to the provider's options and the answer to the letter of the first
    option that is strictly equal to the provider's answer: the check with
    [includes] on the server guarantees that there is one.  The difficulty
    of the form stays as it was; the difficulty in the record is not
    read. *)
Theorem generated_record_fills_the_form
  (JSON_stringify ToString : JsValue -> string) (text : string)
  (data : JsValue) (items : list JsValue) (response : Response) (form : Form) :
  JSON_parse text = Normal data ->
  Handler.respond JSON_stringify data = Normal response ->
  status response = 200 ->
  field data "options" = Normal (JArr items) ->
  JSON_parse (JSON_stringify (JArr items)) = Normal (JArr items) ->
  exists question answer explanation n option,
    field data "question" = Normal question
    /\ field data "answer" = Normal answer
    /\ field data "explanation" = Normal explanation
    /\ nth_error items n = Some option
    /\ strict_eq option answer = true
    /\ (forall j earlier, (j < n)%nat -> nth_error items j = Some earlier ->
                          strict_eq earlier answer = false)
    /\ (truthy (Wire.arrives question) && truthy (Wire.arrives answer) = false
        <-> (exists sign, question = JNum (S754_infinity sign))
            \/ (exists sign, answer = JNum (S754_infinity sign)))
    /\ generateQuestion ToString response form
       = if truthy (Wire.arrives question) && truthy (Wire.arrives answer)
         then ({| content := Wire.arrives question;
                  options := items;
                  answer := fromCharCode (65 + Z.of_nat n);
                  explanation := or_else (Wire.arrives explanation) (JStr "");
                  difficulty := difficulty form;
                  selectedLos := selectedLos form |},
               None)
         else (form, Some (Text "Invalid response format from the server")).
Proof.
  intros Hparse Hr H200 Ho Hround.
  destruct (record_is_received JSON_stringify ToString data items response form
                               (parsed_is_json_value text data Hparse) Hr H200 Ho Hround)
    as (question & answer & explanation & n & option
        & Hq & Ha & He & Hn & Hs & Hlt & Hinf & Hg).
  exists question, answer, explanation, n, option.
  split; [exact Hq|]. split; [exact Ha|]. split; [exact He|]. split; [exact Hn|].
  split; [exact Hs|]. split; [exact Hlt|]. split; [exact Hinf|].
  unfold generateQuestion. rewrite Hg.
  destruct (truthy (Wire.arrives question) && truthy (Wire.arrives answer));
    reflexivity.
Qed.

(** The sample question arrives as it is and the form gets the letter A;
    the same question with the number 1e400 for its text is answered 200 by
    [handler] and refused by the page. *)
Lemma generated_record_witness :
  (exists response,
      Handler.respond Samples.stringify_texts (JObj Samples.plain_data) = Normal response
      /\ status response = 200
      /\ exists n,
          nth_error [JStr "a"; JStr "b"] n = Some (JStr "a")
          /\ generateQuestion Samples.no_conversion response emptyForm
             = ({| content := JStr "Q";
                   options := [JStr "a"; JStr "b"];
                   answer := fromCharCode (65 + Z.of_nat n);
                   explanation := JStr "";
                   difficulty := 1;
                   selectedLos := [] |},
                None))
  /\ (exists response,
         Handler.respond Samples.stringify_texts (JObj Samples.infinite_data)
         = Normal response
         /\ status response = 200
         /\ generateQuestion Samples.no_conversion response emptyForm
            = (emptyForm, Some (Text "Invalid response format from the server"))).
Proof.
  split.
  - eexists. split; [reflexivity|]. split; [reflexivity|].
    destruct (generated_record_fills_the_form
                Samples.stringify_texts Samples.no_conversion
                Samples.plain_question
                (JObj Samples.plain_data) [JStr "a"; JStr "b"] _ emptyForm
                eq_refl eq_refl eq_refl eq_refl eq_refl)
      as (question & answer & explanation & n & option
          & Hq & Ha & He & Hn & Hs & _ & _ & Hg).
    exists n. injection Hq as <-. injection Ha as <-. injection He as <-.
    split; [|exact Hg].
    rewrite Hn. f_equal.
    destruct n as [|[|n]]; cbn [nth_error] in Hn.
    + now injection Hn as <-.
    + injection Hn as <-. discriminate Hs.
    + destruct n; discriminate Hn.
  - eexists. split; [reflexivity|]. split; [reflexivity|].
    destruct (generated_record_fills_the_form
                Samples.stringify_texts Samples.no_conversion
                Samples.infinite_question
                (JObj Samples.infinite_data) [JStr "a"; JStr "b"] _ emptyForm
                eq_refl eq_refl eq_refl eq_refl eq_refl)
      as (question & answer & explanation & n & option
          & Hq & Ha & He & Hn & Hs & _ & _ & Hg).
    injection Hq as <-. injection Ha as <-. exact Hg.
Defined.

(** X14.  The two sides do not agree on the format.  A record that [POST]
    made with status 200 has no options, and none when it arrives, so
    [generateQuestion] refuses it: the form stays as it was and the alert
    says that the response format of the server is invalid. *)
Theorem route_record_is_refused
  (ToString : JsValue -> string) (data : JsValue) (response : Response) (form : Form) :
  Route.respond data = Normal response ->
  status response = 200 ->
  generateQuestion ToString response form
  = (form, Some (Text "Invalid response format from the server")).
Proof.
  intros Hr H200. unfold Route.respond in Hr.
  destruct (Route.invalid data) as [[|]|e] eqn:V; cbn [bind] in Hr.
  - injection Hr as <-. discriminate H200.
  - destruct (valid_is_object data (or_intror V)) as (props & ->).
    unfold Route.invalid in V. cbn [field bind] in V.
    destruct (truthy (get props "question")) eqn:Q; cbn [negb] in V;
      [|discriminate V].
    unfold Route.mappedData in Hr. cbn [field bind] in Hr.
    destruct (call_toLowerCase "data.difficulty" (get props "difficulty")) as [key|e];
      cbn [bind] in Hr; [|discriminate].
    injection Hr as <-.
    unfold generateQuestion, res_json, received, ok. cbn [status body].
    change ((200 <=? 200) && (200 <=? 299)) with true.
    rewrite transmit_object. unfold Wire.sent_properties. cbn [flat_map bind negb].
    destruct (Wire.transmit (get props "question")) as [question|];
      destruct (Wire.transmit (get props "choices")) as [choices|];
      destruct (Wire.transmit (get props "explanation")) as [explanation|];
      destruct (Wire.transmit (or_else (get Route.difficultyMap key) (JStr "1")))
        as [difficulty|];
      cbn [app field bind];
      try (change (get _ "question") with question;
           destruct (truthy question); reflexivity);
      reflexivity.
  - discriminate Hr.
Qed.

(** The sample in the format that the prompt of [POST] asks for, as
    [JSON.parse] would give it if the pattern let it through. *)
Lemma route_record_witness :
  exists response,
    Route.respond (JObj Samples.nested_data) = Normal response
    /\ status response = 200
    /\ generateQuestion Samples.no_conversion response emptyForm
       = (emptyForm, Some (Text "Invalid response format from the server")).
Proof.
  eexists. split; [reflexivity|]. split; [reflexivity|].
  apply (route_record_is_refused Samples.no_conversion (JObj Samples.nested_data));
    reflexivity.
Defined.

(** An error answer is shown as it is. *)
Lemma error_is_alerted
  (ToString : JsValue -> string) (response : Response) (msg : string) (form : Form) :
  body response = error msg ->
  ok response = false ->
  msg <> "" ->
  includes msg "Ollama service" = false ->
  generateQuestion ToString response form = (form, Some (Text msg)).
Proof.
  intros Hb Hok Hne Hno. unfold generateQuestion, res_json, received. rewrite Hb, Hok.
  unfold error. rewrite transmit_object. unfold Wire.sent_properties.
  cbn [flat_map Wire.transmit app bind].
  cbn [negb field bind get own String.eqb Ascii.eqb Bool.eqb].
  unfold or_else. cbn [truthy].
  destruct (String.eqb msg "") eqn:E; [apply String.eqb_eq in E; contradiction|].
  cbn [negb new_Error generation_alert]. now rewrite Hno.
Qed.

Lemma provider_error_text (e : Exn) :
  exists msg,
    Route.provider_error e = failure msg
    /\ msg <> "" /\ includes msg "Ollama service" = false.
Proof.
  unfold Route.provider_error.
  destruct (includes (message e) "401");
    [eexists; split; [reflexivity|]; split; [discriminate|reflexivity]|].
  destruct (includes (message e) "429");
    [eexists; split; [reflexivity|]; split; [discriminate|reflexivity]|].
  destruct (includes (message e) "500");
    eexists; (split; [reflexivity|]); split; (discriminate || reflexivity).
Qed.

Ltac told := eexists; split; [reflexivity|]; split; [reflexivity|];
             split; [discriminate|reflexivity].

Lemma handler_error_text
  (JSON_stringify : JsValue -> string) (key : option string) (req : Api.Request)
  (outcome : Api.Outcome) :
  status (Api.handler JSON_stringify key req outcome) <> 200 ->
  exists msg,
    body (Api.handler JSON_stringify key req outcome) = error msg
    /\ ok (Api.handler JSON_stringify key req outcome) = false
    /\ msg <> "" /\ includes msg "Ollama service" = false.
Proof.
  unfold Api.handler.
  destruct (String.eqb (Api.method req) "POST"); cbn [negb]; [|intros _; told].
  destruct (Api.missing_fields (Api.req_body req)) as [missing|e];
    cbn [bind try_catch]; [|intros _; told].
  destruct (Api.unset key); [intros _; told|].
  destruct missing; [intros _; told|].
  cbn [try_catch].
  destruct (Api.thrown outcome) as [e|]; [intros _; told|].
  unfold Handler.handler, Handler.attempt.
  destruct (includes _ "<!DOCTYPE" || includes _ "<html"); [intros _; told|].
  destruct (match_braces _) as [jsonMatch|]; [|intros _; told].
  destruct (JSON_parse jsonMatch) as [data|]; [|intros _; told].
  cbn [bind]. unfold Handler.respond.
  destruct (Handler.invalid data) as [[|]|e]; cbn [bind try_catch];
    [intros _; told| |intros _; told].
  destruct (Handler.mappedData JSON_stringify data) as [mapped|e];
    cbn [bind try_catch]; [|intros _; told].
  cbn [status]. intros H. contradiction.
Qed.

Lemma POST_error_text (key : option string) (text : string) (outcome : Api.Outcome) :
  exists msg,
    body (Api.POST key text outcome) = error msg
    /\ ok (Api.POST key text outcome) = false
    /\ msg <> "" /\ includes msg "Ollama service" = false.
Proof.
  unfold Api.POST.
  destruct (JSON_parse text) as [parsed|e]; cbn [bind try_catch]; [|told].
  destruct (Api.missing_fields parsed) as [missing|e]; cbn [bind try_catch]; [|told].
  destruct (Api.unset key); [told|].
  destruct missing; [told|].
  cbn [try_catch].
  assert (Hfail : forall r, (exists msg, r = failure msg /\ msg <> ""
                                         /\ includes msg "Ollama service" = false) ->
                            exists msg, body r = error msg /\ ok r = false /\ msg <> ""
                                        /\ includes msg "Ollama service" = false).
  { intros r (msg & -> & H1 & H2). exists msg. repeat split; assumption. }
  apply Hfail.
  destruct (Api.thrown outcome) as [e|]; [apply provider_error_text|].
  pose proof (POST_never_succeeds (Api.accumulate (Api.chunks outcome))) as H.
  unfold Route.POST, Route.attempt, Route.extract in *.
  destruct (includes _ "<!DOCTYPE" || includes _ "<html");
    [cbn; eexists; split; [reflexivity|]; split; [discriminate|reflexivity]|].
  destruct (match_braces _) as [jsonMatch|];
    [|cbn; eexists; split; [reflexivity|]; split; [discriminate|reflexivity]].
  destruct (JSON_parse jsonMatch) as [data|];
    [|cbn; eexists; split; [reflexivity|]; split; [discriminate|reflexivity]].
  unfold Route.respond in *.
  destruct (Route.invalid data) as [[|]|e]; cbn [bind try_catch] in *.
  - eexists; split; [reflexivity|]; split; [discriminate|reflexivity].
  - destruct (Route.mappedData data) as [mapped|e]; cbn [bind try_catch] in *.
    + discriminate H.
    + apply provider_error_text.
  - apply provider_error_text.
Qed.

(** X15.  Whatever goes wrong on the server, the lecturer is shown the
    message of the server and the form stays as it was: every answer of
    [handler] with a status other than 200, and every answer of [POST],
    carries a message that [generateQuestion] alerts as it is.  None of
    these messages takes the branch for the service that is not running. *)
Theorem server_errors_are_shown :
  (forall JSON_stringify ToString key req outcome form,
      status (Api.handler JSON_stringify key req outcome) <> 200 ->
      exists msg,
        body (Api.handler JSON_stringify key req outcome) = error msg
        /\ generateQuestion ToString (Api.handler JSON_stringify key req outcome) form
           = (form, Some (Text msg)))
  /\ (forall ToString key text outcome form,
         exists msg,
           body (Api.POST key text outcome) = error msg
           /\ generateQuestion ToString (Api.POST key text outcome) form
              = (form, Some (Text msg))).
Proof.
  split.
  - intros JSON_stringify ToString key req outcome form H.
    destruct (handler_error_text JSON_stringify key req outcome H)
      as (msg & Hb & Hok & Hne & Hno).
    exists msg. split; [exact Hb|]. now apply error_is_alerted.
  - intros ToString key text outcome form.
    destruct (POST_error_text key text outcome) as (msg & Hb & Hok & Hne & Hno).
    exists msg. split; [exact Hb|]. now apply error_is_alerted.
Qed.

End Generating.

(* ================================================================== *)
(** * The lecturer's page: saving a question *)
(* ================================================================== *)

Section Saving.
Import Js Json QuestionManager.

Lemma byte_inj (x y : Z) :
  0 <= x < 256 -> 0 <= y < 256 -> byte x = byte y -> x = y.
Proof.
  intros Hx Hy H. unfold byte in H. apply (f_equal nat_of_ascii) in H.
  rewrite !nat_ascii_embedding in H by lia. lia.
Qed.

Lemma String_inj (a b : ascii) (s t : string) :
  String a s = String b t -> a = b /\ s = t.
Proof. intros H. injection H as -> ->. split; reflexivity. Qed.

Lemma encode_unit_inj (a b : Z) :
  0 <= a < 65536 -> 0 <= b < 65536 -> encode_unit a = encode_unit b -> a = b.
Proof.
  intros Ha Hb. unfold encode_unit.
  pose proof (Z.div_mod a 64 ltac:(lia)). pose proof (Z.mod_pos_bound a 64 ltac:(lia)).
  pose proof (Z.div_mod b 64 ltac:(lia)). pose proof (Z.mod_pos_bound b 64 ltac:(lia)).
  pose proof (Z.div_mod (a / 64) 64 ltac:(lia)).
  pose proof (Z.mod_pos_bound (a / 64) 64 ltac:(lia)).
  pose proof (Z.div_mod (b / 64) 64 ltac:(lia)).
  pose proof (Z.mod_pos_bound (b / 64) 64 ltac:(lia)).
  assert (a / 4096 = a / 64 / 64) by (rewrite Z.div_div by lia; reflexivity).
  assert (b / 4096 = b / 64 / 64) by (rewrite Z.div_div by lia; reflexivity).
  destruct (Z.ltb_spec a 128), (Z.ltb_spec b 128);
    [|destruct (Z.ltb_spec b 2048)|destruct (Z.ltb_spec a 2048)
     |destruct (Z.ltb_spec a 2048), (Z.ltb_spec b 2048)];
    intros E; apply String_inj in E as [E1 E]; try discriminate E.
  - apply byte_inj in E1; lia.
  - apply String_inj in E as [E2 _]. apply byte_inj in E1, E2; lia.
  - apply String_inj in E as [E2 E]. apply String_inj in E as [E3 _].
    apply byte_inj in E1, E2, E3; lia.
Qed.

Lemma letters_differ (i j : Z) :
  0 <= i -> 0 <= j -> i < 65471 -> j < 65471 ->
  fromCharCode (65 + i) = fromCharCode (65 + j) -> i = j.
Proof.
  intros Hi Hj Hi' Hj' H. unfold fromCharCode in H.
  rewrite !Z.mod_small in H by lia.
  apply encode_unit_inj in H; lia.
Qed.

Lemma fst_and_then {A B} (r : Run A) (k : A -> Run B) :
  fst (and_then r k)
  = match snd r with
    | Normal a => (fst r ++ fst (k a))%list
    | Throw _ => fst r
    end.
Proof. unfold and_then. now destruct (snd r). Qed.

Lemma snd_and_then {A B} (r : Run A) (k : A -> Run B) :
  snd (and_then r k)
  = match snd r with
    | Normal a => snd (k a)
    | Throw e => Throw e
    end.
Proof. unfold and_then. now destruct (snd r). Qed.

Lemma insertedChoices_app (a b : list Call) :
  insertedChoices (a ++ b) = (insertedChoices a ++ insertedChoices b)%list.
Proof. apply flat_map_app. Qed.

Lemma createMappings_choices {Q} (remote : Remote Q) (uuid : nat -> string)
  (questionId : string) (los : list string) (k : nat) :
  insertedChoices (fst (createMappings remote uuid questionId k los)) = [].
Proof.
  revert k. induction los as [|lo los IH]; intros k; [reflexivity|].
  cbn [createMappings]. unfold and_then, request. cbn [fst snd].
  destruct (insertMapping remote _); [reflexivity|].
  cbn [fst snd app insertedChoices flat_map]. apply IH.
Qed.

(** The rows that the loop over the options inserts: a row for each option
    that the loop gets to, flagged by its letter. *)
Lemma createChoices_rows {Q} (remote : Remote Q) (uuid : nat -> string)
  (questionId answer : string) (options : list JsValue) (i : Z) (k : nat) :
  (forall n row,
      nth_error
        (insertedChoices (fst (createChoices remote uuid questionId answer i k options)))
        n = Some row ->
      nth_error options n = Some (JStr (StudentTest.choice row))
      /\ StudentTest.is_correct row
         = String.eqb (fromCharCode (65 + (i + Z.of_nat n))) answer
      /\ StudentTest.question_id row = questionId)
  /\ (forall k',
         snd (createChoices remote uuid questionId answer i k options) = Normal k' ->
         List.length
           (insertedChoices (fst (createChoices remote uuid questionId answer i k options)))
         = List.length options).
Proof.
  revert i k. induction options as [|option options IH]; intros i k.
  - split; [intros [|n] row H; discriminate H|reflexivity].
  - cbn [createChoices].
    destruct option as [| |flag|num|text|items|props|name];
      try (split; [intros [|n] row H; discriminate H|intros k' H; discriminate H]).
    destruct (trims_to_nothing text);
      [split; [intros [|n] row H; discriminate H|intros k' H; discriminate H]|].
    unfold and_then, request. cbn [fst snd].
    destruct (insertChoice remote _).
    + split; [|intros k' H; discriminate H].
      intros [|[|n]] row H; cbn in H; try discriminate H.
      injection H as <-. cbn. rewrite Z.add_0_r. auto.
    + cbn [fst snd app insertedChoices flat_map].
      destruct (IH (i + 1) (S k)) as [Hrows Hlen]. split.
      * intros [|n] row H.
        -- injection H as <-. cbn. rewrite Z.add_0_r. auto.
        -- cbn [nth_error] in H |- *. destruct (Hrows n row H) as (H1 & H2 & H3).
           split; [exact H1|]. split; [|exact H3].
           rewrite H2. f_equal. f_equal. lia.
      * intros k' H. cbn [List.length]. f_equal. exact (Hlen k' H).
Qed.

(** The same for the whole of the writes. *)
Lemma save_rows {Q} (remote : Remote Q) (user : string) (uuid : nat -> string)
  (p : Page Q) :
  (forall n row,
      nth_error (insertedChoices (fst (save remote user uuid p))) n = Some row ->
      nth_error (options (form p)) n = Some (JStr (StudentTest.choice row))
      /\ StudentTest.is_correct row
         = String.eqb (fromCharCode (65 + Z.of_nat n)) (answer (form p))
      /\ StudentTest.question_id row
         = (if given (editingQuestionId p) then text_of (editingQuestionId p)
            else uuid O))
  /\ (forall u,
         snd (save remote user uuid p) = Normal u ->
         List.length (insertedChoices (fst (save remote user uuid p)))
         = List.length (options (form p))).
Proof.
  unfold save.
  set (questionId := if given (editingQuestionId p) then text_of (editingQuestionId p)
                     else uuid O).
  set (k := if given (editingQuestionId p) then O else 1%nat).
  pose proof (createChoices_rows remote uuid questionId (answer (form p))
                                 (options (form p)) 0 k) as [Hrows Hlen].
  rewrite !fst_and_then, !snd_and_then. cbn [request fst snd].
  destruct (saveQuestion remote _ _);
    [split; [intros [|n] row H; discriminate H|intros u H; discriminate H]|].
  assert (Hwhen : forall r : Run unit, insertedChoices (fst r) = [] ->
            insertedChoices (fst (when (given (editingQuestionId p)) r)) = []).
  { intros r Hr. unfold when. now destruct (given (editingQuestionId p)). }
  rewrite !insertedChoices_app. cbn [insertedChoices flat_map app].
  destruct (snd (when (given (editingQuestionId p))
                      (request (DeleteChoices questionId)
                               (deleteChoices remote questionId)
                               "Failed to delete existing choices: "))).
  2: { rewrite Hwhen by reflexivity.
       split; [intros [|n] row H; discriminate H|intros u H; discriminate H]. }
  rewrite !insertedChoices_app, Hwhen by reflexivity. cbn [app].
  destruct (snd (createChoices remote uuid questionId (answer (form p)) 0 k
                               (options (form p)))) as [k'|e] eqn:C.
  2: { split; [exact Hrows|intros u H; discriminate H]. }
  rewrite !insertedChoices_app, !fst_and_then, !snd_and_then.
  destruct (snd (when (given (editingQuestionId p))
                      (request (DeleteMappings questionId)
                               (deleteMappings remote questionId)
                               "Failed to delete existing mappings: "))).
  2: { rewrite Hwhen, app_nil_r by reflexivity.
       split; [exact Hrows|intros u H; discriminate H]. }
  rewrite !insertedChoices_app, Hwhen, createMappings_choices by reflexivity.
  cbn [app]. rewrite app_nil_r.
  split; [exact Hrows|]. intros u _. exact (Hlen k' eq_refl).
Qed.

Lemma existsb_copied (rows : list StudentTest.Choice) :
  existsb StudentTest.is_correct
    (map (fun c => {| StudentTest.choice_id := StudentTest.choice_id c;
                      StudentTest.question_id := StudentTest.question_id c;
                      StudentTest.choice := StudentTest.choice c;
                      StudentTest.is_correct := StudentTest.is_correct c |}) rows)
  = existsb StudentTest.is_correct rows.
Proof.
  induction rows as [|row rows IH]; [reflexivity|].
  cbn [map existsb StudentTest.is_correct]. now rewrite IH.
Qed.

Lemma rows_are_the_options (rows : list StudentTest.Choice) (options : list JsValue) :
  (forall n row, nth_error rows n = Some row ->
                 nth_error options n = Some (JStr (StudentTest.choice row))) ->
  List.length rows = List.length options ->
  map (fun row => JStr (StudentTest.choice row)) rows = options.
Proof.
  revert options. induction rows as [|row rows IH]; intros [|option options] H Hlen;
    try discriminate Hlen; [reflexivity|].
  cbn [map]. f_equal.
  - specialize (H O row eq_refl). now injection H as <-.
  - apply IH; [|now injection Hlen].
    intros n r Hn. exact (H (S n) r Hn).
Qed.

(** The rows that a successful [handleSubmit] has inserted. *)
Lemma stored_choices {Q}
  (remote : Remote Q) (user : option string) (uuid : nat -> string) (p : Page Q) :
  alert (handleSubmit remote user uuid p) = Text "Question added successfully!"
  \/ alert (handleSubmit remote user uuid p) = Text "Question updated successfully!" ->
  map (fun row => JStr (StudentTest.choice row))
      (insertedChoices (calls (handleSubmit remote user uuid p)))
  = options (form p)
  /\ (forall n row,
         nth_error (insertedChoices (calls (handleSubmit remote user uuid p))) n
         = Some row ->
         StudentTest.is_correct row
         = String.eqb (fromCharCode (65 + Z.of_nat n)) (answer (form p)))
  /\ exists update saved rest,
      calls (handleSubmit remote user uuid p) = SaveQuestion update saved :: rest
      /\ (forall row,
             In row (insertedChoices (calls (handleSubmit remote user uuid p))) ->
             StudentTest.question_id row = data_id saved)
      /\ forall question,
          StudentTest.row_id question = data_id saved ->
          (StudentTest.validQuestions
             [question] (insertedChoices (calls (handleSubmit remote user uuid p)))
           <> []
           <-> exists n, (n < List.length (options (form p)))%nat
                         /\ answer (form p) = fromCharCode (65 + Z.of_nat n)).
Proof.
  intros Hdone. unfold handleSubmit in *.
  destruct (negb (truthy (content (form p))));
    [destruct Hdone as [H|H]; discriminate H|].
  destruct (negb (given user)); [destruct Hdone as [H|H]; discriminate H|].
  destruct (List.length (selectedLos (form p)) =? 0)%nat;
    [destruct Hdone as [H|H]; discriminate H|].
  destruct (String.eqb (answer (form p)) "");
    [destruct Hdone as [H|H]; discriminate H|].
  pose proof (save_rows remote (text_of user) uuid p) as [Hrows Hlen].
  assert (Hhead : exists update saved rest,
             fst (save remote (text_of user) uuid p) = SaveQuestion update saved :: rest
             /\ data_id saved = if given (editingQuestionId p)
                                then text_of (editingQuestionId p) else uuid O).
  { unfold save. rewrite fst_and_then. cbn [request fst snd].
    destruct (saveQuestion remote _ _); cbn [app]; eexists _, _, _;
      (split; [reflexivity|reflexivity]). }
  destruct (save remote (text_of user) uuid p) as [made [u|e]]; cbn [fst snd] in *.
  2: { destruct e; cbn in Hdone; destruct Hdone as [H|H]; discriminate H. }
  clear Hdone. cbn [calls].
  assert (Hsame : insertedChoices (made ++ [SelectQuestions (text_of user)])
                  = insertedChoices made).
  { rewrite insertedChoices_app. cbn. apply app_nil_r. }
  rewrite Hsame. specialize (Hlen u eq_refl).
  assert (Hflag : forall n row,
             nth_error (insertedChoices made) n = Some row ->
             StudentTest.is_correct row
             = String.eqb (fromCharCode (65 + Z.of_nat n)) (answer (form p))).
  { intros n row H. now destruct (Hrows n row H) as (_ & H2 & _). }
  split; [|split; [exact Hflag|]].
  - apply rows_are_the_options; [|exact Hlen].
    intros n row H. now destruct (Hrows n row H) as (H1 & _).
  - destruct Hhead as (update & saved & rest & -> & Hid).
    exists update, saved, (rest ++ [SelectQuestions (text_of user)])%list.
    split; [reflexivity|].
    assert (Hq : forall row, In row (insertedChoices (SaveQuestion update saved :: rest)) ->
                             StudentTest.question_id row = data_id saved).
    { intros row Hin. apply In_nth_error in Hin as (n & Hn).
      destruct (Hrows n row Hn) as (_ & _ & H3). now rewrite Hid. }
    split; [exact Hq|].
    intros question Hrow.
    set (rows := insertedChoices (SaveQuestion update saved :: rest)) in *.
    unfold StudentTest.validQuestions, StudentTest.questionsWithChoices.
    cbn [map List.filter]. unfold StudentTest.valid at 1. cbn [StudentTest.choices].
    rewrite filter_all.
    2: { intros row Hin. apply String.eqb_eq. rewrite Hrow. now apply Hq. }
    rewrite existsb_copied, length_map.
    split.
    + intros Hvalid.
      destruct (existsb StudentTest.is_correct rows) eqn:E.
      2: { rewrite andb_false_r in Hvalid. contradiction. }
      apply existsb_exists in E as (row & Hin & Hc).
      apply In_nth_error in Hin as (n & Hn).
      exists n. split.
      * rewrite <- Hlen. apply nth_error_Some. rewrite Hn. discriminate.
      * rewrite (Hflag n row Hn) in Hc. apply String.eqb_eq in Hc. now symmetry.
    + intros (n & Hn & Ha).
      rewrite <- Hlen in Hn.
      destruct (nth_error rows n) as [row|] eqn:R;
        [|apply nth_error_None in R; lia].
      assert (E : existsb StudentTest.is_correct rows = true).
      { apply existsb_exists. exists row. split; [now apply nth_error_In with n|].
        rewrite (Hflag n row R), Ha. apply String.eqb_refl. }
      rewrite E.
      replace (0 <? Z.of_nat (List.length rows)) with true
        by (symmetry; apply Z.ltb_lt; lia).
      discriminate.
Qed.

(** X16.  The choices that [handleSubmit] stores.  When it reports success,
    it has inserted one choice for each option, in the order of the form and
    with the text of the option, under the identifier of the saved question,
    and has marked a choice as correct exactly when the letter of its
    position is the answer of the form.  So at most one choice is correct,
    and none is when the answer is not the letter of an option: the question
    is saved all the same, and the test page of the students then discards
    it. *)
Theorem saved_choices_follow_the_letter {Q}
  (remote : Remote Q) (user : option string) (uuid : nat -> string) (p : Page Q)
  (out : Outcome Q) :
  out = handleSubmit remote user uuid p ->
  alert out = Text "Question added successfully!"
  \/ alert out = Text "Question updated successfully!" ->
  Z.of_nat (List.length (options (form p))) <= 65471 ->
  map (fun row => JStr (StudentTest.choice row)) (insertedChoices (calls out))
  = options (form p)
  /\ (forall n row,
         nth_error (insertedChoices (calls out)) n = Some row ->
         StudentTest.is_correct row
         = String.eqb (fromCharCode (65 + Z.of_nat n)) (answer (form p)))
  /\ (forall n m first second,
         nth_error (insertedChoices (calls out)) n = Some first ->
         nth_error (insertedChoices (calls out)) m = Some second ->
         StudentTest.is_correct first = true ->
         StudentTest.is_correct second = true ->
         n = m)
  /\ exists update saved rest,
      calls out = SaveQuestion update saved :: rest
      /\ (forall row, In row (insertedChoices (calls out)) ->
                      StudentTest.question_id row = data_id saved)
      /\ forall question,
          StudentTest.row_id question = data_id saved ->
          (StudentTest.validQuestions [question] (insertedChoices (calls out)) <> []
           <-> exists n, (n < List.length (options (form p)))%nat
                         /\ answer (form p) = fromCharCode (65 + Z.of_nat n)).
Proof.
  intros -> Hdone Hmany.
  destruct (stored_choices remote user uuid p Hdone) as (Htexts & Hflag & Hhead).
  split; [exact Htexts|]. split; [exact Hflag|]. split; [|exact Hhead].
  intros n m first second Hn Hm Hf Hs.
  assert (Hlen : List.length (insertedChoices (calls (handleSubmit remote user uuid p)))
                 = List.length (options (form p))).
  { rewrite <- Htexts. now rewrite length_map. }
  pose proof (proj1 (nth_error_Some _ n) ltac:(rewrite Hn; discriminate)) as Bn.
  pose proof (proj1 (nth_error_Some _ m) ltac:(rewrite Hm; discriminate)) as Bm.
  rewrite (Hflag n first Hn) in Hf. rewrite (Hflag m second Hm) in Hs.
  apply String.eqb_eq in Hf, Hs. rewrite <- Hs in Hf.
  apply letters_differ in Hf; lia.
Qed.

(** The draft with two options, the second one marked: two choices are
    stored, and the second one is the correct one. *)
Lemma saved_choices_witness :
  alert (handleSubmit Bank.accepting (Some "u1") Bank.uuids Bank.draft)
  = Text "Question added successfully!"
  /\ map (fun row => JStr (StudentTest.choice row))
         (insertedChoices (calls (handleSubmit Bank.accepting (Some "u1") Bank.uuids
                                               Bank.draft)))
     = [JStr "FIFO"; JStr "LIFO"]
  /\ map StudentTest.is_correct
         (insertedChoices (calls (handleSubmit Bank.accepting (Some "u1") Bank.uuids
                                               Bank.draft)))
     = [false; true].
Proof.
  split; [reflexivity|].
  split; [|reflexivity].
  exact (proj1 (saved_choices_follow_the_letter
                  Bank.accepting (Some "u1") Bank.uuids Bank.draft _
                  eq_refl (or_introl eq_refl) ltac:(cbn; lia))).
Defined.

Lemma createChoices_blank {Q} (remote : Remote Q) (uuid : nat -> string)
  (questionId answer blank : string) (after : list JsValue) (before : list string) :
  Forall (fun text => trims_to_nothing text = false) before ->
  trims_to_nothing blank = true ->
  (forall row, insertChoice remote row = None) ->
  forall (i : Z) (k : nat),
  exists rows,
    createChoices remote uuid questionId answer i k
                  (map JStr before ++ JStr blank :: after)
    = (map InsertChoice rows,
       Throw (Error ("Option " ++ fromCharCode (65 + (i + Z.of_nat (List.length before)))
                     ++ " cannot be empty")))
    /\ map StudentTest.choice rows = before.
Proof.
  intros Hfull Hblank Hins. induction Hfull as [|text before Htext Hfull IH]; intros i k.
  - exists []. cbn [map app createChoices List.length]. rewrite Hblank.
    rewrite Z.add_0_r. split; reflexivity.
  - cbn [map app createChoices List.length]. rewrite Htext.
    destruct (IH (i + 1) (S k)) as (rows & Hrun & Hrows).
    unfold and_then, request. rewrite Hins, Hrun. cbn [fst snd app].
    eexists (_ :: rows). split.
    + cbn [map].
      replace (i + Z.of_nat (S (List.length before)))
        with (i + 1 + Z.of_nat (List.length before)) by lia.
      reflexivity.
    + cbn [map StudentTest.choice]. now rewrite Hrows.
Qed.

(** X17.  An empty option is found after the writes.  When the form passes
    the four checks, the backend accepts what it is sent and an option is
    blank, [handleSubmit] has saved the question (and, for a question that
    is edited, deleted its stored choices) and has inserted the choices
    before the blank one when it alerts that the option cannot be empty; the
    page stays as it was. *)
Theorem blank_option_is_found_after_the_writes {Q}
  (remote : Remote Q) (user : option string) (uuid : nat -> string) (p : Page Q)
  (before : list string) (blank : string) (after : list JsValue) :
  truthy (content (form p)) = true ->
  given user = true ->
  selectedLos (form p) <> [] ->
  answer (form p) <> "" ->
  options (form p) = (map JStr before ++ JStr blank :: after)%list ->
  Forall (fun text => trims_to_nothing text = false) before ->
  trims_to_nothing blank = true ->
  (forall update row, saveQuestion remote update row = None) ->
  (forall questionId, deleteChoices remote questionId = None) ->
  (forall row, insertChoice remote row = None) ->
  page (handleSubmit remote user uuid p) = p
  /\ alert (handleSubmit remote user uuid p)
     = Text ("An error occurred while saving the question: Option "
             ++ fromCharCode (65 + Z.of_nat (List.length before))
             ++ " cannot be empty")
  /\ exists saved rows,
      calls (handleSubmit remote user uuid p)
      = (SaveQuestion (given (editingQuestionId p)) saved
         :: (if given (editingQuestionId p) then [DeleteChoices (data_id saved)] else [])
         ++ map InsertChoice rows)%list
      /\ map StudentTest.choice rows = before.
Proof.
  intros Hc Hu Hl Ha Ho Hfull Hblank Hsave Hdel Hins. unfold handleSubmit.
  rewrite Hc, Hu. cbn [negb].
  destruct (selectedLos (form p)) as [|lo los] eqn:L; [contradiction|].
  cbn [List.length Nat.eqb].
  destruct (String.eqb (answer (form p)) "") eqn:A;
    [apply String.eqb_eq in A; contradiction|].
  unfold save. rewrite Ho.
  destruct (given (editingQuestionId p)); cbv beta iota zeta;
    match goal with
    | |- context [createChoices remote uuid ?q ?a 0 ?k ?o] =>
        destruct (createChoices_blank remote uuid q a blank after before
                                      Hfull Hblank Hins 0 k) as (rows & Hrun & Hrows)
    end;
    unfold and_then, request, when, done; rewrite ?Hsave, ?Hdel; cbn [fst snd app];
    rewrite Hrun; cbn [fst snd page alert calls saving_alert app data_id];
    (split; [reflexivity|]); (split; [reflexivity|]);
    eexists (Build_QuestionData _ _ _ _ _), rows; (split; [reflexivity|exact Hrows]).
Qed.

(** The draft with a third option that is left blank: the question and its
    first two choices are stored when the alert comes. *)
Lemma blank_option_witness :
  page (handleSubmit Bank.accepting (Some "u1") Bank.uuids Bank.unfinished)
  = Bank.unfinished
  /\ alert (handleSubmit Bank.accepting (Some "u1") Bank.uuids Bank.unfinished)
     = Text "An error occurred while saving the question: Option C cannot be empty"
  /\ exists saved rows,
      calls (handleSubmit Bank.accepting (Some "u1") Bank.uuids Bank.unfinished)
      = (SaveQuestion false saved :: map InsertChoice rows)%list
      /\ map StudentTest.choice rows = ["FIFO"; "LIFO"].
Proof.
  exact (blank_option_is_found_after_the_writes
           Bank.accepting (Some "u1") Bank.uuids Bank.unfinished
           ["FIFO"; "LIFO"] "" []
           eq_refl eq_refl ltac:(discriminate) ltac:(discriminate) eq_refl
           (Forall_cons "FIFO" (eq_refl false)
                        (Forall_cons "LIFO" (eq_refl false) (Forall_nil _)))
           eq_refl (fun _ _ => eq_refl) (fun _ => eq_refl) (fun _ => eq_refl)).
Defined.

End Saving.

(* ================================================================== *)
(** * The lecturer's page: editing the options *)
(* ================================================================== *)

Section Options.
Import Js QuestionManager.

Lemma filter_index_after {A} (index i : Z) (array : list A) :
  index < i -> filter_index (fun j => negb (j =? index)) i array = array.
Proof.
  revert i. induction array as [|x array IH]; intros i H; [reflexivity|].
  cbn [filter_index]. replace (i =? index) with false by (symmetry; apply Z.eqb_neq; lia).
  cbn [negb]. f_equal. apply IH. lia.
Qed.

Lemma filter_index_before {A} (index i : Z) (array : list A) (n : nat) :
  i + Z.of_nat n < index ->
  nth_error (filter_index (fun j => negb (j =? index)) i array) n = nth_error array n.
Proof.
  revert i n. induction array as [|x array IH]; intros i n H; [reflexivity|].
  cbn [filter_index]. replace (i =? index) with false by (symmetry; apply Z.eqb_neq; lia).
  cbn [negb]. destruct n as [|n]; [reflexivity|]. cbn [nth_error]. apply IH. lia.
Qed.

Lemma filter_index_from {A} (index i : Z) (array : list A) (n : nat) :
  i <= index <= i + Z.of_nat n ->
  nth_error (filter_index (fun j => negb (j =? index)) i array) n
  = nth_error array (S n).
Proof.
  revert i n. induction array as [|x array IH]; intros i n H.
  - now destruct n.
  - cbn [filter_index]. destruct (Z.eqb_spec i index) as [E|E]; cbn [negb].
    + rewrite filter_index_after by lia. reflexivity.
    + destruct n as [|n]; [lia|]. cbn [nth_error]. apply IH. lia.
Qed.

(** X18.  Removing an option keeps the letter of the answer.
    [handleRemoveChoice] takes out the option at the index, so that the
    options after it move up by one place, and leaves the answer as it is:
    the letter that was marked then stands for the option that followed the
    marked one, when the removed option is the marked one or one before it.
    An index that is not the place of an option removes nothing. *)
Theorem removal_keeps_the_letter (index : Z) (form : Form) :
  answer (handleRemoveChoice index form) = answer form
  /\ (forall n, Z.of_nat n < index ->
                nth_error (options (handleRemoveChoice index form)) n
                = nth_error (options form) n)
  /\ (forall n, 0 <= index <= Z.of_nat n ->
                nth_error (options (handleRemoveChoice index form)) n
                = nth_error (options form) (S n))
  /\ (forall marked, 0 <= index <= Z.of_nat marked ->
                     answer (handleRemoveChoice index
                                                (markCorrect (Z.of_nat marked) form))
                     = fromCharCode (65 + Z.of_nat marked)
                     /\ nth_error (options (handleRemoveChoice index
                                              (markCorrect (Z.of_nat marked) form)))
                                  marked
                        = nth_error (options form) (S marked))
  /\ (index < 0 \/ Z.of_nat (List.length (options form)) <= index ->
      options (handleRemoveChoice index form) = options form).
Proof.
  unfold handleRemoveChoice, markCorrect. cbn [answer options setOptions setAnswer].
  split; [reflexivity|].
  split; [intros n H; apply filter_index_before; lia|].
  split; [intros n H; apply filter_index_from; lia|].
  split; [intros marked H; split; [reflexivity|apply filter_index_from; lia]|].
  intros [H|H]; [apply filter_index_after; lia|].
  apply nth_error_ext. intros n.
  destruct (Z.ltb_spec (Z.of_nat n) index) as [Hn|Hn].
  - apply filter_index_before. lia.
  - rewrite filter_index_from by lia.
    rewrite (proj2 (nth_error_None (options form) n)) by lia.
    apply nth_error_None. lia.
Qed.

End Options.

(* ================================================================== *)
(** * From the provider to the test *)
(* ================================================================== *)

Section FromProviderToTest.
Import Js Json QuestionManager.

(** X19.  A generated question that is saved as it came reaches the test.
    When [handler] has answered 200, [generateQuestion] has put what arrived
    of the record into the form without an alert, and [handleSubmit] reports
    success on that form, the stored choices are the provider's options in
    their order, the choice that is marked correct carries the provider's
    answer, and the test page of the students keeps the question as a valid
    one. *)
Theorem generated_question_reaches_the_test {Q}
  (JSON_stringify ToString : JsValue -> string) (text : string)
  (data : JsValue) (items : list JsValue) (response : Response) (start : Form)
  (remote : Remote Q) (user : option string) (uuid : nat -> string) (p : Page Q) :
  JSON_parse text = Normal data ->
  Handler.respond JSON_stringify data = Normal response ->
  status response = 200 ->
  field data "options" = Normal (JArr items) ->
  JSON_parse (JSON_stringify (JArr items)) = Normal (JArr items) ->
  generateQuestion ToString response start = (form p, None) ->
  alert (handleSubmit remote user uuid p) = Text "Question added successfully!"
  \/ alert (handleSubmit remote user uuid p) = Text "Question updated successfully!" ->
  exists answer update saved rest,
    field data "answer" = Normal answer
    /\ calls (handleSubmit remote user uuid p) = SaveQuestion update saved :: rest
    /\ map (fun row => JStr (StudentTest.choice row))
           (insertedChoices (calls (handleSubmit remote user uuid p)))
       = items
    /\ (exists row,
           In row (insertedChoices (calls (handleSubmit remote user uuid p)))
           /\ StudentTest.is_correct row = true
           /\ strict_eq (JStr (StudentTest.choice row)) answer = true)
    /\ forall question,
        StudentTest.row_id question = data_id saved ->
        StudentTest.validQuestions
          [question] (insertedChoices (calls (handleSubmit remote user uuid p)))
        <> [].
Proof.
  intros Hparse Hr H200 Ho Hround Hform Hdone.
  destruct (record_is_received JSON_stringify ToString data items response start
                               (parsed_is_json_value text data Hparse) Hr H200 Ho Hround)
    as (question & answer & explanation & n & option
        & _ & Ha & _ & Hn & Hs & _ & _ & Hg).
  unfold generateQuestion in Hform. rewrite Hg in Hform.
  destruct (truthy (Wire.arrives question) && truthy (Wire.arrives answer));
    [|discriminate Hform].
  injection Hform as Hform. symmetry in Hform.
  destruct (stored_choices remote user uuid p Hdone)
    as (Htexts & Hflag & update & saved & rest & Hcalls & _ & Hvalid).
  rewrite Hform in Htexts, Hflag, Hvalid. cbn [options QuestionManager.answer] in *.
  exists answer, update, saved, rest.
  split; [exact Ha|]. split; [exact Hcalls|]. split; [exact Htexts|]. split.
  - assert (Hrow : nth_error
                     (map (fun row => JStr (StudentTest.choice row))
                          (insertedChoices (calls (handleSubmit remote user uuid p)))) n
                   = Some option) by now rewrite Htexts.
    rewrite nth_error_map in Hrow.
    destruct (nth_error (insertedChoices (calls (handleSubmit remote user uuid p))) n)
      as [row|] eqn:R; [|discriminate Hrow].
    injection Hrow as Hrow. exists row.
    split; [now apply nth_error_In with n|]. split.
    + rewrite (Hflag n row R). apply String.eqb_refl.
    + now rewrite Hrow.
  - intros asked Hasked. apply (Hvalid asked Hasked).
    exists n. split; [|reflexivity].
    apply nth_error_Some. rewrite Hn. discriminate.
Qed.

(** The sample question, generated into the draft and saved: the two
    options are stored and the first one, the answer of the provider, is the
    correct one. *)
Lemma generated_question_witness :
  exists saved rest,
    calls (handleSubmit Bank.accepting (Some "u1") Bank.uuids Bank.generated)
    = SaveQuestion false saved :: rest
    /\ map (fun row => JStr (StudentTest.choice row))
           (insertedChoices
              (calls (handleSubmit Bank.accepting (Some "u1") Bank.uuids Bank.generated)))
       = [JStr "a"; JStr "b"]
    /\ StudentTest.validQuestions
         [Quiz.row "q9"]
         (insertedChoices
            (calls (handleSubmit Bank.accepting (Some "u1") Bank.uuids Bank.generated)))
       = [ {| StudentTest.id := "q9";
              StudentTest.content := "What is a queue?";
              StudentTest.explanation := "";
              StudentTest.difficulty := 1;
              StudentTest.choices := [Quiz.option_of "q9" "c1" "a" true;
                                      Quiz.option_of "q9" "c2" "b" false] |} ].
Proof.
  destruct (generated_question_reaches_the_test
              Samples.stringify_texts Samples.no_conversion
              Samples.plain_question
              (JObj Samples.plain_data) [JStr "a"; JStr "b"]
              {| status := 200;
                 body := JObj (set (set Samples.plain_data "difficulty" (JStr "1"))
                                   "options" (JStr (Samples.stringify_texts
                                                      (JArr [JStr "a"; JStr "b"])))) |}
              (form Bank.draft)
              Bank.accepting (Some "u1") Bank.uuids Bank.generated
              eq_refl eq_refl eq_refl eq_refl eq_refl eq_refl (or_introl eq_refl))
    as (answer & update & saved & rest & _ & Hcalls & Htexts & _ & _).
  exists saved, rest. split; [|split; [exact Htexts|reflexivity]].
  rewrite Hcalls. f_equal. f_equal.
  assert (H : hd_error (calls (handleSubmit Bank.accepting (Some "u1") Bank.uuids
                                            Bank.generated))
              = Some (SaveQuestion update saved)) by now rewrite Hcalls.
  cbn in H. now injection H as <- _.
Defined.

End FromProviderToTest.

(* ================================================================== *)
(** * The student test page: which questions are read *)
(* ================================================================== *)

Section Reading.
Import Js StudentTest.

Lemma rows_of_some {A} (reply : Submission.Reply (list A)) (data : list A) :
  Fetch.rows_of reply = Some data ->
  reply = Submission.Answered (Some data) /\ data <> [].
Proof.
  destruct reply as [m|[[|x rest]|]]; cbn; intros H; try discriminate H.
  injection H as <-. split; [reflexivity|discriminate].
Qed.

Lemma holds_In (ids : list string) (i : string) : School.holds ids i = true -> In i ids.
Proof.
  unfold School.holds. intros H. apply existsb_exists in H as (x & Hin & Hx).
  apply String.eqb_eq in Hx. now subst.
Qed.

(** The sample backend answers as the reads ask. *)
Lemma serving_sound (db : Fetch.Database) : Fetch.sound db (School.serving db).
Proof.
  unfold Fetch.sound, School.serving. cbn. repeat split.
  - injection H as <-. now apply filter_In in H0 as [H0 _].
  - injection H as <-. apply filter_In in H0 as [_ H0]. now apply String.eqb_eq in H0.
  - injection H as <-. now apply filter_In in H0 as [H0 _].
  - injection H as <-. apply filter_In in H0 as [_ H0]. now apply holds_In.
  - intros ids data H row Hin. injection H as <-.
    apply in_map_iff in Hin as (link & <- & Hin).
    apply filter_In in Hin as [Hin Hl].
    exists link. split; [exact Hin|]. split; [reflexivity|now apply holds_In].
  - intros ids data H row Hin. injection H as <-.
    apply filter_In in Hin as [_ Hin]. now apply holds_In.
Qed.

(** Every question that the reads give is linked to an objective of a
    chapter of the course. *)
Lemma gathered_rows_are_linked
  (db : Fetch.Database) (remote : Fetch.Remote) (course : string)
  (questionsData : list QuestionRow) (choicesData : list Choice) :
  Fetch.sound db remote ->
  Fetch.gather remote course = Some (questionsData, choicesData) ->
  forall row, In row questionsData ->
    exists chapter lo link,
      In chapter (Fetch.chapters db)
      /\ Fetch.chapter_course_id chapter = course
      /\ In lo (Fetch.learning_objectives db)
      /\ Fetch.lo_chapter_id lo = Fetch.chapter_id chapter
      /\ In link (Fetch.question_lo db)
      /\ Fetch.link_lo_id link = Fetch.lo_id lo
      /\ Fetch.link_question_id link = row_id row.
Proof.
  intros (Hch & Hlo & Hlink & Hq) Hg row Hrow. unfold Fetch.gather in Hg.
  destruct (Fetch.selectCourse remote course) as [m|[courseData|]]; try discriminate Hg.
  destruct (Fetch.rows_of (Fetch.selectChapters remote course)) as [chaptersData|] eqn:C;
    [|discriminate Hg].
  cbv zeta in Hg.
  destruct (Fetch.rows_of (Fetch.selectLearningObjectives remote _)) as [losData|] eqn:L;
    [|discriminate Hg].
  destruct (Fetch.rows_of (Fetch.selectQuestionLos remote _)) as [questionLosData|] eqn:K;
    [|discriminate Hg].
  destruct (Fetch.rows_of (Fetch.selectQuestions remote _)) as [rows|] eqn:R;
    [|discriminate Hg].
  destruct (Fetch.rows_of (Fetch.selectChoices remote _)) as [options|] eqn:O;
    [|discriminate Hg].
  injection Hg as <- <-.
  apply rows_of_some in C as [C _], L as [L _], K as [K _], R as [R _].
  pose proof (Hq _ _ R row Hrow) as Hid.
  apply in_map_iff in Hid as (qlo & Hqlo & Hin).
  destruct (Hlink _ _ K qlo Hin) as (link & Hl1 & Hl2 & Hl3).
  apply in_map_iff in Hl3 as (lo & Hlo1 & Hlo2).
  destruct (Hlo _ _ L lo Hlo2) as [Hlo3 Hlo4].
  apply in_map_iff in Hlo4 as (chapter & Hc1 & Hc2).
  destruct (Hch _ _ C chapter Hc2) as [Hc3 Hc4].
  exists chapter, lo, link. repeat split; try assumption; congruence.
Qed.

(** A question of the assembled list comes from a row, and its choices are
    choices of that row. *)
Lemma valid_question_of_row
  (questionsData : list QuestionRow) (choicesData : list Choice) (q : Question) :
  In q (validQuestions questionsData choicesData) ->
  valid q = true
  /\ (exists row, In row questionsData /\ row_id row = id q)
  /\ forall c, In c (choices q) -> question_id c = id q.
Proof.
  unfold validQuestions. intros H. apply filter_In in H as [H Hv].
  split; [exact Hv|]. unfold questionsWithChoices in H.
  apply in_map_iff in H as (row & <- & Hrow). cbn [id choices]. split.
  - exists row. split; [exact Hrow|reflexivity].
  - intros c Hc. apply in_map_iff in Hc as (c' & <- & Hc').
    apply filter_In in Hc' as [_ Hc']. cbn [question_id]. now apply String.eqb_eq in Hc'.
Qed.

(** X20.  Which questions a test can hold.  Provided the backend answers
    each read with rows that satisfy the condition of the read,
    [fetchQuestions] either leaves the state as it was (no course in the
    route, an error or no row at one of the six reads, or no valid question)
    or sets between one and five questions; each of them is valid, has only
    choices that carry its identifier, and is linked to a learning objective
    of a chapter of the course of the route. *)
Theorem test_questions_belong_to_the_course
  (db : Fetch.Database) (remote : Fetch.Remote) (courseId : Fetch.Param)
  (st st' : State) :
  Fetch.sound db remote ->
  Fetch.fetchQuestions remote courseId st st' ->
  st' = st
  \/ exists course,
      courseId = Fetch.One course
      /\ (1 <= List.length (questions st') <= 5)%nat
      /\ forall q, In q (questions st') ->
           valid q = true
           /\ (forall c, In c (choices q) -> question_id c = id q)
           /\ exists chapter lo link,
               In chapter (Fetch.chapters db)
               /\ Fetch.chapter_course_id chapter = course
               /\ In lo (Fetch.learning_objectives db)
               /\ Fetch.lo_chapter_id lo = Fetch.chapter_id chapter
               /\ In link (Fetch.question_lo db)
               /\ Fetch.link_lo_id link = Fetch.lo_id lo
               /\ Fetch.link_question_id link = id q.
Proof.
  intros Hsound H.
  destruct H as [Hno|course Hc Hne Hg|course questionsData choicesData st' Hc Hne Hg Hf];
    [now left|now left|].
  destruct Hf as [Hq|Hq Hcs|Hq Hcs Hv|shuffled Hq Hcs Hv Hs]; [now left|now left|now left|].
  right. exists course. split; [exact Hc|].
  cbn [questions setQuestions]. unfold slice0, sort_random in *. split.
  - rewrite length_firstn. rewrite <- (Permutation_length Hs).
    destruct (validQuestions questionsData choicesData); [contradiction|].
    cbn [List.length]. lia.
  - intros q Hin. apply In_firstn in Hin.
    apply (Permutation_in _ (Permutation_sym Hs)) in Hin.
    destruct (valid_question_of_row _ _ _ Hin) as (Hvalid & (row & Hrow & Hid) & Hchoices).
    split; [exact Hvalid|]. split; [exact Hchoices|].
    rewrite <- Hid.
    exact (gathered_rows_are_linked db remote course _ _ Hsound Hg row Hrow).
Qed.

(** The sample course: the test is made of its questions, and the question
    of the other course is not read. *)
Lemma test_questions_witness :
  Fetch.gather (School.serving School.cs101) "cs101" = Some (Quiz.rows, Quiz.table)
  /\ (setQuestions Quiz.assembled initial = initial
      \/ exists course,
          Fetch.One "cs101" = Fetch.One course
          /\ (1 <= List.length (questions (setQuestions Quiz.assembled initial)) <= 5)%nat
          /\ forall q, In q (questions (setQuestions Quiz.assembled initial)) ->
               valid q = true
               /\ (forall c, In c (choices q) -> question_id c = id q)
               /\ exists chapter lo link,
                   In chapter (Fetch.chapters School.cs101)
                   /\ Fetch.chapter_course_id chapter = course
                   /\ In lo (Fetch.learning_objectives School.cs101)
                   /\ Fetch.lo_chapter_id lo = Fetch.chapter_id chapter
                   /\ In link (Fetch.question_lo School.cs101)
                   /\ Fetch.link_lo_id link = Fetch.lo_id lo
                   /\ Fetch.link_question_id link = id q).
Proof.
  split; [reflexivity|].
  apply (test_questions_belong_to_the_course
           School.cs101 (School.serving School.cs101) (Fetch.One "cs101") initial).
  - apply serving_sound.
  - apply (Fetch.fetch_rows _ _ _ "cs101" Quiz.rows Quiz.table);
      [reflexivity|discriminate|reflexivity|apply fetch_sample].
Defined.

End Reading.
